(** * configdb_compare: the configuration reconciliation tool, in Rocq

    A shallow embedding of the two variants of the tool,
    [src/configdb_compare_original.py] (module [Original]) and
    [src/configuration_database_compare.py] (module [Refactored]), and of the
    methods the two files share word for word (module [Common]).

    Python values are modelled as follows.
    - [str] is [string]; a character is a code point below 256.
    - [dict] (string keys, string values) is an association list in
      insertion order: assignment to a present key keeps its position,
      assignment to a new key appends.
    - Methods run in a state-and-exception monad over [World]: the log, the
      standard output, the state of the database connection and the
      [TOTAL_WARNINGS] counter.  What a method did before it raised stays
      done.
    - The database driver, the file system and the command line are inputs
      ([Env], [Args]). *)

From Stdlib Require Import String Ascii List ZArith Lia Bool Arith.
From Stdlib Require Import DecimalString DecimalN Permutation.
Import ListNotations.

Local Open Scope string_scope.
Local Open Scope list_scope.

(** ** Python strings *)

Module Py.

(** [x in s] for one character. *)
Fixpoint has_char (c : ascii) (s : string) : bool :=
  match s with
  | EmptyString => false
  | String a s' => Ascii.eqb a c || has_char c s'
  end.

(** [sub in s]: substring test; the empty string is in every string. *)
Fixpoint str_in (sub s : string) : bool :=
  String.prefix sub s ||
  match s with
  | EmptyString => false
  | String _ s' => str_in sub s'
  end.

(** [s.startswith(p)]. *)
Definition startswith (s p : string) : bool := String.prefix p s.

(** [bool(s)]: a string is true when it is not empty. *)
Definition truthy (s : string) : bool :=
  match s with EmptyString => false | String _ _ => true end.

(** [s.split(sep)] for a one-character separator: never the empty list. *)
Fixpoint split (sep : ascii) (s : string) : list string :=
  match s with
  | EmptyString => [EmptyString]
  | String c s' =>
      if Ascii.eqb c sep then EmptyString :: split sep s'
      else match split sep s' with
           | [] => [String c EmptyString]
           | f :: fs => String c f :: fs
           end
  end.

(** [s.split(sep, 1)]: cut at the first separator only. *)
Fixpoint split1 (sep : ascii) (s : string) : list string :=
  match s with
  | EmptyString => [EmptyString]
  | String c s' =>
      if Ascii.eqb c sep then [EmptyString; s']
      else match split1 sep s' with
           | [] => [String c EmptyString]
           | f :: fs => String c f :: fs
           end
  end.

(** [s.replace(c, '')] for a one-character [c]. *)
Fixpoint remove_char (c : ascii) (s : string) : string :=
  match s with
  | EmptyString => EmptyString
  | String a s' =>
      if Ascii.eqb a c then remove_char c s' else String a (remove_char c s')
  end.

(** [c.isspace()] on the code points below 256: tab to carriage return,
    the four separators 28..31, space, NEL and the no-break space. *)
Definition isspace (c : ascii) : bool :=
  let n := nat_of_ascii c in
  (((9 <=? n) && (n <=? 13)) || ((28 <=? n) && (n <=? 32))
   || (n =? 133) || (n =? 160))%nat.

Fixpoint lstrip (s : string) : string :=
  match s with
  | EmptyString => EmptyString
  | String c s' => if isspace c then lstrip s' else s
  end.

Fixpoint rstrip (s : string) : string :=
  match s with
  | EmptyString => EmptyString
  | String c s' =>
      match rstrip s' with
      | EmptyString => if isspace c then EmptyString else String c EmptyString
      | r => String c r
      end
  end.

(** [s.strip()]. *)
Definition strip (s : string) : string := rstrip (lstrip s).

(** [str(n)] for a natural number. *)
Definition str_of_nat (n : nat) : string :=
  NilEmpty.string_of_uint (Nat.to_uint n).

Definition str_of_N (n : N) : string :=
  NilEmpty.string_of_uint (N.to_uint n).

(** [str(z)] for an integer. *)
Definition str_of_Z (z : Z) : string :=
  NilEmpty.string_of_int (Z.to_int z).

(** [s * n]. *)
Fixpoint repeat_str (s : string) (n : nat) : string :=
  match n with
  | O => EmptyString
  | S n' => s ++ repeat_str s n'
  end.

(** The exceptions the tool can meet.  [SystemExit] is raised by
    [sys.exit] and is not an [Exception]; the others are. *)
Inductive exn : Type :=
| IndexError (msg : string)
| TypeError (msg : string)
| KeyError (msg : string)
| UnboundLocalError (msg : string)
| OperationalError (msg : string)
| OtherError (msg : string)
| SystemExit (code : Z).

Definition is_Exception (e : exn) : bool :=
  match e with SystemExit _ => false | _ => true end.

Definition is_OperationalError (e : exn) : bool :=
  match e with OperationalError _ => true | _ => false end.

(** [str(e)]. *)
Definition str_of_exn (e : exn) : string :=
  match e with
  | IndexError m | TypeError m | KeyError m | UnboundLocalError m
  | OperationalError m | OtherError m => m
  | SystemExit c => str_of_Z c
  end.

Inductive result (A : Type) : Type :=
| Ok (a : A)
| Raise (e : exn).
Arguments Ok {A} a.
Arguments Raise {A} e.

(** [l[i]] on a list. *)
Definition index {A : Type} (l : list A) (i : nat) : result A :=
  match nth_error l i with
  | Some a => Ok a
  | None => Raise (IndexError "list index out of range")
  end.

(** *** Dictionaries *)

Definition dict : Type := list (string * string).

Fixpoint dict_get (d : dict) (k : string) : option string :=
  match d with
  | [] => None
  | (k', v) :: d' => if String.eqb k' k then Some v else dict_get d' k
  end.

(** [k in d]. *)
Definition dict_contains (k : string) (d : dict) : bool :=
  match dict_get d k with Some _ => true | None => false end.

(** [d[k] = v]. *)
Fixpoint dict_set (d : dict) (k v : string) : dict :=
  match d with
  | [] => [(k, v)]
  | (k', v') :: d' =>
      if String.eqb k' k then (k', v) :: d' else (k', v') :: dict_set d' k v
  end.

Definition dict_keys (d : dict) : list string := map fst d.

(** [{**a, **b}]. *)
Definition dict_merge (a b : dict) : dict :=
  fold_left (fun d kv => dict_set d (fst kv) (snd kv)) b a.

(** The values a caller can hand to a method that expects a dictionary. *)
Inductive pyval : Type :=
| PyNone
| PyInt (z : Z)
| PyStr (s : string)
| PyDict (d : dict).

(** [isinstance(v, dict)]. *)
Definition is_dict (v : pyval) : bool :=
  match v with PyDict _ => true | _ => false end.

(** The characters of a string, as iteration over a [str] yields them. *)
Fixpoint chars (s : string) : list string :=
  match s with
  | EmptyString => []
  | String c s' => String c EmptyString :: chars s'
  end.

(** [for k in v]: the keys of a dictionary, the characters of a string;
    [None] and integers are not iterable. *)
Definition iter (v : pyval) : result (list string) :=
  match v with
  | PyDict d => Ok (dict_keys d)
  | PyStr s => Ok (chars s)
  | PyNone => Raise (TypeError "'NoneType' object is not iterable")
  | PyInt _ => Raise (TypeError "'int' object is not iterable")
  end.

(** [k in v] for a string [k]. *)
Definition contains (k : string) (v : pyval) : result bool :=
  match v with
  | PyDict d => Ok (dict_contains k d)
  | PyStr s => Ok (str_in k s)
  | PyNone => Raise (TypeError "argument of type 'NoneType' is not iterable")
  | PyInt _ => Raise (TypeError "argument of type 'int' is not iterable")
  end.

(** [v[k]] for a string [k]. *)
Definition getitem (v : pyval) (k : string) : result string :=
  match v with
  | PyDict d =>
      match dict_get d k with
      | Some x => Ok x
      | None => Raise (KeyError k)
      end
  | PyStr _ => Raise (TypeError "string indices must be integers")
  | PyNone => Raise (TypeError "'NoneType' object is not subscriptable")
  | PyInt _ => Raise (TypeError "'int' object is not subscriptable")
  end.

End Py.
Import Py.

(** ** The world a run acts on *)

Inductive level : Type := INFO | WARNING | ERROR.

(** The database connection held in [self.cursor]. *)
Inductive connection : Type := NotConnected | Connected | Closed.

(** A difference record: the four-element list
    [[difference_type, config_name, database value, script value]]. *)
Record Entry : Type := mkEntry {
  difference_type : string;
  entry_name : string;
  value_database : string;
  value_script : string }.

(** What [print] writes: a line of text, or the rendered table of
    differences (rendering is left to the table library). *)
Inductive output : Type :=
| Line (s : string)
| Table (rows : list Entry).

Record World : Type := mkWorld {
  log : list (level * string);
  stdout : list output;
  cursor : connection;
  TOTAL_WARNINGS : Z }.

Definition initial_world : World :=
  {| log := []; stdout := []; cursor := NotConnected; TOTAL_WARNINGS := 0 |}.

(** A row of [config_field] as the tool reads it: [row[2]], [row[3]] and
    [row[5]]. *)
Record date : Type := mkDate { year : N; month : N; day : N }.

Record Row : Type := mkRow {
  config_name : string;
  config_value : string;
  valid_date : date }.

(** [d.strftime('%Y')]: the year in decimal.  (Some platforms pad years
    below 1000 with zeros; the tool only compares the result with
    ['9999'].) *)
Definition strftime_Y (d : date) : string := str_of_N (year d).

Record ScriptFile : Type := mkScriptFile {
  path : string;
  lines : list string }.

(** The collaborators of a run: the outcome of connecting, the outcome of
    [SELECT * FROM config_field], the [.sql] files found under a directory
    with their lines, and where and on what the tool runs. *)
Record Env : Type := mkEnv {
  connect_error : option exn;
  fetchall : result (list Row);
  rglob : string -> list ScriptFile;
  PROJECT_ROOT : string;
  OPERATING_SYSTEM : string }.

(** The attributes [__init__] copies from the command line; they are
    never assigned again.  [database_warnings] is set to 0 there. *)
Record MySQLCompare : Type := mkMySQLCompare {
  host : string;
  port : Z;
  database : string;
  user : string;
  password : string;
  max_table_width : Z;
  is_print_table_diff : bool;
  is_print_stored_procs : bool;
  client_specific_keyword : option string;
  comparison_direction : string;
  database_warnings : Z }.

(** The parsed command line. *)
Record Args : Type := mkArgs {
  arg_host : string;
  arg_port : Z;
  arg_database : string;
  arg_user : string;
  arg_passwd : string;
  arg_comparison_direction : string;
  arg_contains : string;
  arg_client_keyword : option string;
  arg_print_stored_procs : bool;
  arg_print_table : bool;
  arg_max_table_width : Z;
  arg_repr : string  (* [str(args)] *) }.

(** ** The monad of methods *)

Definition M (A : Type) : Type := World -> result A * World.

Definition ret {A : Type} (a : A) : M A := fun w => (Ok a, w).

Definition raise {A : Type} (e : exn) : M A := fun w => (Raise e, w).

Definition bind {A B : Type} (m : M A) (k : A -> M B) : M B :=
  fun w =>
    match m w with
    | (Ok a, w') => k a w'
    | (Raise e, w') => (Raise e, w')
    end.

Declare Scope py_scope.
Delimit Scope py_scope with py.
Notation "x <- m ;; k" := (bind m (fun x => k))
  (at level 61, m at next level, right associativity) : py_scope.
Notation "' pat <- m ;; k" := (bind m (fun x => match x with pat => k end))
  (at level 61, pat pattern, m at next level, right associativity) : py_scope.
Notation "m ;; k" := (bind m (fun _ => k))
  (at level 61, right associativity) : py_scope.
Local Open Scope py_scope.

(** A pure computation that may raise, run inside a method. *)
Definition lift {A : Type} (r : result A) : M A := fun w => (r, w).

(** [try: m  except <class> as e: handler e], for the class of exceptions
    that [catches] recognises. *)
Definition try_except_when {A : Type} (catches : exn -> bool)
    (m : M A) (handler : exn -> M A) : M A :=
  fun w =>
    match m w with
    | (Ok a, w') => (Ok a, w')
    | (Raise e, w') => if catches e then handler e w' else (Raise e, w')
    end.

(** [try: m  except Exception as e: handler e]. *)
Definition try_except {A : Type} (m : M A) (handler : exn -> M A) : M A :=
  try_except_when is_Exception m handler.

(** [try: m  finally: fin]. *)
Definition try_finally {A : Type} (m : M A) (fin : M unit) : M A :=
  fun w =>
    match m w with
    | (r, w') =>
        match fin w' with
        | (Ok _, w'') => (r, w'')
        | (Raise e, w'') => (Raise e, w'')
        end
    end.

(** [for x in l: s = body s x]. *)
Fixpoint for_each {A S : Type} (l : list A) (body : S -> A -> M S) (s : S)
  : M S :=
  match l with
  | [] => ret s
  | x :: l' => s' <- body s x ;; for_each l' body s'
  end.

Definition logger (lvl : level) (msg : string) : M unit :=
  fun w => (Ok tt, {| log := log w ++ [(lvl, msg)]; stdout := stdout w;
                      cursor := cursor w; TOTAL_WARNINGS := TOTAL_WARNINGS w |}).

Definition print (o : output) : M unit :=
  fun w => (Ok tt, {| log := log w; stdout := stdout w ++ [o];
                      cursor := cursor w; TOTAL_WARNINGS := TOTAL_WARNINGS w |}).

Definition set_cursor (c : connection) : M unit :=
  fun w => (Ok tt, {| log := log w; stdout := stdout w;
                      cursor := c; TOTAL_WARNINGS := TOTAL_WARNINGS w |}).

(** [self.TOTAL_WARNINGS += n]. *)
Definition add_TOTAL_WARNINGS (n : Z) : M unit :=
  fun w => (Ok tt, {| log := log w; stdout := stdout w; cursor := cursor w;
                      TOTAL_WARNINGS := (TOTAL_WARNINGS w + n)%Z |}).

Definition get_TOTAL_WARNINGS : M Z := fun w => (Ok (TOTAL_WARNINGS w), w).

(** When [substring_condition] is empty every key is taken, else only the
    keys that contain it:
    [not substring_condition or (substring_condition and substring_condition in config_name)]. *)
Definition takes_key (substring_condition config_name : string) : bool :=
  negb (truthy substring_condition)
  || (truthy substring_condition && str_in substring_condition config_name).

Definition dquote : ascii := ascii_of_nat 34.
Definition squote : ascii := ascii_of_nat 39.
Definition lparen : ascii := ascii_of_nat 40.
Definition comma : ascii := ascii_of_nat 44.
Definition newline : string := String (ascii_of_nat 10) EmptyString.

(** ** What the two files share word for word *)

Module Common.

Definition ALENZA_CONFIG_SCRIPTS_RELATIVE : string := "alenza/config/inserts".
Definition AICON_CONFIG_SCRIPTS_RELATIVE : string := "aicon/config/inserts".
Definition CLIENT_SPECIFIC_DIRECTORY : string :=
  AICON_CONFIG_SCRIPTS_RELATIVE ++ "/client".
Definition CONFIG_TABLE_NAME : string := "config_field".

Definition logging_line_break : M unit := logger INFO "".

(** [path.replace("/", "\\")]. *)
Fixpoint to_backslashes (s : string) : string :=
  match s with
  | EmptyString => EmptyString
  | String c s' =>
      String (if Ascii.eqb c (ascii_of_nat 47) then ascii_of_nat 92 else c)
             (to_backslashes s')
  end.

Definition format_windows_path (operating_system path : string) : string :=
  if String.eqb operating_system "nt" then to_backslashes path else path.

(** [os.path.normpath] on the slash-separated constant it is applied to:
    unchanged on POSIX, backslashes on Windows. *)
Definition normpath (operating_system path : string) : string :=
  if String.eqb operating_system "nt" then to_backslashes path else path.

(** The statement both directions print for a key and a value. *)
Definition call_statement (k v : string) : string :=
  "CALL SP_CREATE_CONFIG_FIELD('" ++ k ++ "', '" ++ v ++ "', null);".

Definition parse_stored_proc_statement (statement : string)
  : result (string * string) :=
  match index (split1 lparen statement) 1 with
  | Raise e => Raise e
  | Ok line =>
      let line := remove_char dquote line in
      let line := remove_char squote line in
      match index (split comma line) 0 with
      | Raise e => Raise e
      | Ok field0 =>
          let config_name := strip field0 in
          match index (split comma line) 1 with
          | Raise e => Raise e
          | Ok field1 =>
              let config_value := strip field1 in
              Ok (config_name, config_value)
          end
      end
  end.

Definition separator : output := Line (repeat_str "----------" 5).
Definition blank_lines : output := Line (repeat_str newline 5).

Definition SKIP_MISSING_MESSAGE : string :=
  "STORED PROCEDURES FOR MISSING KEYS: Since we're trying to CHANGE THE SCRIPTS to MATCH THE SERVER,"
  ++ "this DOES NOT APPLY! Skipping...".

(** The local variables of the loop of
    [generate_missing_stored_proc_statement]; [statement] is unbound until
    a known direction assigns it. *)
Record GenState : Type := mkGenState {
  statement : option string;
  all_missing_key_stored_proc_statements : list string;
  all_diff_key_stored_proc_statements : list string }.

Definition generate_entry (self : MySQLCompare) (st : GenState) (entry : Entry)
  : M GenState :=
  let difference_type := difference_type entry in
  let config_name := entry_name entry in
  let config_value_database := value_database entry in
  let config_value_script := value_script entry in
  statement <-
    (if String.eqb (comparison_direction self) "scripts" then
       ret (Some (call_statement config_name config_value_script))
     else if String.eqb (comparison_direction self) "server" then
       ret (Some (call_statement config_name config_value_database))
     else
       logger ERROR ("UNKNOWN COMPARISON DIRECTION: "
                     ++ comparison_direction self) ;;
       ret (statement st)) ;;
  let read_statement : M string :=
    match statement with
    | Some s => ret s
    | None =>
        raise (UnboundLocalError
                 "local variable 'statement' referenced before assignment")
    end in
  if String.eqb difference_type "MISSING" then
    s <- read_statement ;;
    ret {| statement := statement;
           all_missing_key_stored_proc_statements :=
             all_missing_key_stored_proc_statements st ++ [s];
           all_diff_key_stored_proc_statements :=
             all_diff_key_stored_proc_statements st |}
  else if String.eqb difference_type "CHANGE" then
    s <- read_statement ;;
    ret {| statement := statement;
           all_missing_key_stored_proc_statements :=
             all_missing_key_stored_proc_statements st;
           all_diff_key_stored_proc_statements :=
             all_diff_key_stored_proc_statements st ++ [s] |}
  else
    logger ERROR ("UNKNOWN COMPARISON TYPE: " ++ difference_type) ;;
    ret {| statement := statement;
           all_missing_key_stored_proc_statements :=
             all_missing_key_stored_proc_statements st;
           all_diff_key_stored_proc_statements :=
             all_diff_key_stored_proc_statements st |}.

Definition print_all (stored_procs : list string) : M unit :=
  for_each stored_procs (fun _ stored_proc => print (Line stored_proc)) tt.

Definition generate_missing_stored_proc_statement
    (self : MySQLCompare) (entries : list Entry) : M unit :=
  if (0 <? length entries)%nat && is_print_stored_procs self then
    print blank_lines ;;
    print (Line "Generating procedure calls ...") ;;
    print (Line "**Printing to make copy-paste-able") ;;
    print separator ;;
    st <- for_each entries (generate_entry self)
            {| statement := None;
               all_missing_key_stored_proc_statements := [];
               all_diff_key_stored_proc_statements := [] |} ;;
    (if String.eqb (comparison_direction self) "scripts" then
       print (Line "STORED PROCEDURES FOR MISSING KEYS:") ;;
       print_all (all_missing_key_stored_proc_statements st)
     else if String.eqb (comparison_direction self) "server" then
       print (Line SKIP_MISSING_MESSAGE)
     else ret tt) ;;
    print separator ;;
    print blank_lines ;;
    print (Line "STORED PROCEDURES FOR KEYS WITH DIFFERENT VALUES:") ;;
    print_all (all_diff_key_stored_proc_statements st) ;;
    print separator
  else ret tt.

(** [bool(self.client_specific_keyword)]. *)
Definition keyword_given (self : MySQLCompare) : bool :=
  match client_specific_keyword self with
  | Some k => truthy k
  | None => false
  end.

(** [self.client_specific_keyword in path_str], once the keyword is given. *)
Definition keyword_in (self : MySQLCompare) (path_str : string) : bool :=
  match client_specific_keyword self with
  | Some k => str_in k path_str
  | None => false
  end.

(** The first loop of [analyze_scripts_config]: which files are read. *)
Definition select_script (env : Env) (self : MySQLCompare)
    (all_sql_config_insert_scripts : list ScriptFile) (file : ScriptFile)
  : M (list ScriptFile) :=
  let path_str := path file in
  if str_in (normpath (OPERATING_SYSTEM env) CLIENT_SPECIFIC_DIRECTORY) path_str
  then
    logger INFO ("CLIENT-SPECIFIC FILE FOUND: " ++ path_str) ;;
    if keyword_given self && keyword_in self path_str then
      logger INFO " -- FILE IS SPECIFIC TO CLIENT! Adding... " ;;
      ret (all_sql_config_insert_scripts ++ [file])
    else if negb (keyword_given self) then
      logger WARNING
        "-- CLIENT SPECIFIC KEYWORD NOT PROVIDED! Skipping file..." ;;
      ret all_sql_config_insert_scripts
    else
      logger INFO " -- FILE IS NOT FOR THIS CLIENT! Will NOT add... " ;;
      ret all_sql_config_insert_scripts
  else
    logger INFO ("FILE FOUND: " ++ path_str) ;;
    ret (all_sql_config_insert_scripts ++ [file]).

(** The local variables of the second loop: the mapping, the warnings and
    the per-file count of taken keys. *)
Record ScanState : Type := mkScanState {
  flagged_keys : dict;
  total_warnings : Z;
  flagged : Z }.

(** A line is a statement when it starts with [CALL] and has no [CAST]:
    the negation of the test [scan_line] skips a line on. *)
Definition is_statement_line (line : string) : bool :=
  negb (negb (startswith line "CALL") || str_in "CAST" line).

Definition scan_line (substring_condition : string) (st : ScanState)
    (line : string) : M ScanState :=
  if negb (startswith line "CALL") || str_in "CAST" line then
    ret st
  else
    '(config_name, config_value) <- lift (parse_stored_proc_statement line) ;;
    total_warnings <-
      (if dict_contains config_name (flagged_keys st) then
         logger INFO ("WARN: " ++ config_name ++ " is duplicated with value "
                      ++ config_value ++ " in INSERT SCRIPTS") ;;
         ret (total_warnings st + 1)%Z
       else ret (total_warnings st)) ;;
    if takes_key substring_condition config_name then
      ret {| flagged_keys := dict_set (flagged_keys st) config_name config_value;
             total_warnings := total_warnings;
             flagged := (flagged st + 1)%Z |}
    else
      ret {| flagged_keys := flagged_keys st;
             total_warnings := total_warnings;
             flagged := flagged st |}.

Definition scan_file (substring_condition : string) (st : ScanState)
    (file : ScriptFile) : M ScanState :=
  logger INFO (" -- Reading File " ++ path file) ;;
  logger INFO (" -- -- Parsing File " ++ path file) ;;
  st' <- for_each (lines file) (scan_line substring_condition)
           {| flagged_keys := flagged_keys st;
              total_warnings := total_warnings st;
              flagged := 0 |} ;;
  logger INFO ("-- -- -- Flagged Keys: " ++ str_of_Z (flagged st')) ;;
  logging_line_break ;;
  ret st'.

(** The directory that is searched: ["{root}/{relative}"], in the form of
    the operating system. *)
Definition files_directory_of (env : Env) (scripts_dir : string) : string :=
  format_windows_path (OPERATING_SYSTEM env)
                      (PROJECT_ROOT env ++ "/" ++ scripts_dir).

Definition analyze_scripts_config (env : Env) (self : MySQLCompare)
    (scripts_dir substring_condition : string) : M (dict * Z) :=
  let files_directory := files_directory_of env scripts_dir in
  logger INFO ("Globbing files from '" ++ files_directory ++ "' ...") ;;
  all_sql_config_insert_scripts <-
    for_each (rglob env files_directory) (select_script env self) [] ;;
  logger INFO ("Total files found: "
               ++ str_of_nat (length all_sql_config_insert_scripts)) ;;
  logging_line_break ;;
  logger INFO "Starting file analysis..." ;;
  st <- for_each all_sql_config_insert_scripts (scan_file substring_condition)
          {| flagged_keys := []; total_warnings := 0; flagged := 0 |} ;;
  logger INFO ("Returning " ++ str_of_nat (length (flagged_keys st))
               ++ " keys from "
               ++ str_of_nat (length all_sql_config_insert_scripts)
               ++ " files...") ;;
  ret (flagged_keys st, total_warnings st).

(** The body of the comparison loop, the same in both files: what one key
    of the scripts adds to [differences]. *)
Definition compare_key (database_keys script_keys : pyval)
    (differences : list Entry) (config_name : string)
  : result (list Entry) :=
  match contains config_name database_keys with
  | Raise e => Raise e
  | Ok true =>
      match getitem script_keys config_name with
      | Raise e => Raise e
      | Ok script_value =>
          match getitem database_keys config_name with
          | Raise e => Raise e
          | Ok database_value =>
              if negb (String.eqb script_value database_value) then
                let config_value_database := database_value in
                let config_value_script := script_value in
                Ok (differences ++
                    [mkEntry "CHANGE" config_name config_value_database
                             config_value_script])
              else Ok differences
          end
      end
  | Ok false =>
      match getitem script_keys config_name with
      | Raise e => Raise e
      | Ok config_value_script =>
          Ok (differences ++
              [mkEntry "MISSING" config_name "N/A" config_value_script])
      end
  end.

(** The loop over the keys still to visit.  [differences] is a list the
    loop appends to in place: when a key raises, what was appended before
    is still there, and is returned beside the exception. *)
Fixpoint compare_keys (database_keys script_keys : pyval)
    (names : list string) (differences : list Entry)
  : list Entry * option exn :=
  match names with
  | [] => (differences, None)
  | config_name :: names' =>
      match compare_key database_keys script_keys differences config_name with
      | Ok differences' =>
          compare_keys database_keys script_keys names' differences'
      | Raise e => (differences, Some e)
      end
  end.

(** [for config_name in script_keys: ...], from an empty [differences]. *)
Definition compare_loop (database_keys script_keys : pyval)
  : list Entry * option exn :=
  match iter script_keys with
  | Raise e => ([], Some e)
  | Ok names => compare_keys database_keys script_keys names []
  end.

(** The driver's [connect()]. *)
Definition driver_connect (env : Env) : M unit :=
  match connect_error env with
  | None => set_cursor Connected
  | Some e => raise e
  end.

(** [MySQLCompare(...)] before [self.cursor = self.connect()]. *)
Definition attributes (args : Args) : MySQLCompare :=
  {| host := arg_host args;
     port := arg_port args;
     database := arg_database args;
     user := arg_user args;
     password := arg_passwd args;
     max_table_width := arg_max_table_width args;
     is_print_table_diff := arg_print_table args;
     is_print_stored_procs := arg_print_stored_procs args;
     client_specific_keyword := arg_client_keyword args;
     comparison_direction := arg_comparison_direction args;
     database_warnings := 0 |}.

(** The opening of [main]: the arguments and the direction are logged, and
    the tool sleeps ten seconds (time is not modelled). *)
Definition announce (args : Args) : M unit :=
  logger INFO ("Arguments: " ++ arg_repr args) ;;
  logger WARNING ("IMPORTANT: The 'Comparison Direction' (-cd) is set to '"
                  ++ arg_comparison_direction args ++ "'") ;;
  (if String.eqb (arg_comparison_direction args) "scripts" then
     logger WARNING
       ("This means that the main method will compare: THE MYSQL SERVER to THE SQL SCRIPTS! "
        ++ "This will generate results to MATCH THE SERVER TO THE SCRIPTS")
   else if String.eqb (arg_comparison_direction args) "server" then
     logger WARNING
       ("This means that the main method will compare: THE SQL SCRIPTS to THE MYSQL SERVER! "
        ++ "This will generate results to REPRODUCE THE MYSQL SERVER!")
   else ret tt) ;;
  logger WARNING "Sleeping for 10 seconds so you read this...".

End Common.

(** ** configdb_compare_original.py *)

Module Original.
Import Common.

Definition connect (env : Env) (self : MySQLCompare) : M unit :=
  logger INFO "Attempting to connect to MySQL database..." ;;
  try_except
    (driver_connect env ;;
     logger INFO "MySQL Connection Status: Connected")
    (fun e =>
       logger ERROR ("MySQL Connection Status: Not Connected. "
                     ++ str_of_exn e) ;;
       raise (SystemExit 1)).

Definition init (env : Env) (args : Args) : M MySQLCompare :=
  let self := attributes args in
  connect env self ;;
  ret self.

(** One row of the fetched table; the loop state is [flagged_keys] and
    [total_warnings]. *)
Definition analyze_row (substring_condition : string) (st : dict * Z)
    (row : Row) : M (dict * Z) :=
  let '(flagged_keys, total_warnings) := st in
  if negb (String.eqb (strftime_Y (valid_date row)) "9999") then
    ret st
  else
    let config_name := config_name row in
    let config_value := config_value row in
    total_warnings <-
      (if dict_contains config_name flagged_keys then
         logger WARNING ("'" ++ config_name ++ "' is duplicated with value '"
                         ++ config_value ++ "' in Configuration table") ;;
         ret (total_warnings + 1)%Z
       else ret total_warnings) ;;
    if takes_key substring_condition config_name then
      ret (dict_set flagged_keys config_name config_value, total_warnings)
    else
      ret (flagged_keys, total_warnings).

Definition analyze_database_config (env : Env) (self : MySQLCompare)
    (substring_condition : string) : M dict :=
  (if truthy substring_condition then
     logger INFO
       ("Getting all active configuration keys from database containing substring '"
        ++ substring_condition ++ "' ...")
   else
     logger INFO "Getting all active configuration keys from database...") ;;
  rows <- lift (fetchall env) ;;
  '(flagged_keys, total_warnings) <-
     for_each rows (analyze_row substring_condition) ([], 0%Z) ;;
  logger INFO ("Returning " ++ str_of_nat (length flagged_keys)
               ++ " keys from database table...") ;;
  add_TOTAL_WARNINGS total_warnings ;;
  ret flagged_keys.

Definition compare_database_to_scripts (self : MySQLCompare)
    (database_keys script_keys : pyval) : M (list Entry) :=
  match compare_loop database_keys script_keys with
  | (_, Some e) => raise e
  | (differences, None) =>
      logger INFO ("Differences Detected: "
                   ++ str_of_nat (length differences)) ;;
      (if is_print_table_diff self then print (Table differences)
       else ret tt) ;;
      ret differences
  end.

Definition notify_warnings (self : MySQLCompare) (additional_warnings : Z)
  : M unit :=
  add_TOTAL_WARNINGS (database_warnings self) ;;
  add_TOTAL_WARNINGS additional_warnings ;;
  total <- get_TOTAL_WARNINGS ;;
  if negb (Z.eqb total 0) then
    logger WARNING ("TOTAL WARNINGS FOUND: " ++ str_of_Z total
                    ++ ". Please review, as duplicates can cause unexpected results!")
  else
    logger INFO "No warnings found.".

Definition main (env : Env) (args : Args) : M unit :=
  announce args ;;
  mysql <- init env args ;;
  database_flagged_keys <-
    analyze_database_config env mysql (arg_contains args) ;;
  logging_line_break ;;
  '(alenza_scripts_flagged_keys, alenza_script_warnings) <-
    analyze_scripts_config env mysql ALENZA_CONFIG_SCRIPTS_RELATIVE
                           (arg_contains args) ;;
  logging_line_break ;;
  '(aicon_scripts_flagged_keys, aicon_script_warnings) <-
    analyze_scripts_config env mysql AICON_CONFIG_SCRIPTS_RELATIVE
                           (arg_contains args) ;;
  let all_scripts_flagged_keys :=
    dict_merge alenza_scripts_flagged_keys aicon_scripts_flagged_keys in
  differences <-
    compare_database_to_scripts mysql (PyDict database_flagged_keys)
                                (PyDict all_scripts_flagged_keys) ;;
  (match differences with
   | _ :: _ => generate_missing_stored_proc_statement mysql differences
   | [] => logger INFO "No flagged keys were detected!"
   end) ;;
  notify_warnings mysql (alenza_script_warnings + aicon_script_warnings)%Z.

End Original.

(** ** configuration_database_compare.py *)

Module Refactored.
Import Common.

Definition connect (env : Env) (self : MySQLCompare) : M unit :=
  logger INFO ("Attempting to connect to MySQL database at " ++ host self
               ++ ":" ++ str_of_Z (port self) ++ "...") ;;
  try_except_when is_OperationalError
    (driver_connect env ;;
     logger INFO "MySQL Connection Status: Connected")
    (fun e =>
       logger ERROR ("MySQL Connection Status: Not Connected. "
                     ++ str_of_exn e) ;;
       raise (SystemExit 1)).

Definition init (env : Env) (args : Args) : M MySQLCompare :=
  let self := attributes args in
  connect env self ;;
  ret self.

Definition close_connection (self : MySQLCompare) : M unit :=
  set_cursor Closed ;;
  logger INFO "Database connection closed.".

Definition fetch_data_from_db (env : Env) (self : MySQLCompare)
  : M (list Row) :=
  try_except
    (lift (fetchall env))
    (fun e =>
       logger ERROR ("Failed to fetch data from the database: "
                     ++ str_of_exn e) ;;
       raise e).

Definition filter_row (substring_condition : string) (filtered_data : dict)
    (row : Row) : dict :=
  if negb (String.eqb (strftime_Y (valid_date row)) "9999") then
    filtered_data
  else
    let config_name := config_name row in
    let config_value := config_value row in
    if takes_key substring_condition config_name then
      dict_set filtered_data config_name config_value
    else filtered_data.

Definition filter_data (self : MySQLCompare) (data : list Row)
    (substring_condition : string) : dict :=
  fold_left (filter_row substring_condition) data [].

Definition check_item (st : dict * Z) (item : string * string)
  : M (dict * Z) :=
  let '(flagged_keys, total_warnings) := st in
  let '(config_name, config_value) := item in
  total_warnings <-
    (if dict_contains config_name flagged_keys then
       logger WARNING ("'" ++ config_name ++ "' is duplicated with value '"
                       ++ config_value ++ "' in Configuration table") ;;
       ret (total_warnings + 1)%Z
     else ret total_warnings) ;;
  ret (dict_set flagged_keys config_name config_value, total_warnings).

Definition check_for_duplicates (self : MySQLCompare) (data : dict)
  : M (dict * Z) :=
  for_each data check_item ([], 0%Z).

(** The loop [analyze_database_config] runs after [check_for_duplicates],
    over the items of [filtered_data] again. *)
Definition recheck_item (substring_condition : string) (st : dict * Z)
    (item : string * string) : M (dict * Z) :=
  let '(flagged_keys, total_warnings) := st in
  let '(config_name, config_value) := item in
  total_warnings <-
    (if dict_contains config_name flagged_keys then
       logger WARNING ("'" ++ config_name ++ "' is duplicated with value '"
                       ++ config_value ++ "' in Configuration table") ;;
       ret (total_warnings + 1)%Z
     else ret total_warnings) ;;
  if takes_key substring_condition config_name then
    ret (dict_set flagged_keys config_name config_value, total_warnings)
  else
    ret (flagged_keys, total_warnings).

(** The second loop stands in a [try] whose handler logs and returns
    [flagged_keys]; its body works on strings and a dictionary only and
    raises nothing, so the handler is not modelled. *)
Definition analyze_database_config (env : Env) (self : MySQLCompare)
    (substring_condition : string) : M dict :=
  logger INFO "Fetching data from database..." ;;
  data <- fetch_data_from_db env self ;;
  logger INFO "Filtering data..." ;;
  let filtered_data := filter_data self data substring_condition in
  st <- check_for_duplicates self filtered_data ;;
  '(flagged_keys, total_warnings) <-
    for_each filtered_data (recheck_item substring_condition) st ;;
  logger INFO ("Returning " ++ str_of_nat (length flagged_keys)
               ++ " keys from database table...") ;;
  add_TOTAL_WARNINGS total_warnings ;;
  ret flagged_keys.

(** The table of differences is built by the table library, which is
    taken to succeed; the comparison loop stands in a [try] whose handler
    logs the exception and goes on with the records found so far. *)
Definition compare_database_to_scripts (self : MySQLCompare)
    (database_keys script_keys : pyval) : M (list Entry) :=
  if negb (is_dict database_keys) || negb (is_dict script_keys) then
    logger ERROR "Input arguments must be dictionaries." ;;
    ret []
  else
    let '(differences, raised) := compare_loop database_keys script_keys in
    (match raised with
     | Some e =>
         if is_Exception e then
           logger ERROR ("Error comparing keys: " ++ str_of_exn e)
         else raise e
     | None => ret tt
     end) ;;
    logger INFO ("Differences Detected: "
                 ++ str_of_nat (length differences)) ;;
    (if is_print_table_diff self then print (Table differences)
     else ret tt) ;;
    ret differences.

(** [additional_warnings] is an integer here, as [main] passes it: the
    conversion [int(additional_warnings)] and the two sums cannot fail, and
    their handlers are not modelled. *)
Definition notify_warnings (self : MySQLCompare) (additional_warnings : Z)
  : M unit :=
  add_TOTAL_WARNINGS (database_warnings self) ;;
  add_TOTAL_WARNINGS additional_warnings ;;
  total <- get_TOTAL_WARNINGS ;;
  if negb (Z.eqb total 0) then
    logger WARNING ("TOTAL WARNINGS FOUND: " ++ str_of_Z total
                    ++ ". Please review, as duplicates can cause unexpected results!")
  else
    logger INFO "No warnings found.".

(** The third [try] of [main]: the three extraction passes. *)
Definition analyze_all (env : Env) (mysql : MySQLCompare) (args : Args)
  : M (dict * dict * Z * Z) :=
  database_flagged_keys <-
    analyze_database_config env mysql (arg_contains args) ;;
  logging_line_break ;;
  '(alenza_scripts_flagged_keys, alenza_script_warnings) <-
    analyze_scripts_config env mysql ALENZA_CONFIG_SCRIPTS_RELATIVE
                           (arg_contains args) ;;
  logging_line_break ;;
  '(aicon_scripts_flagged_keys, aicon_script_warnings) <-
    analyze_scripts_config env mysql AICON_CONFIG_SCRIPTS_RELATIVE
                           (arg_contains args) ;;
  let all_scripts_flagged_keys :=
    dict_merge alenza_scripts_flagged_keys aicon_scripts_flagged_keys in
  ret (database_flagged_keys, all_scripts_flagged_keys,
       alenza_script_warnings, aicon_script_warnings).

(** The fourth [try]: the comparison and the remediation statements. *)
Definition compare_and_generate (mysql : MySQLCompare)
    (database_flagged_keys all_scripts_flagged_keys : dict) : M unit :=
  differences <-
    compare_database_to_scripts mysql (PyDict database_flagged_keys)
                                (PyDict all_scripts_flagged_keys) ;;
  match differences with
  | _ :: _ => generate_missing_stored_proc_statement mysql differences
  | [] => logger INFO "No flagged keys were detected!"
  end.

Definition main (env : Env) (args : Args) : M unit :=
  announced <-
    try_except (announce args ;; ret true)
      (fun e =>
         logger ERROR ("Error during argument logging: " ++ str_of_exn e) ;;
         ret false) ;;
  if negb announced then ret tt else
  created <-
    try_except (mysql <- init env args ;; ret (Some mysql))
      (fun e =>
         logger ERROR ("Error initializing MySQLCompare: " ++ str_of_exn e) ;;
         ret None) ;;
  match created with
  | None => ret tt
  | Some mysql =>
      analyzed <-
        try_except (r <- analyze_all env mysql args ;; ret (Some r))
          (fun e =>
             logger ERROR ("Error analyzing configurations: "
                           ++ str_of_exn e) ;;
             ret None) ;;
      match analyzed with
      | None => ret tt
      | Some (database_flagged_keys, all_scripts_flagged_keys,
              alenza_script_warnings, aicon_script_warnings) =>
          try_except
            (compare_and_generate mysql database_flagged_keys
                                  all_scripts_flagged_keys)
            (fun e =>
               logger ERROR ("Error comparing database to scripts: "
                             ++ str_of_exn e)) ;;
          try_finally
            (try_except
               (notify_warnings mysql
                  (alenza_script_warnings + aicon_script_warnings)%Z)
               (fun e =>
                  logger ERROR ("Error notifying warnings: "
                                ++ str_of_exn e)))
            (close_connection mysql)
      end
  end.

End Refactored.

(** ** Vocabulary of the statements *)

(** The rows the database pass keeps: those dated in year 9999 whose key
    passes the substring filter, as (key, value) observations in row
    order. *)
Definition never_expires (row : Row) : bool :=
  String.eqb (strftime_Y (valid_date row)) "9999".

Definition retained (substring_condition : string) (rows : list Row)
  : list (string * string) :=
  map (fun row => (config_name row, config_value row))
      (filter (fun row => never_expires row
                          && takes_key substring_condition (config_name row))
              rows).

Definition distinct_keys (observations : list (string * string)) : nat :=
  length (nodup string_dec (map fst observations)).

(** The value of the last observation of a key. *)
Fixpoint last_value (observations : list (string * string)) (k : string)
  : option string :=
  match observations with
  | [] => None
  | (k', v) :: rest =>
      match last_value rest k with
      | Some v' => Some v'
      | None => if String.eqb k' k then Some v else None
      end
  end.

(** The same collaborators, with other rows in the table. *)
Definition with_rows (env : Env) (rows : list Row) : Env :=
  {| connect_error := connect_error env;
     fetchall := Ok rows;
     rglob := rglob env;
     PROJECT_ROOT := PROJECT_ROOT env;
     OPERATING_SYSTEM := OPERATING_SYSTEM env |}.

(** Whether the first loop of [analyze_scripts_config] keeps a file. *)
Definition is_selected (env : Env) (self : MySQLCompare) (file : ScriptFile)
  : bool :=
  if str_in (Common.normpath (OPERATING_SYSTEM env)
                             Common.CLIENT_SPECIFIC_DIRECTORY) (path file)
  then Common.keyword_given self && Common.keyword_in self (path file)
  else true.

Definition is_missing (e : Entry) : bool :=
  String.eqb (difference_type e) "MISSING".

Definition is_change (e : Entry) : bool :=
  String.eqb (difference_type e) "CHANGE".

(** A string with its quote characters taken out, as the parser does
    before it cuts at the commas. *)
Definition unquote (s : string) : string :=
  remove_char squote (remove_char dquote s).

(** The exception [l[i]] raises past the end of a list. *)
Definition OUT_OF_RANGE : exn := IndexError "list index out of range".

(** Two worlds that differ at most in the log. *)
Definition same_but_log (w w' : World) : Prop :=
  stdout w' = stdout w /\ cursor w' = cursor w /\
  TOTAL_WARNINGS w' = TOTAL_WARNINGS w.

(** ** Sample inputs *)

Definition sample_args : Args :=
  {| arg_host := "localhost";
     arg_port := 3306;
     arg_database := "configdb";
     arg_user := "reader";
     arg_passwd := "secret";
     arg_comparison_direction := "scripts";
     arg_contains := "";
     arg_client_keyword := None;
     arg_print_stored_procs := false;
     arg_print_table := false;
     arg_max_table_width := 300;
     arg_repr := "Namespace(...)" |}.

(** The object [main] builds from [sample_args]: nothing is printed. *)
Definition quiet : MySQLCompare := Common.attributes sample_args.

(** The date MySQL holds for a row that never expires, and a date
    passed. *)
Definition NEVER : date := mkDate 9999 12 31.
Definition EXPIRED : date := mkDate 2020 1 1.

(** A reachable database that returns [rows], on a POSIX system with no
    script on disk. *)
Definition database_of (rows : list Row) : Env :=
  {| connect_error := None;
     fetchall := Ok rows;
     rglob := fun _ => [];
     PROJECT_ROOT := "/repo";
     OPERATING_SYSTEM := "posix" |}.

(** A reachable database whose query fails. *)
Definition failing_query : Env :=
  {| connect_error := None;
     fetchall := Raise (OperationalError "(2013, 'Lost connection to MySQL server during query')");
     rglob := fun _ => [];
     PROJECT_ROOT := "/repo";
     OPERATING_SYSTEM := "posix" |}.

(** A script directory with one file, whose only statement has a single
    argument. *)
Definition short_statement : string := "CALL SP_CREATE_CONFIG_FIELD('k');".

Definition one_bad_script : Env :=
  {| connect_error := None;
     fetchall := Ok [];
     rglob := fun _ =>
       [ {| path := "/repo/alenza/config/inserts/001.sql";
            lines := [short_statement] |} ];
     PROJECT_ROOT := "/repo";
     OPERATING_SYSTEM := "posix" |}.

(** A script directory with one file that sets key A twice. *)
Definition key_set_twice : Env :=
  {| connect_error := None;
     fetchall := Ok [];
     rglob := fun _ =>
       [ {| path := "/repo/alenza/config/inserts/001.sql";
            lines := [ "CALL SP_CREATE_CONFIG_FIELD('A', '1', null);";
                       "-- a comment";
                       "CALL SP_CREATE_CONFIG_FIELD('A', '2', null);" ] |} ];
     PROJECT_ROOT := "/repo";
     OPERATING_SYSTEM := "posix" |}.

(** The two mappings of the end-to-end scenario. *)
Definition scenario_database : dict := [("A", "1"); ("B", "2")].
Definition scenario_scripts : dict := [("A", "1"); ("B", "3"); ("C", "4")].

(** What the reconciler says of one key: a change between two values, or
    a key the database misses. *)
Definition is_difference (database_keys script_keys : dict) (e : Entry)
  : Prop :=
  (difference_type e = "CHANGE"
   /\ dict_get database_keys (entry_name e) = Some (value_database e)
   /\ dict_get script_keys (entry_name e) = Some (value_script e)
   /\ value_script e <> value_database e)
  \/
  (difference_type e = "MISSING"
   /\ dict_get database_keys (entry_name e) = None
   /\ value_database e = "N/A"
   /\ dict_get script_keys (entry_name e) = Some (value_script e)).

(** The statement the generator builds for a record: with the script
    value when the direction is [scripts], else with the database value. *)
Definition statement_for (direction : string) (e : Entry) : string :=
  Common.call_statement
    (entry_name e)
    (if String.eqb direction "scripts" then value_script e
     else value_database e).

(** What is printed before the statements for missing keys, and between
    them and the statements for changed keys. *)
Definition preamble : list output :=
  [ Common.blank_lines;
    Line "Generating procedure calls ...";
    Line "**Printing to make copy-paste-able";
    Common.separator ].

Definition interlude : list output :=
  [ Common.separator;
    Common.blank_lines;
    Line "STORED PROCEDURES FOR KEYS WITH DIFFERENT VALUES:" ].

(** An object that prints the remediation statements, in a given
    direction. *)
Definition printing (direction : string) : MySQLCompare :=
  {| host := "localhost";
     port := 3306;
     database := "configdb";
     user := "reader";
     password := "secret";
     max_table_width := 300;
     is_print_table_diff := false;
     is_print_stored_procs := true;
     client_specific_keyword := None;
     comparison_direction := direction;
     database_warnings := 0 |}.

(** A method that leaves the connection as it found it, and a method
    that raises nothing but [Exception]s. *)
Definition keeps_cursor {A : Type} (m : M A) : Prop :=
  forall w, cursor (snd (m w)) = cursor w.

Definition raises_exceptions {A : Type} (m : M A) : Prop :=
  forall w e, fst (m w) = Raise e -> is_Exception e = true.

(** What a method returned and the world it left. *)
Definition value {A : Type} (r : result A * World) : result A := fst r.
Definition world {A : Type} (r : result A * World) : World := snd r.

(** ** Vocabulary of the further properties *)

(** The same collaborators, with other [.sql] files on disk. *)
Definition with_files (env : Env) (files : list ScriptFile) : Env :=
  {| connect_error := connect_error env;
     fetchall := fetchall env;
     rglob := fun _ => files;
     PROJECT_ROOT := PROJECT_ROOT env;
     OPERATING_SYSTEM := OPERATING_SYSTEM env |}.

(** The lines a script pass reads: those of the files it keeps, file after
    file. *)
Definition lines_read (env : Env) (self : MySQLCompare)
    (files : list ScriptFile) : list string :=
  concat (map lines (filter (is_selected env self) files)).

(** The (key, value) pairs the statement lines give, in order; a statement
    line that does not parse ends the reading. *)
Fixpoint statements_of (lines : list string)
  : result (list (string * string)) :=
  match lines with
  | [] => Ok []
  | line :: rest =>
      if Common.is_statement_line line then
        match Common.parse_stored_proc_statement line with
        | Raise e => Raise e
        | Ok kv =>
            match statements_of rest with
            | Ok observations => Ok (kv :: observations)
            | Raise e => Raise e
            end
        end
      else statements_of rest
  end.

(** The observations whose key passes the substring filter. *)
Definition retained_pairs (substring_condition : string)
    (observations : list (string * string)) : list (string * string) :=
  filter (fun kv => takes_key substring_condition (fst kv)) observations.

(** What one observation does to the mapping and to the count of
    duplicates, in the script pass as in the original database pass. *)
Definition observe (substring_condition : string) (st : dict * Z)
    (kv : string * string) : dict * Z :=
  (if takes_key substring_condition (fst kv)
   then dict_set (fst st) (fst kv) (snd kv) else fst st,
   if dict_contains (fst kv) (fst st) then (snd st + 1)%Z else snd st).

(** Whether the reconciler has something to say of a key of the scripts:
    the database misses it, or holds another value. *)
Definition differs (database_keys script_keys : dict) (k : string) : bool :=
  match dict_get database_keys k with
  | None => true
  | Some database_value =>
      match dict_get script_keys k with
      | Some script_value => negb (String.eqb script_value database_value)
      | None => false
      end
  end.

(** A method that leaves one component of the world as it found it. *)
Definition preserves {X A : Type} (component : World -> X) (m : M A) : Prop :=
  forall w, component (snd (m w)) = component w.

(** A script directory with one file, whose only statement has no
    parenthesis. *)
Definition bare_call : Env :=
  {| connect_error := None;
     fetchall := Ok [];
     rglob := fun _ =>
       [ {| path := "/repo/alenza/config/inserts/001.sql";
            lines := ["CALL SP_REFRESH;"] |} ];
     PROJECT_ROOT := "/repo";
     OPERATING_SYSTEM := "posix" |}.

(** Running the monad's own operations; strings are left folded. *)
Ltac run :=
  cbv beta iota delta
    [bind ret lift raise logger print set_cursor add_TOTAL_WARNINGS
     get_TOTAL_WARNINGS try_except try_except_when try_finally
     Common.logging_line_break value world fst snd];
  cbn [log stdout cursor TOTAL_WARNINGS].

Tactic Notation "run" "in" hyp(H) :=
  cbv beta iota delta
    [bind ret lift raise logger print set_cursor add_TOTAL_WARNINGS
     get_TOTAL_WARNINGS try_except try_except_when try_finally
     Common.logging_line_break value world fst snd] in H;
  cbn [log stdout cursor TOTAL_WARNINGS] in H.

(** ** Strings *)

Section Strings.

Variable c : ascii.

Lemma has_char_app (a b : string) :
  has_char c (a ++ b) = has_char c a || has_char c b.
Proof.
  induction a as [|x a IH]; simpl.
  - reflexivity.
  - rewrite IH. now rewrite orb_assoc.
Qed.

Lemma split_nonempty (s : string) : split c s <> [].
Proof.
  destruct s as [|x s]; simpl.
  - discriminate.
  - destruct (Ascii.eqb x c); [discriminate|].
    destruct (split c s); discriminate.
Qed.

Lemma split_without (s : string) :
  has_char c s = false -> split c s = [s].
Proof.
  induction s as [|x s IH]; simpl; intros H.
  - reflexivity.
  - apply orb_false_iff in H as [Hx Hs].
    rewrite Hx, (IH Hs). reflexivity.
Qed.

Lemma split_at_first (a b : string) :
  has_char c a = false -> split c (a ++ String c b) = a :: split c b.
Proof.
  induction a as [|x a IH]; simpl; intros H.
  - now rewrite Ascii.eqb_refl.
  - apply orb_false_iff in H as [Hx Ha].
    rewrite Hx, (IH Ha). reflexivity.
Qed.

Lemma split_short (s : string) :
  (length (split c s) < 2)%nat -> has_char c s = false.
Proof.
  induction s as [|x s IH]; simpl; intros H.
  - reflexivity.
  - destruct (Ascii.eqb x c) eqn:Hx; simpl in *.
    + pose proof (split_nonempty s) as Hne.
      destruct (split c s); [congruence | simpl in H; lia].
    + apply IH. destruct (split c s); simpl in *; lia.
Qed.

Lemma split1_without (s : string) :
  has_char c s = false -> split1 c s = [s].
Proof.
  induction s as [|x s IH]; simpl; intros H.
  - reflexivity.
  - apply orb_false_iff in H as [Hx Hs].
    rewrite Hx, (IH Hs). reflexivity.
Qed.

Lemma split1_at_first (a b : string) :
  has_char c a = false -> split1 c (a ++ String c b) = [a; b].
Proof.
  induction a as [|x a IH]; simpl; intros H.
  - now rewrite Ascii.eqb_refl.
  - apply orb_false_iff in H as [Hx Ha].
    rewrite Hx, (IH Ha). reflexivity.
Qed.

Lemma remove_char_app (a b : string) :
  remove_char c (a ++ b) = (remove_char c a ++ remove_char c b)%string.
Proof.
  induction a as [|x a IH]; simpl.
  - reflexivity.
  - destruct (Ascii.eqb x c); simpl; now rewrite IH.
Qed.

Lemma has_char_remove_other (d : ascii) (s : string) :
  Ascii.eqb d c = false ->
  has_char d (remove_char c s) = has_char d s.
Proof.
  intros Hdc. induction s as [|x s IH]; simpl.
  - reflexivity.
  - destruct (Ascii.eqb x c) eqn:Hx; simpl.
    + apply Ascii.eqb_eq in Hx. subst x.
      rewrite Ascii.eqb_sym, Hdc. simpl. exact IH.
    + now rewrite IH.
Qed.

End Strings.

Lemma unquote_app (a b : string) :
  unquote (a ++ b) = (unquote a ++ unquote b)%string.
Proof. unfold unquote. now rewrite !remove_char_app. Qed.

Lemma has_comma_unquote (s : string) :
  has_char comma (unquote s) = has_char comma s.
Proof.
  unfold unquote.
  rewrite has_char_remove_other by reflexivity.
  now rewrite has_char_remove_other by reflexivity.
Qed.

Lemma unquote_comma (s : string) :
  unquote (String comma s) = String comma (unquote s).
Proof. reflexivity. Qed.

Lemma append_assoc (a b d : string) :
  ((a ++ b) ++ d)%string = (a ++ (b ++ d))%string.
Proof.
  induction a as [|x a IH]; simpl; [reflexivity | now rewrite IH].
Qed.

(** ** The statement parser *)

Lemma parse_raises_only (statement : string) (e : exn) :
  Common.parse_stored_proc_statement statement = Raise e -> e = OUT_OF_RANGE.
Proof.
  unfold Common.parse_stored_proc_statement, index.
  repeat match goal with
         | |- context [nth_error ?l ?n] => destruct (nth_error l n)
         end; intros H; inversion H; reflexivity.
Qed.

Lemma parse_after_paren (pre rest : string) :
  has_char lparen pre = false ->
  Common.parse_stored_proc_statement (pre ++ String lparen rest)
  = match index (split comma (unquote rest)) 0 with
    | Raise e => Raise e
    | Ok field0 =>
        match index (split comma (unquote rest)) 1 with
        | Raise e => Raise e
        | Ok field1 => Ok (strip field0, strip field1)
        end
    end.
Proof.
  intros Hpre. unfold Common.parse_stored_proc_statement.
  rewrite (split1_at_first lparen pre rest Hpre). reflexivity.
Qed.

Lemma parse_without_comma (pre rest : string) :
  has_char lparen pre = false ->
  (length (split comma rest) < 2)%nat ->
  Common.parse_stored_proc_statement (pre ++ String lparen rest)
  = Raise OUT_OF_RANGE.
Proof.
  intros Hpre Hshort.
  rewrite (parse_after_paren pre rest Hpre).
  apply split_short in Hshort.
  rewrite <- has_comma_unquote in Hshort.
  rewrite (split_without comma _ Hshort). reflexivity.
Qed.

Lemma parse_without_paren (statement : string) :
  has_char lparen statement = false ->
  Common.parse_stored_proc_statement statement = Raise OUT_OF_RANGE.
Proof.
  intros H. unfold Common.parse_stored_proc_statement.
  now rewrite (split1_without lparen statement H).
Qed.

(** C10. When the value field of a statement still holds a comma once the
    quotes are taken out, the parser returns as value only what stands
    before that comma (stripped), whatever follows; the key is the first
    comma-separated field after the first opening parenthesis (unquoted and
    stripped). *)
Theorem C10_value_cut_at_first_comma :
  forall pre key_field value_field rest v1 v2 : string,
    has_char lparen pre = false ->
    has_char comma key_field = false ->
    unquote value_field = (v1 ++ String comma v2)%string ->
    has_char comma v1 = false ->
    Common.parse_stored_proc_statement
      (pre ++ String lparen (key_field ++ String comma (value_field ++ rest)))
    = Ok (strip (unquote key_field), strip v1).
Proof.
  intros pre key_field value_field rest v1 v2 Hpre Hkey Hvalue Hv1.
  rewrite (parse_after_paren _ _ Hpre).
  rewrite unquote_app, unquote_comma, unquote_app, Hvalue.
  rewrite append_assoc. simpl.
  rewrite split_at_first by (now rewrite has_comma_unquote).
  rewrite (split_at_first comma v1 _ Hv1).
  reflexivity.
Qed.

(** The statement [CALL SP_CREATE_CONFIG_FIELD('k', 'a,b', null);] gives
    the value [a]. *)
Lemma C10_value_cut_at_first_comma_witness :
  Common.parse_stored_proc_statement
    "CALL SP_CREATE_CONFIG_FIELD('k', 'a,b', null);"
  = Ok ("k", "a").
Proof.
  exact (C10_value_cut_at_first_comma
           "CALL SP_CREATE_CONFIG_FIELD" "'k'" " 'a,b'" ", null);" " a" "b"
           eq_refl eq_refl eq_refl eq_refl).
Defined.

(** ** The script-source extractor *)

Lemma scan_line_skips (substring_condition line : string) (st : Common.ScanState)
    (w : World) :
  Common.is_statement_line line = false ->
  Common.scan_line substring_condition st line w = (Ok st, w).
Proof.
  unfold Common.is_statement_line, Common.scan_line. intros H.
  apply negb_false_iff in H. rewrite H. reflexivity.
Qed.

Lemma scan_line_statement (substring_condition line : string)
    (st : Common.ScanState) (w : World) :
  Common.is_statement_line line = true ->
  match Common.parse_stored_proc_statement line with
  | Raise e => Common.scan_line substring_condition st line w = (Raise e, w)
  | Ok _ => exists st' w',
      Common.scan_line substring_condition st line w = (Ok st', w')
  end.
Proof.
  unfold Common.is_statement_line, Common.scan_line. intros H.
  apply negb_true_iff in H. rewrite H.
  run.
  destruct (Common.parse_stored_proc_statement line) as [[k v]|e];
    [|reflexivity].
  destruct (dict_contains k (Common.flagged_keys st));
    destruct (takes_key substring_condition k); eauto.
Qed.

Lemma scan_lines_fatal (substring_condition : string) (lines : list string) :
  (exists line, In line lines /\ Common.is_statement_line line = true /\
                Common.parse_stored_proc_statement line = Raise OUT_OF_RANGE) ->
  forall st w,
    value (for_each lines (Common.scan_line substring_condition) st w)
    = Raise OUT_OF_RANGE.
Proof.
  induction lines as [|l lines IH]; intros (line & Hin & Hstmt & Hparse) st w.
  - destruct Hin.
  - simpl. unfold bind at 1.
    destruct (Common.is_statement_line l) eqn:Hl.
    + pose proof (scan_line_statement substring_condition l st w Hl) as Hs.
      destruct (Common.parse_stored_proc_statement l) as [kv|e] eqn:Hp.
      * destruct Hs as (st' & w' & ->).
        apply IH. destruct Hin as [->|Hin]; [congruence|].
        exists line. auto.
      * rewrite Hs. apply parse_raises_only in Hp. now subst e.
    + rewrite (scan_line_skips _ _ _ _ Hl).
      apply IH. destruct Hin as [->|Hin]; [congruence|].
      exists line. auto.
Qed.

Lemma scan_file_fatal (substring_condition : string) (file : ScriptFile) :
  (exists line, In line (lines file) /\
                Common.is_statement_line line = true /\
                Common.parse_stored_proc_statement line = Raise OUT_OF_RANGE) ->
  forall st w,
    value (Common.scan_file substring_condition st file w)
    = Raise OUT_OF_RANGE.
Proof.
  intros Hbad st w. unfold Common.scan_file. run.
  match goal with
  | |- context [for_each (lines file) ?f ?s ?w0] =>
      pose proof (scan_lines_fatal substring_condition (lines file) Hbad s w0)
        as H;
      destruct (for_each (lines file) f s w0) as [[st'|e] w']
  end; run in H; [discriminate | now inversion H].
Qed.

(** Whatever the extractor raises is the parser's [IndexError]. *)
Lemma scan_lines_raise_only (substring_condition : string)
    (lines : list string) :
  forall st w e w',
    for_each lines (Common.scan_line substring_condition) st w = (Raise e, w')
    -> e = OUT_OF_RANGE.
Proof.
  induction lines as [|l lines IH]; intros st w e w' H.
  - discriminate.
  - simpl in H. unfold bind at 1 in H.
    destruct (Common.is_statement_line l) eqn:Hl.
    + pose proof (scan_line_statement substring_condition l st w Hl) as Hs.
      destruct (Common.parse_stored_proc_statement l) as [kv|e0] eqn:Hp.
      * destruct Hs as (st1 & w1 & Hs). rewrite Hs in H. eauto.
      * rewrite Hs in H. inversion H; subst.
        now apply parse_raises_only in Hp.
    + rewrite (scan_line_skips _ _ _ _ Hl) in H. eauto.
Qed.

Lemma scan_file_raise_only (substring_condition : string) (file : ScriptFile) :
  forall st w e w',
    Common.scan_file substring_condition st file w = (Raise e, w') ->
    e = OUT_OF_RANGE.
Proof.
  intros st w e w'. unfold Common.scan_file. run.
  match goal with
  | |- context [for_each (lines file) ?f ?s ?w0] =>
      pose proof (scan_lines_raise_only substring_condition (lines file) s w0)
        as H;
      destruct (for_each (lines file) f s w0) as [[st'|e0] w0']
  end; intros Heq; inversion Heq; subst. eauto.
Qed.

Lemma scan_files_fatal (substring_condition : string)
    (files : list ScriptFile) :
  (exists file line,
      In file files /\ In line (lines file) /\
      Common.is_statement_line line = true /\
      Common.parse_stored_proc_statement line = Raise OUT_OF_RANGE) ->
  forall st w,
    value (for_each files (Common.scan_file substring_condition) st w)
    = Raise OUT_OF_RANGE.
Proof.
  induction files as [|f files IH];
    intros (file & line & Hfile & Hline & Hstmt & Hparse) st w.
  - destruct Hfile.
  - simpl. unfold bind at 1.
    destruct (Common.scan_file substring_condition st f w) as [[st'|e] w']
      eqn:Hf.
    + apply IH. destruct Hfile as [->|Hfile].
      * pose proof (scan_file_fatal substring_condition file
                      (ex_intro _ line (conj Hline (conj Hstmt Hparse))) st w)
          as Hbad.
        rewrite Hf in Hbad. discriminate.
      * exists file, line. auto.
    + apply scan_file_raise_only in Hf. now subst e.
Qed.

Lemma select_scripts_filter (env : Env) (self : MySQLCompare)
    (files : list ScriptFile) :
  forall acc w, exists w',
    for_each files (Common.select_script env self) acc w
    = (Ok (acc ++ filter (is_selected env self) files), w').
Proof.
  induction files as [|f files IH]; intros acc w.
  - exists w. simpl. now rewrite app_nil_r.
  - cbn [for_each filter]. unfold bind at 1.
    unfold Common.select_script at 1.
    destruct (is_selected env self f) eqn:Hsel; unfold is_selected in Hsel;
      destruct (str_in _ (path f));
      destruct (Common.keyword_given self);
      destruct (Common.keyword_in self (path f));
      try discriminate; cbn [andb negb]; run;
      match goal with
      | |- context [for_each files _ ?a ?w0] =>
          destruct (IH a w0) as (w' & Hw); rewrite Hw
      end; exists w'; now rewrite <- ?app_assoc.
Qed.

(** C7. A statement line whose text after the first opening parenthesis
    has fewer than two comma-separated fields makes the parser raise
    [IndexError], and the script-source extractor that reads the line
    raises it too: the pass returns no mapping. *)
Theorem C7_malformed_statement_is_fatal :
  forall (env : Env) (self : MySQLCompare)
         (scripts_dir substring_condition : string)
         (file : ScriptFile) (line pre rest : string) (w : World),
    In file (rglob env (Common.files_directory_of env scripts_dir)) ->
    is_selected env self file = true ->
    In line (lines file) ->
    Common.is_statement_line line = true ->
    line = (pre ++ String lparen rest)%string ->
    has_char lparen pre = false ->
    (length (split comma rest) < 2)%nat ->
    Common.parse_stored_proc_statement line = Raise OUT_OF_RANGE /\
    value (Common.analyze_scripts_config env self scripts_dir
                                         substring_condition w)
    = Raise OUT_OF_RANGE.
Proof.
  intros env self scripts_dir substring_condition file line pre rest w
         Hfile Hsel Hline Hstmt -> Hpre Hshort.
  pose proof (parse_without_comma pre rest Hpre Hshort) as Hparse.
  split; [exact Hparse|].
  unfold Common.analyze_scripts_config. run.
  match goal with
  | |- context [for_each ?fs (Common.select_script env self) [] ?w0] =>
      destruct (select_scripts_filter env self fs [] w0) as (w1 & Hsel1);
      rewrite Hsel1
  end.
  cbn [app].
  match goal with
  | |- context [for_each ?fs (Common.scan_file _) ?s ?w0] =>
      assert (Hbad : value (for_each fs (Common.scan_file substring_condition)
                                     s w0) = Raise OUT_OF_RANGE)
  end.
  { apply scan_files_fatal. exists file, (pre ++ String lparen rest)%string.
    split; [|auto]. apply filter_In. auto. }
  match goal with
  | |- context [for_each ?fs (Common.scan_file _) ?s ?w0] =>
      destruct (for_each fs (Common.scan_file substring_condition) s w0)
        as [[st|e] w2]
  end; run in Hbad; [discriminate | now inversion Hbad].
Qed.

(** The extractor on the script with one short statement. *)
Lemma C7_malformed_statement_is_fatal_witness :
  Common.parse_stored_proc_statement short_statement = Raise OUT_OF_RANGE
  /\ value (Common.analyze_scripts_config
              one_bad_script quiet Common.ALENZA_CONFIG_SCRIPTS_RELATIVE ""
              initial_world)
     = Raise OUT_OF_RANGE.
Proof.
  apply (C7_malformed_statement_is_fatal
           one_bad_script quiet Common.ALENZA_CONFIG_SCRIPTS_RELATIVE ""
           {| path := "/repo/alenza/config/inserts/001.sql";
              lines := [short_statement] |}
           short_statement "CALL SP_CREATE_CONFIG_FIELD" "'k');"
           initial_world).
  - simpl. left. reflexivity.
  - reflexivity.
  - simpl. left. reflexivity.
  - reflexivity.
  - reflexivity.
  - reflexivity.
  - simpl. lia.
Defined.

(** ** Dictionaries *)

Lemma dict_contains_In (k : string) (d : dict) :
  dict_contains k d = true <-> In k (dict_keys d).
Proof.
  unfold dict_contains. induction d as [|[k' v'] d IH]; simpl.
  - split; [discriminate | tauto].
  - destruct (String.eqb_spec k' k) as [->|Hne].
    + split; auto.
    + rewrite IH. split; [auto | intros [H|H]; [congruence | exact H]].
Qed.

Lemma dict_contains_false (k : string) (d : dict) :
  dict_contains k d = false <-> ~ In k (dict_keys d).
Proof.
  rewrite <- dict_contains_In. destruct (dict_contains k d); split;
    congruence.
Qed.

Lemma dict_get_set_same (d : dict) (k v : string) :
  dict_get (dict_set d k v) k = Some v.
Proof.
  induction d as [|[k' v'] d IH]; simpl.
  - now rewrite String.eqb_refl.
  - destruct (String.eqb k' k) eqn:E; simpl; now rewrite E.
Qed.

Lemma dict_get_set_other (d : dict) (k v k0 : string) :
  k <> k0 -> dict_get (dict_set d k v) k0 = dict_get d k0.
Proof.
  intros Hne. induction d as [|[k' v'] d IH]; simpl.
  - destruct (String.eqb_spec k k0); [congruence | reflexivity].
  - destruct (String.eqb_spec k' k) as [->|Hk]; simpl.
    + destruct (String.eqb_spec k k0); [congruence | reflexivity].
    + now rewrite IH.
Qed.

Lemma dict_set_new (d : dict) (k v : string) :
  dict_contains k d = false -> dict_set d k v = d ++ [(k, v)].
Proof.
  unfold dict_contains. induction d as [|[k' v'] d IH]; simpl; intros H.
  - reflexivity.
  - destruct (String.eqb k' k); [discriminate|]. now rewrite IH.
Qed.

Lemma dict_set_same_value (d : dict) (k v : string) :
  dict_get d k = Some v -> dict_set d k v = d.
Proof.
  induction d as [|[k' v'] d IH]; simpl; intros H.
  - discriminate.
  - destruct (String.eqb k' k); [congruence|]. now rewrite IH.
Qed.

Lemma dict_keys_set (d : dict) (k v : string) :
  dict_keys (dict_set d k v)
  = if dict_contains k d then dict_keys d else dict_keys d ++ [k].
Proof.
  unfold dict_contains. induction d as [|[k' v'] d IH]; simpl.
  - reflexivity.
  - destruct (String.eqb k' k); simpl; [reflexivity|].
    rewrite IH. now destruct (dict_get d k).
Qed.

Lemma dict_set_length (d : dict) (k v : string) :
  length (dict_set d k v)
  = if dict_contains k d then length d else S (length d).
Proof.
  rewrite <- !(length_map fst). fold (dict_keys (dict_set d k v)).
  fold (dict_keys d). rewrite dict_keys_set.
  destruct (dict_contains k d); [reflexivity|].
  rewrite length_app. simpl. lia.
Qed.

Lemma dict_set_NoDup (d : dict) (k v : string) :
  NoDup (dict_keys d) -> NoDup (dict_keys (dict_set d k v)).
Proof.
  intros Hd. rewrite dict_keys_set.
  destruct (dict_contains k d) eqn:Hk; [exact Hd|].
  apply dict_contains_false in Hk.
  apply NoDup_app; [exact Hd | repeat constructor; auto |].
  intros x Hx [<-|[]]. contradiction.
Qed.

Lemma dict_get_In (d : dict) (k v : string) :
  NoDup (dict_keys d) -> In (k, v) d -> dict_get d k = Some v.
Proof.
  induction d as [|[k' v'] d IH]; simpl; intros Hnd Hin.
  - destruct Hin.
  - inversion Hnd as [|? ? Hnotin Hnd']; subst.
    destruct Hin as [Heq|Hin].
    + inversion Heq; subst. now rewrite String.eqb_refl.
    + destruct (String.eqb_spec k' k) as [->|Hne]; [|auto].
      exfalso. apply Hnotin. apply (in_map fst) in Hin. exact Hin.
Qed.

Lemma dict_get_Some_In (d : dict) (k v : string) :
  dict_get d k = Some v -> In (k, v) d.
Proof.
  induction d as [|[k' v'] d IH]; simpl; intros H.
  - discriminate.
  - destruct (String.eqb_spec k' k) as [->|Hne].
    + inversion H. auto.
    + auto.
Qed.

(** ** The validity date *)

Lemma strftime_Y_9999 (d : date) :
  strftime_Y d = "9999" <-> year d = 9999%N.
Proof.
  unfold strftime_Y, str_of_N. split; intros H.
  - apply (f_equal NilEmpty.uint_of_string) in H.
    rewrite NilEmpty.usu in H. inversion H as [Hd].
    apply (f_equal N.of_uint) in Hd.
    now rewrite DecimalN.Unsigned.of_to in Hd.
  - now rewrite H.
Qed.

Lemma never_expires_year (row : Row) :
  never_expires row = true <-> year (valid_date row) = 9999%N.
Proof.
  unfold never_expires. rewrite String.eqb_eq. apply strftime_Y_9999.
Qed.

(** ** The database pass *)

Lemma same_but_log_refl (w : World) : same_but_log w w.
Proof. repeat split. Qed.

Lemma same_but_log_trans (w1 w2 w3 : World) :
  same_but_log w1 w2 -> same_but_log w2 w3 -> same_but_log w1 w3.
Proof.
  unfold same_but_log. intros (A & B & C) (D & E & F).
  repeat split; congruence.
Qed.

Lemma same_but_log_logger (lvl : level) (msg : string) (w : World) :
  same_but_log w (world (logger lvl msg w)).
Proof. repeat split. Qed.

Create HintDb world.
#[local] Hint Resolve same_but_log_refl same_but_log_logger : world.

Section DatabasePass.

Variable substring_condition : string.

Let keep := Refactored.filter_row substring_condition.

(** The mapping both variants build: rows folded into a dictionary. *)
Lemma filter_row_skips (d : dict) (row : Row) :
  never_expires row = false -> keep d row = d.
Proof.
  unfold keep, Refactored.filter_row, never_expires. now intros ->.
Qed.

Lemma filter_rows_NoDup (rows : list Row) :
  forall d, NoDup (dict_keys d) -> NoDup (dict_keys (fold_left keep rows d)).
Proof.
  induction rows as [|r rows IH]; intros d Hd; simpl; [exact Hd|].
  apply IH. unfold keep, Refactored.filter_row.
  destruct (negb _); [exact Hd|].
  destruct (takes_key _ _); [now apply dict_set_NoDup | exact Hd].
Qed.

Lemma filter_rows_last_value (rows : list Row) :
  forall d k,
    dict_get (fold_left keep rows d) k
    = match last_value (retained substring_condition rows) k with
      | Some v => Some v
      | None => dict_get d k
      end.
Proof.
  unfold retained.
  induction rows as [|r rows IH]; intros d k; simpl; [reflexivity|].
  rewrite IH. unfold keep, Refactored.filter_row.
  fold (never_expires r).
  destruct (never_expires r); simpl; [|reflexivity].
  destruct (takes_key substring_condition (config_name r)); simpl;
    [|reflexivity].
  destruct (last_value _ k); [reflexivity|].
  destruct (String.eqb_spec (config_name r) k) as [->|Hne].
  - apply dict_get_set_same.
  - now apply dict_get_set_other.
Qed.

Lemma filter_rows_keys (rows : list Row) :
  forall d k,
    In k (dict_keys (fold_left keep rows d))
    <-> In k (dict_keys d)
        \/ In k (map fst (retained substring_condition rows)).
Proof.
  unfold retained.
  induction rows as [|r rows IH]; intros d k; simpl; [tauto|].
  rewrite IH. unfold keep, Refactored.filter_row.
  fold (never_expires r).
  destruct (never_expires r); simpl; [|tauto].
  destruct (takes_key substring_condition (config_name r)); simpl; [|tauto].
  rewrite dict_keys_set.
  destruct (dict_contains (config_name r) d) eqn:Hc.
  - apply dict_contains_In in Hc.
    split; [tauto | intros [H|[<-|H]]; auto].
  - rewrite in_app_iff. simpl. tauto.
Qed.

Lemma filter_rows_distinct (rows : list Row) :
  length (fold_left keep rows [])
  = distinct_keys (retained substring_condition rows).
Proof.
  unfold distinct_keys.
  rewrite <- (length_map fst (fold_left keep rows [])).
  apply Permutation_length, NoDup_Permutation.
  - apply (filter_rows_NoDup rows []). constructor.
  - apply NoDup_nodup.
  - intros k. rewrite nodup_In.
    pose proof (filter_rows_keys rows [] k) as H. simpl in H.
    unfold dict_keys in H. tauto.
Qed.

End DatabasePass.

Lemma retained_cons (substring_condition : string) (r : Row)
    (rows : list Row) :
  retained substring_condition (r :: rows)
  = if never_expires r && takes_key substring_condition (config_name r)
    then (config_name r, config_value r) :: retained substring_condition rows
    else retained substring_condition rows.
Proof.
  unfold retained. simpl.
  now destruct (never_expires r && takes_key substring_condition (config_name r)).
Qed.

Lemma loop_result_eq {A : Type} (a : A) (x y : Z) (w : World) :
  x = y -> (Ok (a, x), w) = (Ok (a, y), w).
Proof. now intros ->. Qed.

(** The loop of the original [analyze_database_config]: the mapping it
    builds and the duplicates it counts, from any loop state whose keys
    all pass the filter. *)
Lemma original_rows_loop (substring_condition : string) (rows : list Row) :
  forall d n w,
    (forall k, In k (dict_keys d) -> takes_key substring_condition k = true) ->
    exists w',
      for_each rows (Original.analyze_row substring_condition) (d, n) w
      = (Ok (fold_left (Refactored.filter_row substring_condition) rows d,
             (n + Z.of_nat (length (retained substring_condition rows))
              - (Z.of_nat (length (fold_left
                                     (Refactored.filter_row substring_condition)
                                     rows d))
                 - Z.of_nat (length d)))%Z),
         w')
      /\ same_but_log w w'.
Proof.
  induction rows as [|r rows IH]; intros d n w Hd.
  - exists w. split; [|auto with world].
    simpl. unfold ret. apply loop_result_eq. lia.
  - cbn [for_each fold_left]. unfold bind at 1.
    unfold Original.analyze_row at 1, Refactored.filter_row at 2 4.
    rewrite retained_cons.
    fold (never_expires r).
    destruct (never_expires r); cbn [negb andb].
    + destruct (dict_contains (config_name r) d) eqn:Hc.
      * assert (Ht : takes_key substring_condition (config_name r) = true)
          by (apply Hd; now apply dict_contains_In).
        rewrite Ht. run.
        match goal with
        | |- context [for_each rows _ (?d1, ?n1) ?w1] =>
            destruct (IH d1 n1 w1) as (w' & Hrun & Hw)
        end.
        { intros k. rewrite dict_keys_set, Hc. apply Hd. }
        exists w'. split.
        -- rewrite Hrun. apply loop_result_eq.
           rewrite dict_set_length, Hc. cbn [length]. lia.
        -- eapply same_but_log_trans; [|exact Hw]. repeat split.
      * destruct (takes_key substring_condition (config_name r)) eqn:Ht; run.
        -- match goal with
           | |- context [for_each rows _ (?d1, ?n1) ?w1] =>
               destruct (IH d1 n1 w1) as (w' & Hrun & Hw)
           end.
           { intros k. rewrite dict_keys_set, Hc, in_app_iff.
             intros [H|[<-|[]]]; auto. }
           exists w'. split; [|exact Hw].
           rewrite Hrun. apply loop_result_eq.
           rewrite dict_set_length, Hc. cbn [length]. lia.
        -- destruct (IH d n w Hd) as (w' & Hrun & Hw).
           exists w'. split; [|exact Hw].
           rewrite Hrun. reflexivity.
    + run. destruct (IH d n w Hd) as (w' & Hrun & Hw).
      exists w'. split; [|exact Hw]. rewrite Hrun. reflexivity.
Qed.

(** [check_for_duplicates] walks the items of a dictionary: no key comes
    twice, so it copies the dictionary and counts nothing. *)
Lemma check_items_copy (l : dict) :
  forall acc n w,
    NoDup (dict_keys (acc ++ l)) ->
    for_each l Refactored.check_item (acc, n) w = (Ok (acc ++ l, n), w).
Proof.
  induction l as [|[k v] l IH]; intros acc n w Hnd.
  - simpl. now rewrite app_nil_r.
  - cbn [for_each]. unfold bind at 1, Refactored.check_item at 1.
    assert (Hc : dict_contains k acc = false).
    { apply dict_contains_false. intros Hin.
      unfold dict_keys in Hnd. rewrite map_app in Hnd.
      apply NoDup_remove_2 in Hnd. apply Hnd, in_or_app. now left. }
    rewrite Hc. run. rewrite (dict_set_new _ _ _ Hc).
    rewrite IH by (now rewrite <- app_assoc).
    now rewrite <- app_assoc.
Qed.

Lemma check_for_duplicates_copy (self : MySQLCompare) (data : dict)
    (w : World) :
  NoDup (dict_keys data) ->
  Refactored.check_for_duplicates self data w = (Ok (data, 0%Z), w).
Proof.
  intros Hnd. unfold Refactored.check_for_duplicates.
  now rewrite (check_items_copy data [] 0%Z w Hnd).
Qed.

(** The loop that follows finds every key it visits already present: it
    leaves the mapping as it is and counts each key once. *)
Lemma recheck_items_count (substring_condition : string) (l : dict) :
  forall d n w,
    (forall k v, In (k, v) l -> dict_get d k = Some v) ->
    exists w',
      for_each l (Refactored.recheck_item substring_condition) (d, n) w
      = (Ok (d, (n + Z.of_nat (length l))%Z), w')
      /\ same_but_log w w'.
Proof.
  induction l as [|[k v] l IH]; intros d n w Hl.
  - exists w. split; [|auto with world].
    simpl. unfold ret. apply loop_result_eq. lia.
  - cbn [for_each]. unfold bind at 1, Refactored.recheck_item at 1.
    assert (Hget : dict_get d k = Some v) by (apply Hl; simpl; auto).
    assert (Hc : dict_contains k d = true)
      by (unfold dict_contains; now rewrite Hget).
    rewrite Hc.
    destruct (takes_key substring_condition k); run;
      rewrite ?(dict_set_same_value _ _ _ Hget);
      match goal with
      | |- context [for_each l _ (d, ?n1) ?w1] =>
          destruct (IH d n1 w1) as (w' & Hrun & Hw);
          [intros k0 v0 Hin; apply Hl; simpl; auto|]
      end;
      (exists w'; split;
       [rewrite Hrun; apply loop_result_eq; cbn [length]; lia
       |eapply same_but_log_trans; [|exact Hw]; repeat split]).
Qed.

Lemma original_analyze (env : Env) (self : MySQLCompare)
    (substring_condition : string) (rows : list Row) (w : World) :
  fetchall env = Ok rows ->
  exists w',
    Original.analyze_database_config env self substring_condition w
    = (Ok (Refactored.filter_data self rows substring_condition), w')
    /\ stdout w' = stdout w /\ cursor w' = cursor w
    /\ TOTAL_WARNINGS w'
       = (TOTAL_WARNINGS w
          + (Z.of_nat (length (retained substring_condition rows))
             - Z.of_nat (distinct_keys (retained substring_condition rows))))%Z.
Proof.
  intros Hfetch. unfold Original.analyze_database_config.
  rewrite Hfetch.
  destruct (truthy substring_condition); run;
    match goal with
    | |- context [for_each rows _ (?d, ?n) ?w1] =>
        destruct (original_rows_loop substring_condition rows d n w1)
          as (w' & Hrun & Hs & Hc & Ht);
        [intros k [] |]
    end;
    (eexists; split; [unfold dict in *; rewrite Hrun; reflexivity|]);
    cbn [log stdout cursor TOTAL_WARNINGS];
    rewrite Hs, Hc, Ht; cbn [stdout cursor TOTAL_WARNINGS length];
    rewrite <- filter_rows_distinct; unfold dict in *; (repeat split; lia).
Qed.

Lemma refactored_analyze (env : Env) (self : MySQLCompare)
    (substring_condition : string) (rows : list Row) (w : World) :
  fetchall env = Ok rows ->
  exists w',
    Refactored.analyze_database_config env self substring_condition w
    = (Ok (Refactored.filter_data self rows substring_condition), w')
    /\ stdout w' = stdout w /\ cursor w' = cursor w
    /\ TOTAL_WARNINGS w'
       = (TOTAL_WARNINGS w
          + Z.of_nat (distinct_keys (retained substring_condition rows)))%Z.
Proof.
  intros Hfetch.
  unfold Refactored.analyze_database_config, Refactored.fetch_data_from_db.
  rewrite Hfetch. run.
  assert (Hnd : NoDup (dict_keys
                         (Refactored.filter_data self rows substring_condition)))
    by (apply filter_rows_NoDup; constructor).
  rewrite (check_for_duplicates_copy self _ _ Hnd).
  match goal with
  | |- context [for_each ?l _ (?d, ?n) ?w1] =>
      destruct (recheck_items_count substring_condition l d n w1)
        as (w' & Hrun & Hs & Hc & Ht);
      [intros k v Hin; now apply dict_get_In |]
  end.
  eexists. split; [unfold dict in *; rewrite Hrun; reflexivity|].
  cbn [log stdout cursor TOTAL_WARNINGS].
  rewrite Hs, Hc, Ht. cbn [stdout cursor TOTAL_WARNINGS].
  unfold Refactored.filter_data. rewrite filter_rows_distinct.
  unfold dict in *. repeat split; lia.
Qed.

(** The original pass counts, for the rows it keeps, the observations
    beyond the first of each key, and maps every key to the value of its
    last observation. *)
Theorem original_pass_counts_duplicates :
  forall (env : Env) (self : MySQLCompare) (substring_condition : string)
         (rows : list Row) (w : World),
    fetchall env = Ok rows ->
    let observations := retained substring_condition rows in
    let run := Original.analyze_database_config env self substring_condition w in
    exists mapping,
      value run = Ok mapping
      /\ (TOTAL_WARNINGS (world run) - TOTAL_WARNINGS w
          = Z.of_nat (length observations)
            - Z.of_nat (distinct_keys observations))%Z
      /\ forall k, dict_get mapping k = last_value observations k.
Proof.
  intros env self substring_condition rows w Hfetch observations run.
  destruct (original_analyze env self substring_condition rows w Hfetch)
    as (w' & Hrun & _ & _ & Ht).
  subst run. rewrite Hrun. eexists. split; [reflexivity|]. split.
  - cbn [world snd]. rewrite Ht. subst observations. lia.
  - intros k. unfold Refactored.filter_data.
    rewrite filter_rows_last_value. fold observations.
    now destruct (last_value observations k).
Qed.

(** The refactored pass builds the same mapping, and counts one warning
    for every key of it. *)
Theorem refactored_pass_counts_keys :
  forall (env : Env) (self : MySQLCompare) (substring_condition : string)
         (rows : list Row) (w : World),
    fetchall env = Ok rows ->
    let observations := retained substring_condition rows in
    let run := Refactored.analyze_database_config env self substring_condition w in
    exists mapping,
      value run = Ok mapping
      /\ (TOTAL_WARNINGS (world run) - TOTAL_WARNINGS w
          = Z.of_nat (distinct_keys observations))%Z
      /\ forall k, dict_get mapping k = last_value observations k.
Proof.
  intros env self substring_condition rows w Hfetch observations run.
  destruct (refactored_analyze env self substring_condition rows w Hfetch)
    as (w' & Hrun & _ & _ & Ht).
  subst run. rewrite Hrun. eexists. split; [reflexivity|]. split.
  - cbn [world snd]. rewrite Ht. subst observations. lia.
  - intros k. unfold Refactored.filter_data.
    rewrite filter_rows_last_value. fold observations.
    now destruct (last_value observations k).
Qed.

(** C1, on the table whose only row is (A, 1), never expiring: one
    observation is retained and one key is distinct, so no warning is due;
    the original pass adds none, the refactored pass adds one. *)
Theorem C1_single_row_counted_as_duplicate :
  let rows := [mkRow "A" "1" NEVER] in
  let env := database_of rows in
  let refactored :=
    Refactored.analyze_database_config env quiet "" initial_world in
  let original :=
    Original.analyze_database_config env quiet "" initial_world in
  (Z.of_nat (length (retained "" rows))
   - Z.of_nat (distinct_keys (retained "" rows)) = 0)%Z
  /\ value refactored = Ok [("A", "1")]
  /\ TOTAL_WARNINGS (world refactored) = 1%Z
  /\ value original = Ok [("A", "1")]
  /\ TOTAL_WARNINGS (world original) = 0%Z.
Proof. repeat split. Qed.

(** A key that comes three times: two warnings are due, the refactored
    pass adds one. *)
Lemma refactored_undercounts_repeated_key :
  (Z.of_nat (length (retained "" [ mkRow "A" "1" NEVER; mkRow "A" "2" NEVER;
                                   mkRow "A" "3" NEVER ]))
   - Z.of_nat (distinct_keys
                 (retained "" [ mkRow "A" "1" NEVER; mkRow "A" "2" NEVER;
                                mkRow "A" "3" NEVER ])) = 2)%Z
  /\ TOTAL_WARNINGS
       (world (Refactored.analyze_database_config
                 (database_of [ mkRow "A" "1" NEVER; mkRow "A" "2" NEVER;
                                mkRow "A" "3" NEVER ])
                 quiet "" initial_world)) = 1%Z
  /\ TOTAL_WARNINGS
       (world (Original.analyze_database_config
                 (database_of [ mkRow "A" "1" NEVER; mkRow "A" "2" NEVER;
                                mkRow "A" "3" NEVER ])
                 quiet "" initial_world)) = 2%Z.
Proof. repeat split. Qed.

(** The script pass on a file that sets key A to 1 and then to 2: the
    mapping holds 2 and one warning is counted. *)
Lemma script_pass_counts_duplicate :
  value (Common.analyze_scripts_config
           key_set_twice quiet Common.ALENZA_CONFIG_SCRIPTS_RELATIVE ""
           initial_world)
  = Ok ([("A", "2")], 1%Z).
Proof. reflexivity. Qed.

(** C9. For every outcome of the query (rows or an exception) and every
    substring filter, the original [analyze_database_config] and the
    refactored one ([filter_data], [check_for_duplicates] and the loop that
    follows) return the same mapping, in the same order, or raise the same
    exception. *)
Theorem C9_variants_return_same_mapping :
  forall (env : Env) (self : MySQLCompare) (substring_condition : string)
         (w1 w2 : World),
    value (Original.analyze_database_config env self substring_condition w1)
    = value (Refactored.analyze_database_config env self substring_condition w2).
Proof.
  intros env self substring_condition w1 w2.
  destruct (fetchall env) as [rows|e] eqn:Hfetch.
  - destruct (original_analyze env self substring_condition rows w1 Hfetch)
      as (w1' & -> & _).
    destruct (refactored_analyze env self substring_condition rows w2 Hfetch)
      as (w2' & -> & _).
    reflexivity.
  - unfold Original.analyze_database_config,
      Refactored.analyze_database_config, Refactored.fetch_data_from_db.
    rewrite Hfetch.
    destruct (truthy substring_condition); run;
      destruct (is_Exception e); reflexivity.
Qed.

(** An element the loop body passes over can be taken out of the list. *)
Lemma for_each_skip {A S : Type} (body : S -> A -> M S) (x : A)
    (pre post : list A) :
  (forall s w, body s x w = (Ok s, w)) ->
  forall s w,
    for_each (pre ++ x :: post) body s w = for_each (pre ++ post) body s w.
Proof.
  intros Hskip. induction pre as [|a pre IH]; intros s w.
  - cbn [app for_each]. unfold bind. now rewrite Hskip.
  - cbn [app for_each]. unfold bind.
    destruct (body s a w) as [[s'|e] w']; [apply IH | reflexivity].
Qed.

Lemma analyze_row_skips (substring_condition : string) (row : Row) :
  never_expires row = false ->
  forall st w,
    Original.analyze_row substring_condition st row w = (Ok st, w).
Proof.
  intros Hrow [d n] w. unfold Original.analyze_row.
  fold (never_expires row). now rewrite Hrow.
Qed.

Lemma filter_data_skips (self : MySQLCompare) (substring_condition : string)
    (row : Row) (pre post : list Row) :
  never_expires row = false ->
  Refactored.filter_data self (pre ++ row :: post) substring_condition
  = Refactored.filter_data self (pre ++ post) substring_condition.
Proof.
  intros Hrow. unfold Refactored.filter_data.
  rewrite !fold_left_app. cbn [fold_left].
  now rewrite (filter_row_skips substring_condition _ row Hrow).
Qed.

Lemma not_year_9999 (row : Row) :
  year (valid_date row) <> 9999%N -> never_expires row = false.
Proof.
  intros H. destruct (never_expires row) eqn:E; [|reflexivity].
  now apply never_expires_year in E.
Qed.

(** C5, as amended. A row whose validity date is not in year 9999 (what
    the code tests of the date is its year) is passed over before anything
    else is done with it: in both variants the whole pass (the mapping
    returned, the warnings counted, the log) is the same as on the table
    without that row, whether or not its key is unique. *)
Theorem C5_expired_row_is_excluded :
  forall (env : Env) (self : MySQLCompare) (substring_condition : string)
         (pre post : list Row) (row : Row) (w : World),
    year (valid_date row) <> 9999%N ->
    Original.analyze_database_config
      (with_rows env (pre ++ row :: post)) self substring_condition w
    = Original.analyze_database_config
        (with_rows env (pre ++ post)) self substring_condition w
    /\
    Refactored.analyze_database_config
      (with_rows env (pre ++ row :: post)) self substring_condition w
    = Refactored.analyze_database_config
        (with_rows env (pre ++ post)) self substring_condition w.
Proof.
  intros env self substring_condition pre post row w Hyear.
  apply not_year_9999 in Hyear. split.
  - unfold Original.analyze_database_config, with_rows. cbn [fetchall].
    destruct (truthy substring_condition); run;
      now rewrite (for_each_skip _ row pre post
                     (analyze_row_skips substring_condition row Hyear)).
  - unfold Refactored.analyze_database_config,
      Refactored.fetch_data_from_db, with_rows.
    cbn [fetchall]. run.
    now rewrite (filter_data_skips self substring_condition row pre post Hyear).
Qed.

(** A table of two rows with distinct keys, the second one expired. *)
Lemma C5_expired_row_is_excluded_witness :
  Original.analyze_database_config
    (with_rows (database_of [])
               ([mkRow "A" "1" NEVER] ++ mkRow "B" "2" EXPIRED :: []))
    quiet "" initial_world
  = Original.analyze_database_config
      (with_rows (database_of []) ([mkRow "A" "1" NEVER] ++ []))
      quiet "" initial_world
  /\
  Refactored.analyze_database_config
    (with_rows (database_of [])
               ([mkRow "A" "1" NEVER] ++ mkRow "B" "2" EXPIRED :: []))
    quiet "" initial_world
  = Refactored.analyze_database_config
      (with_rows (database_of []) ([mkRow "A" "1" NEVER] ++ []))
      quiet "" initial_world.
Proof.
  apply (C5_expired_row_is_excluded (database_of []) quiet ""
           [mkRow "A" "1" NEVER] [] (mkRow "B" "2" EXPIRED) initial_world).
  simpl. lia.
Defined.

(** C5 as stated fails: a row dated 9999-01-01, which is not the
    never-expires date 9999-12-31, is kept because its year is 9999.  With
    a key of its own it enters the mapping, in both variants; after a row
    of the same key it is counted as a duplicate. *)
Lemma C5_other_day_of_year_9999_is_kept :
  mkDate 9999 1 1 <> NEVER
  /\ value (Original.analyze_database_config
              (database_of [mkRow "B" "2" (mkDate 9999 1 1)])
              quiet "" initial_world)
     = Ok [("B", "2")]
  /\ value (Refactored.analyze_database_config
              (database_of [mkRow "B" "2" (mkDate 9999 1 1)])
              quiet "" initial_world)
     = Ok [("B", "2")]
  /\ TOTAL_WARNINGS
       (world (Original.analyze_database_config
                 (database_of [ mkRow "A" "1" NEVER;
                                mkRow "A" "2" (mkDate 9999 1 1) ])
                 quiet "" initial_world))
     = 1%Z
  /\ value (Original.analyze_database_config
              (database_of [ mkRow "A" "1" NEVER;
                             mkRow "A" "2" (mkDate 9999 1 1) ])
              quiet "" initial_world)
     = Ok [("A", "2")].
Proof. repeat split; try reflexivity. discriminate. Qed.

(** Every entry of the mapping comes from a row dated in year 9999, in
    both variants. *)
Lemma mapping_from_valid_rows (self : MySQLCompare)
    (substring_condition : string) (rows : list Row) (k v : string) :
  dict_get (Refactored.filter_data self rows substring_condition) k = Some v ->
  exists row, In row rows /\ year (valid_date row) = 9999%N
              /\ config_name row = k /\ config_value row = v.
Proof.
  unfold Refactored.filter_data. rewrite filter_rows_last_value.
  assert (Hlast : forall obs, last_value obs k = Some v -> In (k, v) obs).
  { induction obs as [|[k' v'] obs IH]; simpl; [discriminate|].
    destruct (last_value obs k); [intros H; right; now apply IH|].
    destruct (String.eqb_spec k' k) as [->|]; [|discriminate].
    intros H. inversion H. now left. }
  destruct (last_value _ k) as [v'|] eqn:E; [|discriminate].
  intros H. inversion H; subst v'. apply Hlast in E.
  unfold retained in E. apply in_map_iff in E as (row & Heq & Hin).
  apply filter_In in Hin as (Hin & Hkeep).
  apply andb_true_iff in Hkeep as (Hvalid & _).
  inversion Heq. exists row. repeat split; auto.
  now apply never_expires_year.
Qed.

(** ** The reconciler *)

Section Reconciler.

Variables database_keys script_keys : dict.

(** On two dictionaries no key raises, and every record the loop appends
    is a change or a missing key of the scripts. *)
Lemma compare_keys_dicts (names : list string) :
  forall differences,
    (forall n, In n names -> In n (dict_keys script_keys)) ->
    exists added,
      Common.compare_keys (PyDict database_keys) (PyDict script_keys)
                          names differences
      = (differences ++ added, None)
      /\ (forall e, In e added ->
                    In (entry_name e) names
                    /\ is_difference database_keys script_keys e)
      /\ ((forall k, dict_get database_keys k = dict_get script_keys k) ->
          added = []).
Proof.
  induction names as [|n names IH]; intros differences Hnames.
  - exists []. cbn [Common.compare_keys]. rewrite app_nil_r.
    split; [reflexivity|]. split; [intros e []|reflexivity].
  - assert (Hn : In n (dict_keys script_keys)) by (apply Hnames; now left).
    apply dict_contains_In in Hn. unfold dict_contains in Hn.
    destruct (dict_get script_keys n) as [sv|] eqn:Hs; [|discriminate].
    assert (Hrest : forall m, In m names -> In m (dict_keys script_keys))
      by (intros m Hm; apply Hnames; now right).
    cbn [Common.compare_keys]. unfold Common.compare_key.
    cbn [contains getitem]. unfold dict_contains. rewrite Hs.
    destruct (dict_get database_keys n) as [dv|] eqn:Hd.
    + destruct (String.eqb_spec sv dv) as [->|Hne]; cbn [negb].
      * destruct (IH differences Hrest) as (added & Hrun & Hin & Heq).
        exists added. split; [exact Hrun|]. split; [|exact Heq].
        intros e He. destruct (Hin e He). split; [now right | assumption].
      * destruct (IH (differences ++ [mkEntry "CHANGE" n dv sv]) Hrest)
          as (added & Hrun & Hin & Heq).
        exists (mkEntry "CHANGE" n dv sv :: added).
        split; [rewrite Hrun; now rewrite <- app_assoc|]. split.
        -- intros e [<-|He].
           ++ split; [now left|]. left. cbn. auto.
           ++ destruct (Hin e He). split; [now right | assumption].
        -- intros Hsame. rewrite Hsame in Hd. congruence.
    + destruct (IH (differences ++ [mkEntry "MISSING" n "N/A" sv]) Hrest)
        as (added & Hrun & Hin & Heq).
      exists (mkEntry "MISSING" n "N/A" sv :: added).
      split; [rewrite Hrun; now rewrite <- app_assoc|]. split.
      * intros e [<-|He].
        -- split; [now left|]. right. cbn. auto.
        -- destruct (Hin e He). split; [now right | assumption].
      * intros Hsame. rewrite Hsame in Hd. congruence.
Qed.

Lemma compare_loop_dicts :
  exists differences,
    Common.compare_loop (PyDict database_keys) (PyDict script_keys)
    = (differences, None)
    /\ (forall e, In e differences ->
                  In (entry_name e) (dict_keys script_keys)
                  /\ is_difference database_keys script_keys e)
    /\ ((forall k, dict_get database_keys k = dict_get script_keys k) ->
        differences = []).
Proof.
  unfold Common.compare_loop. cbn [iter].
  destruct (compare_keys_dicts (dict_keys script_keys) [] (fun n H => H))
    as (added & Hrun & Hin & Heq).
  exists added. now rewrite Hrun.
Qed.

End Reconciler.

Lemma reconciler_on_dicts (self : MySQLCompare)
    (database_keys script_keys : dict) (w : World) :
  exists differences,
    value (Original.compare_database_to_scripts
             self (PyDict database_keys) (PyDict script_keys) w)
    = Ok differences
    /\ value (Refactored.compare_database_to_scripts
                self (PyDict database_keys) (PyDict script_keys) w)
       = Ok differences
    /\ (forall e, In e differences ->
                  In (entry_name e) (dict_keys script_keys)
                  /\ is_difference database_keys script_keys e)
    /\ ((forall k, dict_get database_keys k = dict_get script_keys k) ->
        differences = []).
Proof.
  destruct (compare_loop_dicts database_keys script_keys)
    as (differences & Hrun & Hin & Heq).
  exists differences.
  unfold Original.compare_database_to_scripts,
    Refactored.compare_database_to_scripts.
  cbn [is_dict negb orb]. rewrite Hrun.
  split; [|split; [|split]].
  - run. now destruct (is_print_table_diff self).
  - run. now destruct (is_print_table_diff self).
  - exact Hin.
  - exact Heq.
Qed.

(** C2. On two dictionaries both variants of the reconciler return the
    same records; the key of every record is a key of the scripts mapping
    (a key of the database alone is never reported), and when the two
    mappings hold the same value for every key the result is empty. *)
Theorem C2_reconciler_is_script_driven :
  forall (self : MySQLCompare) (database_keys script_keys : dict) (w : World),
    exists differences,
      value (Original.compare_database_to_scripts
               self (PyDict database_keys) (PyDict script_keys) w)
      = Ok differences
      /\ value (Refactored.compare_database_to_scripts
                  self (PyDict database_keys) (PyDict script_keys) w)
         = Ok differences
      /\ (forall e, In e differences ->
                    dict_contains (entry_name e) script_keys = true)
      /\ ((forall k, dict_get database_keys k = dict_get script_keys k) ->
          differences = []).
Proof.
  intros self database_keys script_keys w.
  destruct (reconciler_on_dicts self database_keys script_keys w)
    as (differences & Horiginal & Hrefactored & Hin & Heq).
  exists differences. repeat split; try assumption.
  intros e He. apply dict_contains_In. now apply Hin.
Qed.

(** The mapping {A: 1} against itself gives no record. *)
Lemma C2_reconciler_is_script_driven_witness :
  value (Refactored.compare_database_to_scripts
           quiet (PyDict [("A", "1")]) (PyDict [("A", "1")]) initial_world)
  = Ok [].
Proof.
  destruct (C2_reconciler_is_script_driven
              quiet [("A", "1")] [("A", "1")] initial_world)
    as (differences & _ & Hrefactored & _ & Hequal).
  rewrite Hrefactored. f_equal. apply Hequal. reflexivity.
Defined.

(** C3. For the database {A: 1, B: 2} and the scripts {A: 1, B: 3, C: 4},
    both variants return CHANGE(B, 2, 3) then MISSING(C, N/A, 4), and leave
    the warning total as it was. *)
Theorem C3_end_to_end_scenario :
  forall (self : MySQLCompare) (w : World),
    let expected :=
      [ mkEntry "CHANGE" "B" "2" "3"; mkEntry "MISSING" "C" "N/A" "4" ] in
    let original :=
      Original.compare_database_to_scripts
        self (PyDict scenario_database) (PyDict scenario_scripts) w in
    let refactored :=
      Refactored.compare_database_to_scripts
        self (PyDict scenario_database) (PyDict scenario_scripts) w in
    value original = Ok expected
    /\ value refactored = Ok expected
    /\ TOTAL_WARNINGS (world original) = TOTAL_WARNINGS w
    /\ TOTAL_WARNINGS (world refactored) = TOTAL_WARNINGS w.
Proof.
  intros self w.
  unfold Original.compare_database_to_scripts,
    Refactored.compare_database_to_scripts.
  cbn [is_dict negb orb].
  change (Common.compare_loop (PyDict scenario_database)
                              (PyDict scenario_scripts))
    with ([ mkEntry "CHANGE" "B" "2" "3"; mkEntry "MISSING" "C" "N/A" "4" ],
          @None exn).
  run. destruct (is_print_table_diff self); repeat split.
Qed.

(** C8, as amended. When one of its two arguments is not a dictionary,
    the refactored reconciler logs the error [Input arguments must be
    dictionaries.] and returns the empty list; it raises nothing and touches
    nothing else. *)
Theorem C8_non_dict_inputs_are_logged :
  forall (self : MySQLCompare) (database_keys script_keys : pyval) (w : World),
    is_dict database_keys = false \/ is_dict script_keys = false ->
    Refactored.compare_database_to_scripts self database_keys script_keys w
    = (Ok [],
       {| log := log w ++ [(ERROR, "Input arguments must be dictionaries.")];
          stdout := stdout w;
          cursor := cursor w;
          TOTAL_WARNINGS := TOTAL_WARNINGS w |}).
Proof.
  intros self database_keys script_keys w H.
  unfold Refactored.compare_database_to_scripts.
  assert (Hguard : negb (is_dict database_keys) || negb (is_dict script_keys)
                   = true).
  { destruct H as [-> | ->]; [reflexivity | apply orb_true_r]. }
  rewrite Hguard. reflexivity.
Qed.

(** [None] in place of the scripts mapping. *)
Lemma C8_non_dict_inputs_are_logged_witness :
  Refactored.compare_database_to_scripts
    quiet (PyDict [("A", "1")]) PyNone initial_world
  = (Ok [],
     {| log := [(ERROR, "Input arguments must be dictionaries.")];
        stdout := [];
        cursor := NotConnected;
        TOTAL_WARNINGS := 0 |}).
Proof.
  apply (C8_non_dict_inputs_are_logged
           quiet (PyDict [("A", "1")]) PyNone initial_world).
  right. reflexivity.
Defined.

(** C8 as stated fails for the original reconciler, which has no such
    check: with [None] in place of the scripts mapping it raises [TypeError]
    and logs nothing. *)
Lemma C8_original_raises_on_non_dict :
  is_dict PyNone = false
  /\ Original.compare_database_to_scripts
       quiet (PyDict [("A", "1")]) PyNone initial_world
     = (Raise (TypeError "'NoneType' object is not iterable"), initial_world).
Proof. split; reflexivity. Qed.

(** The same for every object, database mapping and world. *)
Lemma original_reconciler_raises_on_None (self : MySQLCompare)
    (database_keys : pyval) (w : World) :
  Original.compare_database_to_scripts self database_keys PyNone w
  = (Raise (TypeError "'NoneType' object is not iterable"), w).
Proof. reflexivity. Qed.

(** ** The remediation generator *)

Lemma print_all_lines (stored_procs : list string) :
  forall w,
    Common.print_all stored_procs w
    = (Ok tt,
       {| log := log w;
          stdout := stdout w ++ map Line stored_procs;
          cursor := cursor w;
          TOTAL_WARNINGS := TOTAL_WARNINGS w |}).
Proof.
  unfold Common.print_all.
  induction stored_procs as [|s l IH]; intros w.
  - cbn [for_each map]. unfold ret. rewrite app_nil_r. now destruct w.
  - cbn [for_each map]. run. rewrite IH.
    cbn [log stdout cursor TOTAL_WARNINGS]. now rewrite <- app_assoc.
Qed.

Lemma missing_is_not_change (e : Entry) :
  is_missing e = true -> is_change e = false.
Proof.
  unfold is_missing, is_change. intros H.
  apply String.eqb_eq in H. now rewrite H.
Qed.

(** The loop over the records, in one of the two known directions: the
    statements of the MISSING records and those of the CHANGE records are
    appended to the two lists, in order; nothing is printed. *)
Lemma generate_entries_lists (self : MySQLCompare) (entries : list Entry) :
  comparison_direction self = "scripts"
  \/ comparison_direction self = "server" ->
  forall st w, exists last w',
    for_each entries (Common.generate_entry self) st w
    = (Ok {| Common.statement := last;
             Common.all_missing_key_stored_proc_statements :=
               Common.all_missing_key_stored_proc_statements st
               ++ map (statement_for (comparison_direction self))
                      (filter is_missing entries);
             Common.all_diff_key_stored_proc_statements :=
               Common.all_diff_key_stored_proc_statements st
               ++ map (statement_for (comparison_direction self))
                      (filter is_change entries) |},
       w')
    /\ same_but_log w w'.
Proof.
  intros Hdir.
  induction entries as [|e entries IH]; intros st w.
  - exists (Common.statement st), w. split; [|auto with world].
    cbn [for_each filter map]. unfold ret. rewrite !app_nil_r.
    now destruct st.
  - cbn [for_each filter]. unfold bind at 1.
    unfold Common.generate_entry at 1.
    assert (Hstmt :
      (if String.eqb (comparison_direction self) "scripts"
       then ret (Some (Common.call_statement (entry_name e) (value_script e)))
       else if String.eqb (comparison_direction self) "server"
            then ret (Some (Common.call_statement (entry_name e)
                                                  (value_database e)))
            else bind (logger ERROR ("UNKNOWN COMPARISON DIRECTION: "
                                     ++ comparison_direction self))
                      (fun _ => ret (Common.statement st)))
      = ret (Some (statement_for (comparison_direction self) e))).
    { unfold statement_for. destruct Hdir as [-> | ->]; reflexivity. }
    rewrite Hstmt. clear Hstmt.
    fold (is_missing e). fold (is_change e).
    destruct (is_missing e) eqn:Hm.
    + rewrite (missing_is_not_change e Hm). run.
      match goal with
      | |- context [for_each entries _ ?st1 ?w1] =>
          destruct (IH st1 w1) as (last & w' & Hrun & Hw)
      end.
      exists last, w'. split; [|exact Hw]. rewrite Hrun.
      cbn [Common.all_missing_key_stored_proc_statements
             Common.all_diff_key_stored_proc_statements map].
      now rewrite <- app_assoc.
    + destruct (is_change e) eqn:Hc; run;
        match goal with
        | |- context [for_each entries _ ?st1 ?w1] =>
            destruct (IH st1 w1) as (last & w' & Hrun & Hw)
        end;
        exists last, w';
        (split;
         [rewrite Hrun;
          cbn [Common.all_missing_key_stored_proc_statements
                 Common.all_diff_key_stored_proc_statements map];
          now rewrite <- ?app_assoc
         |eapply same_but_log_trans; [|exact Hw]; repeat split]).
Qed.

(** C4, as amended. When printing of the statements is enabled and there
    is a record, the generator prints:
    - in direction [scripts], under the heading for missing keys, the
      statement [CALL SP_CREATE_CONFIG_FIELD('X', 'Y', null);] of every
      MISSING record (key X, script value Y), then the statement of every
      CHANGE record with its script value;
    - in direction [server], no statement for any MISSING record (a notice
      stands in their place), then the statement of every CHANGE record
      with its database value.
    When printing is disabled the generator returns at once: it prints
    nothing, whatever the records and the direction, and logs nothing. *)
Theorem C4_statements_follow_printing_flag :
  forall (self : MySQLCompare) (entries : list Entry) (w : World),
    let run :=
      Common.generate_missing_stored_proc_statement self entries w in
    let out := stdout (world run) in
    (is_print_stored_procs self = true ->
     entries <> [] ->
     (comparison_direction self = "scripts" ->
      out = stdout w ++ preamble
            ++ [Line "STORED PROCEDURES FOR MISSING KEYS:"]
            ++ map Line
                 (map (fun e => Common.call_statement (entry_name e)
                                                      (value_script e))
                      (filter is_missing entries))
            ++ interlude
            ++ map Line
                 (map (fun e => Common.call_statement (entry_name e)
                                                      (value_script e))
                      (filter is_change entries))
            ++ [Common.separator])
     /\
     (comparison_direction self = "server" ->
      out = stdout w ++ preamble
            ++ [Line Common.SKIP_MISSING_MESSAGE]
            ++ interlude
            ++ map Line
                 (map (fun e => Common.call_statement (entry_name e)
                                                      (value_database e))
                      (filter is_change entries))
            ++ [Common.separator]))
    /\
    (is_print_stored_procs self = false -> run = (Ok tt, w)).
Proof.
  intros self entries w run out. subst out run.
  split;
    [ intros Hprint Hentries
    | intros Hprint;
      unfold Common.generate_missing_stored_proc_statement;
      rewrite Hprint, andb_false_r; reflexivity ].
  unfold Common.generate_missing_stored_proc_statement.
  rewrite Hprint.
  replace (0 <? length entries)%nat with true
    by (destruct entries; [congruence | reflexivity]).
  cbn [andb].
  split; intros Hdir; run;
    match goal with
    | |- context [for_each entries _ ?st1 ?w1] =>
        destruct (generate_entries_lists self entries
                    (ltac:(rewrite Hdir; auto)) st1 w1)
          as (last & w' & Hrun & Hs & _ & _)
    end;
    rewrite Hrun; rewrite Hdir in *;
    cbn [String.eqb Ascii.eqb Bool.eqb
           Common.all_missing_key_stored_proc_statements
           Common.all_diff_key_stored_proc_statements app];
    run; rewrite ?print_all_lines; run; rewrite ?print_all_lines;
    cbn [log stdout cursor TOTAL_WARNINGS snd];
    rewrite Hs; cbn [stdout];
    unfold preamble, interlude, statement_for;
    cbn [String.eqb Ascii.eqb Bool.eqb];
    rewrite <- ?app_assoc; reflexivity.
Qed.

(** One MISSING and one CHANGE record, printed in both directions, and
    not printed with the default command line. *)
Lemma C4_statements_follow_printing_flag_witness :
  stdout (world (Common.generate_missing_stored_proc_statement
                   (printing "scripts")
                   [ mkEntry "MISSING" "X" "N/A" "Y";
                     mkEntry "CHANGE" "B" "2" "3" ]
                   initial_world))
  = preamble
    ++ [ Line "STORED PROCEDURES FOR MISSING KEYS:";
         Line "CALL SP_CREATE_CONFIG_FIELD('X', 'Y', null);" ]
    ++ interlude
    ++ [ Line "CALL SP_CREATE_CONFIG_FIELD('B', '3', null);";
         Common.separator ]
  /\
  stdout (world (Common.generate_missing_stored_proc_statement
                   (printing "server")
                   [ mkEntry "MISSING" "X" "N/A" "Y";
                     mkEntry "CHANGE" "B" "2" "3" ]
                   initial_world))
  = preamble
    ++ [ Line Common.SKIP_MISSING_MESSAGE ]
    ++ interlude
    ++ [ Line "CALL SP_CREATE_CONFIG_FIELD('B', '2', null);";
         Common.separator ]
  /\
  Common.generate_missing_stored_proc_statement
    quiet
    [ mkEntry "MISSING" "X" "N/A" "Y"; mkEntry "CHANGE" "B" "2" "3" ]
    initial_world
  = (Ok tt, initial_world).
Proof.
  assert (Hentries : [ mkEntry "MISSING" "X" "N/A" "Y";
                       mkEntry "CHANGE" "B" "2" "3" ] <> [])
    by discriminate.
  split; [|split].
  - exact (proj1 (proj1 (C4_statements_follow_printing_flag
                           (printing "scripts") _ initial_world)
                        eq_refl Hentries)
                 eq_refl).
  - exact (proj2 (proj1 (C4_statements_follow_printing_flag
                           (printing "server") _ initial_world)
                        eq_refl Hentries)
                 eq_refl).
  - exact (proj2 (C4_statements_follow_printing_flag
                    quiet _ initial_world)
                 eq_refl).
Defined.

(** C4 as stated fails: with the default command line (direction
    [scripts], statements not printed) the generator prints nothing for the
    MISSING record (X, Y). *)
Lemma C4_nothing_printed_by_default :
  comparison_direction quiet = "scripts"
  /\ ~ In (Line "CALL SP_CREATE_CONFIG_FIELD('X', 'Y', null);")
          (stdout (world (Common.generate_missing_stored_proc_statement
                            quiet [mkEntry "MISSING" "X" "N/A" "Y"]
                            initial_world))).
Proof. split; [reflexivity | intros []]. Qed.

(** ** The run *)

(** C6, on a run whose connection succeeds and whose query then fails:
    the refactored [main] logs the error and returns, and the connection
    is still open; [close_connection] was not called. *)
Theorem C6_connection_left_open_after_failed_query :
  value (Refactored.main failing_query sample_args initial_world) = Ok tt
  /\ cursor (world (Refactored.main failing_query sample_args initial_world))
     = Connected
  /\ ~ In (INFO, "Database connection closed.")
          (log (world (Refactored.main failing_query sample_args
                                       initial_world))).
Proof.
  split; [reflexivity|]. split; [reflexivity|].
  vm_compute. intros H.
  repeat (destruct H as [H|H]; [discriminate H|]). exact H.
Qed.

(** A malformed statement line ends the run the same way. *)
Lemma connection_left_open_after_parse_error :
  value (Refactored.main one_bad_script sample_args initial_world) = Ok tt
  /\ cursor (world (Refactored.main one_bad_script sample_args initial_world))
     = Connected.
Proof. split; reflexivity. Qed.

(** A run that gets through its three extraction passes closes the
    connection. *)
Lemma connection_closed_after_clean_run :
  value (Refactored.main (database_of []) sample_args initial_world) = Ok tt
  /\ cursor (world (Refactored.main (database_of []) sample_args
                                    initial_world))
     = Closed.
Proof. split; reflexivity. Qed.

(** The original [main] never closes the connection, even on a clean
    run. *)
Lemma original_leaves_connection_open :
  value (Original.main (database_of []) sample_args initial_world) = Ok tt
  /\ cursor (world (Original.main (database_of []) sample_args
                                  initial_world))
     = Connected.
Proof. split; reflexivity. Qed.


(** *** Which methods touch the connection *)

Section Frames.

Context {A B : Type}.

Lemma keeps_ret (a : A) : keeps_cursor (ret a).
Proof. intros w. reflexivity. Qed.

Lemma keeps_raise (e : exn) : keeps_cursor (@raise A e).
Proof. intros w. reflexivity. Qed.

Lemma keeps_lift (r : result A) : keeps_cursor (lift r).
Proof. intros w. reflexivity. Qed.

Lemma keeps_bind (m : M A) (k : A -> M B) :
  keeps_cursor m -> (forall a, keeps_cursor (k a)) -> keeps_cursor (bind m k).
Proof.
  intros Hm Hk w. unfold bind. specialize (Hm w).
  destruct (m w) as [[a|e] w']; cbn [snd] in *.
  - now rewrite Hk.
  - exact Hm.
Qed.

Lemma keeps_try_except_when (catches : exn -> bool) (m : M A)
    (handler : exn -> M A) :
  keeps_cursor m -> (forall e, keeps_cursor (handler e)) ->
  keeps_cursor (try_except_when catches m handler).
Proof.
  intros Hm Hh w. unfold try_except_when. specialize (Hm w).
  destruct (m w) as [[a|e] w']; cbn [snd] in *; [exact Hm|].
  destruct (catches e); [now rewrite Hh | exact Hm].
Qed.

Lemma keeps_for_each (l : list B) (body : A -> B -> M A) :
  (forall s x, keeps_cursor (body s x)) ->
  forall s, keeps_cursor (for_each l body s).
Proof.
  intros Hbody. induction l as [|x l IH]; intros s.
  - apply keeps_ret.
  - cbn [for_each]. intros w. unfold bind. specialize (Hbody s x w).
    destruct (body s x w) as [[s'|e] w']; cbn [snd] in *.
    + now rewrite IH.
    + exact Hbody.
Qed.

Lemma raises_ret (a : A) : raises_exceptions (ret a).
Proof. intros w e H. discriminate. Qed.

Lemma raises_bind (m : M A) (k : A -> M B) :
  raises_exceptions m -> (forall a, raises_exceptions (k a)) ->
  raises_exceptions (bind m k).
Proof.
  intros Hm Hk w e. unfold bind. specialize (Hm w).
  destruct (m w) as [[a|e'] w']; cbn [fst] in *.
  - apply Hk.
  - intros H. inversion H; subst. now apply Hm.
Qed.

Lemma raises_for_each (l : list B) (body : A -> B -> M A) :
  (forall s x, raises_exceptions (body s x)) ->
  forall s, raises_exceptions (for_each l body s).
Proof.
  intros Hbody. induction l as [|x l IH]; intros s.
  - intros w e H. discriminate.
  - cbn [for_each]. intros w e. unfold bind. specialize (Hbody s x w).
    destruct (body s x w) as [[s'|e'] w']; cbn [fst] in *.
    + apply IH.
    + intros H. inversion H; subst. now apply Hbody.
Qed.

End Frames.

Lemma keeps_logger (lvl : level) (msg : string) : keeps_cursor (logger lvl msg).
Proof. intros w. reflexivity. Qed.

Lemma keeps_print (o : output) : keeps_cursor (print o).
Proof. intros w. reflexivity. Qed.

Lemma keeps_add_TOTAL_WARNINGS (n : Z) : keeps_cursor (add_TOTAL_WARNINGS n).
Proof. intros w. reflexivity. Qed.

Lemma keeps_get_TOTAL_WARNINGS : keeps_cursor get_TOTAL_WARNINGS.
Proof. intros w. reflexivity. Qed.

Lemma raises_logger (lvl : level) (msg : string) :
  raises_exceptions (logger lvl msg).
Proof. intros w e H. discriminate. Qed.

Lemma raises_print (o : output) : raises_exceptions (print o).
Proof. intros w e H. discriminate. Qed.

Lemma raises_raise {A : Type} (e : exn) :
  is_Exception e = true -> raises_exceptions (@raise A e).
Proof. intros He w e' H. inversion H. now subst. Qed.

(** Goals of the two kinds, taken apart along the structure of the
    method. *)
Ltac frame :=
  repeat first
    [ solve [auto with world nocore]
    | progress cbv zeta
    | apply keeps_ret | apply keeps_raise | apply keeps_lift
    | apply keeps_logger | apply keeps_print
    | apply keeps_add_TOTAL_WARNINGS | apply keeps_get_TOTAL_WARNINGS
    | apply raises_ret | apply raises_logger | apply raises_print
    | apply raises_raise; reflexivity
    | apply keeps_bind | apply raises_bind
    | apply keeps_for_each | apply raises_for_each
    | apply keeps_try_except_when
    | progress intros
    | match goal with
      | |- keeps_cursor (if ?b then _ else _) => destruct b
      | |- raises_exceptions (if ?b then _ else _) => destruct b
      | |- keeps_cursor (match ?x with _ => _ end) => destruct x
      | |- raises_exceptions (match ?x with _ => _ end) => destruct x
      end ].

Lemma keeps_select_script (env : Env) (self : MySQLCompare)
    (files : list ScriptFile) (file : ScriptFile) :
  keeps_cursor (Common.select_script env self files file).
Proof. unfold Common.select_script. frame. Qed.

Lemma keeps_scan_line (substring_condition : string)
    (st : Common.ScanState) (line : string) :
  keeps_cursor (Common.scan_line substring_condition st line).
Proof. unfold Common.scan_line. frame. Qed.

Lemma keeps_check_item (st : dict * Z) (item : string * string) :
  keeps_cursor (Refactored.check_item st item).
Proof. unfold Refactored.check_item. frame. Qed.

Lemma keeps_recheck_item (substring_condition : string) (st : dict * Z)
    (item : string * string) :
  keeps_cursor (Refactored.recheck_item substring_condition st item).
Proof. unfold Refactored.recheck_item. frame. Qed.

Lemma keeps_generate_entry (self : MySQLCompare) (st : Common.GenState)
    (entry : Entry) :
  keeps_cursor (Common.generate_entry self st entry).
Proof. unfold Common.generate_entry. frame. Qed.

Lemma raises_generate_entry (self : MySQLCompare) (st : Common.GenState)
    (entry : Entry) :
  raises_exceptions (Common.generate_entry self st entry).
Proof. unfold Common.generate_entry. frame. Qed.

#[local] Hint Resolve keeps_select_script keeps_scan_line keeps_check_item
  keeps_recheck_item keeps_generate_entry raises_generate_entry : world.

Lemma keeps_analyze_all (env : Env) (mysql : MySQLCompare) (args : Args) :
  keeps_cursor (Refactored.analyze_all env mysql args).
Proof. unfold Refactored.analyze_all. frame; auto with world. Qed.

Lemma keeps_generate (self : MySQLCompare) (entries : list Entry) :
  keeps_cursor (Common.generate_missing_stored_proc_statement self entries).
Proof.
  unfold Common.generate_missing_stored_proc_statement.
  frame; auto with world.
Qed.

Lemma raises_generate (self : MySQLCompare) (entries : list Entry) :
  raises_exceptions
    (Common.generate_missing_stored_proc_statement self entries).
Proof.
  unfold Common.generate_missing_stored_proc_statement.
  frame; auto with world.
Qed.

(** *** The refactored [main], stage by stage *)

Lemma try_except_ok {A : Type} (m : M A) (handler : exn -> M A)
    (w w' : World) (a : A) :
  m w = (Ok a, w') -> try_except m handler w = (Ok a, w').
Proof. unfold try_except, try_except_when. now intros ->. Qed.

Lemma try_except_caught {A : Type} (m : M A) (handler : exn -> M A)
    (w w' : World) (e : exn) :
  m w = (Raise e, w') -> is_Exception e = true ->
  try_except m handler w = handler e w'.
Proof. unfold try_except, try_except_when. now intros -> ->. Qed.

Lemma announce_ok (args : Args) (w : World) :
  exists w', Common.announce args w = (Ok tt, w') /\ cursor w' = cursor w.
Proof.
  unfold Common.announce.
  destruct (String.eqb (arg_comparison_direction args) "scripts");
    [|destruct (String.eqb (arg_comparison_direction args) "server")];
    run; eexists; split; reflexivity.
Qed.

Lemma refactored_init_connects (env : Env) (args : Args) (w : World) :
  connect_error env = None ->
  exists w',
    Refactored.init env args w = (Ok (Common.attributes args), w')
    /\ cursor w' = Connected.
Proof.
  intros Hconnect.
  unfold Refactored.init, Refactored.connect, Common.driver_connect.
  rewrite Hconnect. run. eexists. split; reflexivity.
Qed.

(** The first two stages of a run whose connection succeeds. *)
Lemma refactored_main_connected (env : Env) (args : Args) (w : World) :
  connect_error env = None ->
  exists w1,
    cursor w1 = Connected
    /\ Refactored.main env args w
       = (analyzed <-
            try_except
              (r <- Refactored.analyze_all env (Common.attributes args) args ;;
               ret (Some r))
              (fun e =>
                 logger ERROR ("Error analyzing configurations: "
                               ++ str_of_exn e) ;;
                 ret None) ;;
          match analyzed with
          | None => ret tt
          | Some (database_flagged_keys, all_scripts_flagged_keys,
                  alenza_script_warnings, aicon_script_warnings) =>
              try_except
                (Refactored.compare_and_generate
                   (Common.attributes args) database_flagged_keys
                   all_scripts_flagged_keys)
                (fun e =>
                   logger ERROR ("Error comparing database to scripts: "
                                 ++ str_of_exn e)) ;;
              try_finally
                (try_except
                   (Refactored.notify_warnings
                      (Common.attributes args)
                      (alenza_script_warnings + aicon_script_warnings)%Z)
                   (fun e =>
                      logger ERROR ("Error notifying warnings: "
                                    ++ str_of_exn e)))
                (Refactored.close_connection (Common.attributes args))
          end) w1.
Proof.
  intros Hconnect.
  destruct (announce_ok args w) as (w0 & Hann & _).
  destruct (refactored_init_connects env args w0 Hconnect)
    as (w1 & Hinit & Hc).
  exists w1. split; [exact Hc|].
  unfold Refactored.main.
  unfold bind at 1.
  rewrite (try_except_ok _ _ w w0 true)
    by (unfold bind; now rewrite Hann).
  cbn [negb]. unfold bind at 1.
  rewrite (try_except_ok _ _ w0 w1 (Some (Common.attributes args)))
    by (unfold bind; now rewrite Hinit).
  reflexivity.
Qed.

(** C6 in general: whenever the connection succeeds and the query then
    raises, the refactored run ends with the connection open. *)
Theorem refactored_run_leaks_connection :
  forall (env : Env) (args : Args) (w : World) (e : exn),
    connect_error env = None ->
    fetchall env = Raise e ->
    is_Exception e = true ->
    value (Refactored.main env args w) = Ok tt
    /\ cursor (world (Refactored.main env args w)) = Connected.
Proof.
  intros env args w e Hconnect Hfetch He.
  destruct (refactored_main_connected env args w Hconnect)
    as (w1 & Hc & ->).
  assert (Hraise : exists w2,
             Refactored.analyze_all env (Common.attributes args) args w1
             = (Raise e, w2) /\ cursor w2 = Connected).
  { unfold Refactored.analyze_all, Refactored.analyze_database_config,
      Refactored.fetch_data_from_db.
    rewrite Hfetch. run. rewrite He. eexists. split; [reflexivity|].
    exact Hc. }
  destruct Hraise as (w2 & Hraise & Hc2).
  match goal with
  | |- value ?run = _ /\ _ =>
      assert (Hrun : exists w3, run = (Ok tt, w3) /\ cursor w3 = Connected)
  end.
  { unfold bind at 1.
    rewrite (try_except_caught _ _ w1 w2 e)
      by (try exact He; unfold bind; now rewrite Hraise).
    run. eexists. split; [reflexivity | exact Hc2]. }
  destruct Hrun as (w3 & -> & Hc3). split; [reflexivity | exact Hc3].
Qed.

Lemma raises_compare_and_generate (mysql : MySQLCompare)
    (database_flagged_keys all_scripts_flagged_keys : dict) :
  raises_exceptions
    (Refactored.compare_and_generate mysql database_flagged_keys
                                     all_scripts_flagged_keys).
Proof.
  unfold Refactored.compare_and_generate. apply raises_bind.
  - intros w e.
    destruct (reconciler_on_dicts
                mysql database_flagged_keys all_scripts_flagged_keys w)
      as (differences & _ & Hrun & _).
    unfold value in Hrun. rewrite Hrun. discriminate.
  - intros [|d differences];
      [apply raises_logger | apply raises_generate].
Qed.

Lemma guarded_stage_returns (m : M unit) (msg : exn -> string) (w : World) :
  raises_exceptions m ->
  exists w', try_except m (fun e => logger ERROR (msg e)) w = (Ok tt, w').
Proof.
  intros Hm. unfold try_except, try_except_when. specialize (Hm w).
  destruct (m w) as [[[]|e] w'] eqn:E; cbn [fst] in Hm.
  - eauto.
  - rewrite (Hm e eq_refl). unfold logger. eauto.
Qed.

Lemma notify_then_close (self : MySQLCompare) (additional_warnings : Z)
    (msg : exn -> string) (w : World) :
  exists w',
    try_finally
      (try_except (Refactored.notify_warnings self additional_warnings)
                  (fun e => logger ERROR (msg e)))
      (Refactored.close_connection self) w
    = (Ok tt, w')
    /\ cursor w' = Closed.
Proof.
  unfold Refactored.notify_warnings, Refactored.close_connection. run.
  match goal with
  | |- context [if ?b then _ else _] => destruct b
  end; eexists; split; reflexivity.
Qed.

(** Once the three extraction passes have returned, the refactored run
    always closes the connection, whether or not the comparison or the
    remediation stage raises. *)
Theorem refactored_run_closes_after_analysis :
  forall (env : Env) (args : Args) (w : World),
    connect_error env = None ->
    (forall w1, exists r,
        value (Refactored.analyze_all env (Common.attributes args) args w1)
        = Ok r) ->
    value (Refactored.main env args w) = Ok tt
    /\ cursor (world (Refactored.main env args w)) = Closed.
Proof.
  intros env args w Hconnect Hanalysis.
  destruct (refactored_main_connected env args w Hconnect)
    as (w1 & Hc & ->).
  destruct (Hanalysis w1) as ([[[db sc] aw] iw] & Hr).
  match goal with
  | |- value ?run = _ /\ _ =>
      assert (Hrun : exists w3, run = (Ok tt, w3) /\ cursor w3 = Closed)
  end.
  { unfold bind at 1.
    destruct (Refactored.analyze_all env (Common.attributes args) args w1)
      as [r0 w2] eqn:Ha.
    unfold value in Hr. cbn [fst] in Hr. subst r0.
    rewrite (try_except_ok _ _ w1 w2 (Some (db, sc, aw, iw)))
      by (unfold bind; now rewrite Ha).
    unfold bind at 1.
    destruct (guarded_stage_returns
                (Refactored.compare_and_generate (Common.attributes args)
                                                 db sc)
                (fun e => ("Error comparing database to scripts: "
                           ++ str_of_exn e)%string)
                w2 (raises_compare_and_generate _ _ _)) as (w3 & ->).
    apply notify_then_close. }
  destruct Hrun as (w3 & -> & Hc3). split; [reflexivity | exact Hc3].
Qed.

(** A direction other than [scripts] and [server] leaves [statement]
    unbound: the first record that needs it raises. *)
Lemma unknown_direction_raises :
  value (Common.generate_missing_stored_proc_statement
           (printing "both") [mkEntry "MISSING" "X" "N/A" "Y"] initial_world)
  = Raise (UnboundLocalError
             "local variable 'statement' referenced before assignment").
Proof. reflexivity. Qed.

(** * Further properties of the code *)

(** ** What the parser returns *)

Section Fields.

Variable c : ascii.

Lemma has_char_remove_same (s : string) : has_char c (remove_char c s) = false.
Proof.
  induction s as [|x s IH]; simpl; [reflexivity|].
  destruct (Ascii.eqb x c) eqn:E; simpl; [exact IH | now rewrite E].
Qed.

Lemma split_field_without_separator (s f : string) :
  In f (split c s) -> has_char c f = false.
Proof.
  revert f. induction s as [|x s IH]; simpl; intros f Hin.
  - destruct Hin as [<-|[]]. reflexivity.
  - destruct (Ascii.eqb x c) eqn:E.
    + destruct Hin as [<-|Hin]; [reflexivity | now apply IH].
    + destruct (split c s) as [|g gs] eqn:Es.
      * destruct Hin as [<-|[]]. simpl. now rewrite E.
      * destruct Hin as [<-|Hin].
        -- simpl. rewrite E. apply IH. now left.
        -- apply IH. now right.
Qed.

Lemma split_field_is_part (d : ascii) (s f : string) :
  In f (split c s) -> has_char d f = true -> has_char d s = true.
Proof.
  revert f. induction s as [|x s IH]; simpl; intros f Hin Hf.
  - destruct Hin as [<-|[]]. discriminate.
  - destruct (Ascii.eqb x c) eqn:E.
    + destruct Hin as [<-|Hin]; [discriminate|].
      rewrite (IH f Hin Hf). apply orb_true_r.
    + destruct (split c s) as [|g gs] eqn:Es.
      * destruct Hin as [<-|[]]. simpl in Hf. rewrite orb_false_r in Hf.
        now rewrite Hf.
      * destruct Hin as [<-|Hin].
        -- simpl in Hf. apply orb_true_iff in Hf as [Hx|Hg].
           ++ now rewrite Hx.
           ++ rewrite (IH g (or_introl eq_refl) Hg). apply orb_true_r.
        -- rewrite (IH f (or_intror Hin) Hf). apply orb_true_r.
Qed.

Lemma has_char_lstrip (s : string) :
  has_char c (lstrip s) = true -> has_char c s = true.
Proof.
  induction s as [|x s IH]; simpl; [discriminate|].
  destruct (isspace x); [|exact (fun H => H)].
  intros H. rewrite (IH H). apply orb_true_r.
Qed.

Lemma has_char_rstrip (s : string) :
  has_char c (rstrip s) = true -> has_char c s = true.
Proof.
  induction s as [|x s IH]; simpl; [discriminate|].
  destruct (rstrip s) as [|y r] eqn:Er.
  - destruct (isspace x); simpl; [discriminate|].
    rewrite orb_false_r. now intros ->.
  - simpl. intros H. apply orb_true_iff in H as [Hx|Hr].
    + now rewrite Hx.
    + simpl in IH. rewrite (IH Hr). apply orb_true_r.
Qed.

Lemma has_char_strip (s : string) :
  has_char c s = false -> has_char c (strip s) = false.
Proof.
  intros Hs. unfold strip.
  destruct (has_char c (rstrip (lstrip s))) eqn:E; [|reflexivity].
  apply has_char_rstrip, has_char_lstrip in E. congruence.
Qed.

End Fields.

Lemma rstrip_idempotent (s : string) : rstrip (rstrip s) = rstrip s.
Proof.
  induction s as [|x s IH]; simpl; [reflexivity|].
  destruct (rstrip s) as [|y r] eqn:Er.
  - destruct (isspace x) eqn:Ex; simpl; [reflexivity | now rewrite Ex].
  - simpl. simpl in IH. now rewrite IH.
Qed.

Lemma rstrip_keeps_head (x : ascii) (s : string) :
  isspace x = false -> exists r, rstrip (String x s) = String x r.
Proof.
  intros Hx. simpl. destruct (rstrip s); [rewrite Hx|]; eauto.
Qed.

Lemma lstrip_head (s : string) :
  lstrip s = EmptyString
  \/ exists x t, lstrip s = String x t /\ isspace x = false.
Proof.
  induction s as [|x s IH]; simpl; [now left|].
  destruct (isspace x) eqn:Ex; [exact IH | right; eauto].
Qed.

Lemma strip_idempotent (s : string) : strip (strip s) = strip s.
Proof.
  unfold strip. destruct (lstrip_head s) as [->|(x & t & -> & Hx)].
  - reflexivity.
  - destruct (rstrip_keeps_head x t Hx) as (r & Hr).
    rewrite Hr. cbn [lstrip]. rewrite Hx, <- Hr. apply rstrip_idempotent.
Qed.

Lemma unquote_without_quotes (s : string) :
  has_char squote s = false -> has_char dquote s = false -> unquote s = s.
Proof.
  unfold unquote. induction s as [|x s IH]; simpl; [reflexivity|].
  intros Hs Hd.
  apply orb_false_iff in Hs as [Hxs Hs].
  apply orb_false_iff in Hd as [Hxd Hd].
  rewrite Hxd. simpl. rewrite Hxs. now rewrite IH.
Qed.

Lemma unquote_has_no_quote (s : string) :
  has_char squote (unquote s) = false /\ has_char dquote (unquote s) = false.
Proof.
  unfold unquote. split.
  - apply has_char_remove_same.
  - rewrite has_char_remove_other by reflexivity.
    apply has_char_remove_same.
Qed.

(** What [strip] returns of a field of the unquoted line. *)
Lemma parsed_field_is_clean (line field : string) :
  In field (split comma (unquote line)) ->
  has_char comma (strip field) = false
  /\ has_char squote (strip field) = false
  /\ has_char dquote (strip field) = false
  /\ strip (strip field) = strip field.
Proof.
  intros Hin. destruct (unquote_has_no_quote line) as [Hs Hd].
  repeat split.
  - apply has_char_strip. now apply (split_field_without_separator comma _ _ Hin).
  - apply has_char_strip.
    destruct (has_char squote field) eqn:E; [|reflexivity].
    rewrite (split_field_is_part comma squote _ _ Hin E) in Hs. discriminate.
  - apply has_char_strip.
    destruct (has_char dquote field) eqn:E; [|reflexivity].
    rewrite (split_field_is_part comma dquote _ _ Hin E) in Hd. discriminate.
  - apply strip_idempotent.
Qed.

(** X1. Whatever statement the parser accepts, the key and the value it
    returns hold no comma and no quote character, and have no white space
    at either end. *)
Theorem parsed_key_and_value_are_clean :
  forall (statement k v : string),
    Common.parse_stored_proc_statement statement = Ok (k, v) ->
    (has_char comma k = false /\ has_char squote k = false
     /\ has_char dquote k = false /\ strip k = k)
    /\
    (has_char comma v = false /\ has_char squote v = false
     /\ has_char dquote v = false /\ strip v = v).
Proof.
  intros statement k v. unfold Common.parse_stored_proc_statement, index.
  destruct (nth_error (split1 lparen statement) 1) as [line|]; [|discriminate].
  fold (unquote line).
  destruct (nth_error (split comma (unquote line)) 0) as [f0|] eqn:E0;
    [|discriminate].
  destruct (nth_error (split comma (unquote line)) 1) as [f1|] eqn:E1;
    [|discriminate].
  intros H. inversion H; subst k v.
  apply nth_error_In in E0, E1.
  split; now apply (parsed_field_is_clean line).
Qed.

Lemma parsed_key_and_value_are_clean_witness :
  (has_char comma "k" = false /\ has_char squote "k" = false
   /\ has_char dquote "k" = false /\ strip "k" = "k")
  /\
  (has_char comma "a" = false /\ has_char squote "a" = false
   /\ has_char dquote "a" = false /\ strip "a" = "a").
Proof.
  apply (parsed_key_and_value_are_clean
           "CALL SP_CREATE_CONFIG_FIELD('k', 'a,b', null);" "k" "a").
  reflexivity.
Defined.

Lemma call_statement_shape (k v : string) :
  Common.call_statement k v
  = ("CALL SP_CREATE_CONFIG_FIELD"
     ++ String lparen ("'" ++ k ++ "', '" ++ v ++ "', null);"))%string.
Proof. reflexivity. Qed.

Lemma strip_after_space (s : string) :
  strip (String " " s) = strip s.
Proof. reflexivity. Qed.

(** X2. The statement the generator writes for a key and a value reads
    back as that key and that value, provided neither holds a comma or a
    quote character nor starts or ends with white space. *)
Theorem generated_statement_parses_back :
  forall k v : string,
    has_char comma k = false -> has_char squote k = false ->
    has_char dquote k = false -> strip k = k ->
    has_char comma v = false -> has_char squote v = false ->
    has_char dquote v = false -> strip v = v ->
    Common.parse_stored_proc_statement (Common.call_statement k v)
    = Ok (k, v).
Proof.
  intros k v Hkc Hks Hkd Hk Hvc Hvs Hvd Hv.
  rewrite call_statement_shape, parse_after_paren by reflexivity.
  rewrite !unquote_app.
  rewrite (unquote_without_quotes k Hks Hkd), (unquote_without_quotes v Hvs Hvd).
  change (unquote "'") with EmptyString.
  change (unquote "', '") with (String comma " ").
  change (unquote "', null);") with (String comma " null);").
  cbn [append].
  rewrite (split_at_first comma k _ Hkc).
  change (String " " (v ++ String comma " null);"))
    with ((String " " v) ++ String comma " null);")%string.
  rewrite (split_at_first comma (String " " v)) by exact Hvc.
  cbn [index nth_error]. now rewrite Hk, strip_after_space, Hv.
Qed.

Lemma generated_statement_parses_back_witness :
  Common.parse_stored_proc_statement
    (Common.call_statement "max.retries" "3")
  = Ok ("max.retries", "3").
Proof.
  apply generated_statement_parses_back; reflexivity.
Defined.

(** X3. A statement line without an opening parenthesis makes the parser
    raise [IndexError], and with it the pass that reads the line. *)
Theorem statement_without_parenthesis_is_fatal :
  forall (env : Env) (self : MySQLCompare)
         (scripts_dir substring_condition : string)
         (file : ScriptFile) (line : string) (w : World),
    In file (rglob env (Common.files_directory_of env scripts_dir)) ->
    is_selected env self file = true ->
    In line (lines file) ->
    Common.is_statement_line line = true ->
    has_char lparen line = false ->
    Common.parse_stored_proc_statement line = Raise OUT_OF_RANGE
    /\ value (Common.analyze_scripts_config env self scripts_dir
                                            substring_condition w)
       = Raise OUT_OF_RANGE.
Proof.
  intros env self scripts_dir substring_condition file line w
         Hfile Hsel Hline Hstmt Hparen.
  pose proof (parse_without_paren line Hparen) as Hparse.
  split; [exact Hparse|].
  unfold Common.analyze_scripts_config. run.
  match goal with
  | |- context [for_each ?fs (Common.select_script env self) [] ?w0] =>
      destruct (select_scripts_filter env self fs [] w0) as (w1 & Hsel1);
      rewrite Hsel1
  end.
  cbn [app].
  match goal with
  | |- context [for_each ?fs (Common.scan_file _) ?s ?w0] =>
      assert (Hbad : value (for_each fs (Common.scan_file substring_condition)
                                     s w0) = Raise OUT_OF_RANGE)
  end.
  { apply scan_files_fatal. exists file, line.
    split; [|auto]. apply filter_In. auto. }
  match goal with
  | |- context [for_each ?fs (Common.scan_file _) ?s ?w0] =>
      destruct (for_each fs (Common.scan_file substring_condition) s w0)
        as [[st|e] w2]
  end; run in Hbad; [discriminate | now inversion Hbad].
Qed.

Lemma statement_without_parenthesis_is_fatal_witness :
  Common.parse_stored_proc_statement "CALL SP_REFRESH;" = Raise OUT_OF_RANGE
  /\ value (Common.analyze_scripts_config
              bare_call quiet Common.ALENZA_CONFIG_SCRIPTS_RELATIVE ""
              initial_world)
     = Raise OUT_OF_RANGE.
Proof.
  apply (statement_without_parenthesis_is_fatal
           bare_call quiet Common.ALENZA_CONFIG_SCRIPTS_RELATIVE ""
           {| path := "/repo/alenza/config/inserts/001.sql";
              lines := ["CALL SP_REFRESH;"] |}
           "CALL SP_REFRESH;" initial_world).
  - simpl. left. reflexivity.
  - reflexivity.
  - simpl. left. reflexivity.
  - reflexivity.
  - reflexivity.
Defined.

(** ** What a method leaves untouched *)

Section Preserved.

Context {X : Type} (component : World -> X).

Lemma preserves_ret {A : Type} (a : A) : preserves component (ret a).
Proof. intros w. reflexivity. Qed.

Lemma preserves_raise {A : Type} (e : exn) :
  preserves component (@raise A e).
Proof. intros w. reflexivity. Qed.

Lemma preserves_lift {A : Type} (r : result A) : preserves component (lift r).
Proof. intros w. reflexivity. Qed.

Lemma preserves_bind {A B : Type} (m : M A) (k : A -> M B) :
  preserves component m -> (forall a, preserves component (k a)) ->
  preserves component (bind m k).
Proof.
  intros Hm Hk w. unfold bind. specialize (Hm w).
  destruct (m w) as [[a|e] w']; cbn [snd] in *.
  - now rewrite Hk.
  - exact Hm.
Qed.

Lemma preserves_try_except_when {A : Type} (catches : exn -> bool) (m : M A)
    (handler : exn -> M A) :
  preserves component m -> (forall e, preserves component (handler e)) ->
  preserves component (try_except_when catches m handler).
Proof.
  intros Hm Hh w. unfold try_except_when. specialize (Hm w).
  destruct (m w) as [[a|e] w']; cbn [snd] in *; [exact Hm|].
  destruct (catches e); [now rewrite Hh | exact Hm].
Qed.

Lemma preserves_for_each {A B : Type} (l : list B) (body : A -> B -> M A) :
  (forall s x, preserves component (body s x)) ->
  forall s, preserves component (for_each l body s).
Proof.
  intros Hbody. induction l as [|x l IH]; intros s.
  - apply preserves_ret.
  - cbn [for_each]. intros w. unfold bind. specialize (Hbody s x w).
    destruct (body s x w) as [[s'|e] w']; cbn [snd] in *.
    + now rewrite IH.
    + exact Hbody.
Qed.

End Preserved.

(** Goals [preserves component m], taken apart along the structure of
    [m]; the operations of the monad are settled by computation. *)
Ltac untouched :=
  repeat first
    [ progress cbv zeta
    | apply preserves_ret | apply preserves_raise | apply preserves_lift
    | match goal with
      | |- preserves _ (logger _ _) => intros ?; reflexivity
      | |- preserves _ (print _) => intros ?; reflexivity
      | |- preserves _ (set_cursor _) => intros ?; reflexivity
      | |- preserves _ (add_TOTAL_WARNINGS _) => intros ?; reflexivity
      | |- preserves _ get_TOTAL_WARNINGS => intros ?; reflexivity
      | |- preserves _ Common.logging_line_break => intros ?; reflexivity
      end
    | apply preserves_bind
    | apply preserves_for_each
    | apply preserves_try_except_when
    | progress intros
    | match goal with
      | |- preserves _ (if ?b then _ else _) => destruct b
      | |- preserves _ (match ?x with _ => _ end) => destruct x
      end ].

Lemma script_pass_keeps (X : Type) (component : World -> X)
    (env : Env) (self : MySQLCompare)
    (scripts_dir substring_condition : string) :
  (forall lvl msg, preserves component (logger lvl msg)) ->
  preserves component
    (Common.analyze_scripts_config env self scripts_dir substring_condition).
Proof.
  intros Hlog.
  assert (Hselect : forall files file,
             preserves component (Common.select_script env self files file)).
  { intros files file. unfold Common.select_script.
    untouched; apply Hlog. }
  assert (Hline : forall st line,
             preserves component (Common.scan_line substring_condition st line)).
  { intros st line. unfold Common.scan_line. untouched; apply Hlog. }
  assert (Hfile : forall st file,
             preserves component (Common.scan_file substring_condition st file)).
  { intros st file. unfold Common.scan_file.
    repeat first [ apply preserves_bind | apply Hlog | apply preserves_ret
                 | apply preserves_for_each | apply Hline | intros ]. }
  unfold Common.analyze_scripts_config.
  repeat first [ progress cbv zeta | apply preserves_bind | apply Hlog
               | apply preserves_ret | apply preserves_for_each
               | apply Hselect | apply Hfile | intros ].
Qed.

(** ** The script pass as a fold over its observations *)

Section Observations.

Variable substring_condition : string.

Let keep := Refactored.filter_row substring_condition.
Let as_row := fun kv : string * string => mkRow (fst kv) (snd kv) NEVER.

Lemma observe_fold_mapping (observations : list (string * string)) :
  forall d n,
    fst (fold_left (observe substring_condition) observations (d, n))
    = fold_left keep (map as_row observations) d.
Proof.
  induction observations as [|[k v] l IH]; intros d n; [reflexivity|].
  cbn [fold_left map]. unfold observe at 2. cbn [fst snd].
  rewrite IH. reflexivity.
Qed.

Lemma retained_as_rows (observations : list (string * string)) :
  retained substring_condition (map as_row observations)
  = retained_pairs substring_condition observations.
Proof.
  unfold retained, retained_pairs.
  induction observations as [|[k v] l IH]; [reflexivity|].
  cbn [map filter]. change (never_expires (as_row (k, v))) with true.
  cbn [andb as_row config_name fst snd].
  destruct (takes_key substring_condition k); cbn [map]; now rewrite IH.
Qed.

Lemma observe_fold_count (observations : list (string * string)) :
  forall d n,
    (forall k, In k (dict_keys d) -> takes_key substring_condition k = true) ->
    snd (fold_left (observe substring_condition) observations (d, n))
    = (n + Z.of_nat (length (retained_pairs substring_condition observations))
       - (Z.of_nat
            (length (fst (fold_left (observe substring_condition)
                                    observations (d, n))))
          - Z.of_nat (length d)))%Z.
Proof.
  unfold retained_pairs.
  induction observations as [|[k v] l IH]; intros d n Hd.
  - cbn. lia.
  - cbn [fold_left filter]. unfold observe at 2 4. cbn [fst snd].
    destruct (dict_contains k d) eqn:Hc.
    + assert (Ht : takes_key substring_condition k = true)
        by (apply Hd; now apply dict_contains_In).
      rewrite Ht. rewrite IH.
      * rewrite dict_set_length, Hc. cbn [length]. lia.
      * intros k0. rewrite dict_keys_set, Hc. apply Hd.
    + destruct (takes_key substring_condition k) eqn:Ht.
      * rewrite IH.
        -- rewrite dict_set_length, Hc. cbn [length]. lia.
        -- intros k0. rewrite dict_keys_set, Hc, in_app_iff.
           intros [H|[<-|[]]]; auto.
      * now rewrite IH.
Qed.

(** The mapping and the count a pass draws from its observations. *)
Lemma observe_fold_summary (observations : list (string * string)) :
  let kept := retained_pairs substring_condition observations in
  let mapping :=
    fst (fold_left (observe substring_condition) observations ([], 0%Z)) in
  let count :=
    snd (fold_left (observe substring_condition) observations ([], 0%Z)) in
  count = (Z.of_nat (length kept) - Z.of_nat (distinct_keys kept))%Z
  /\ NoDup (dict_keys mapping)
  /\ (forall k, dict_get mapping k = last_value kept k)
  /\ (forall k, In k (dict_keys mapping) <-> In k (map fst kept)).
Proof.
  intros kept mapping count. subst kept mapping count.
  rewrite observe_fold_count by (intros k []).
  unfold dict in *. rewrite !observe_fold_mapping, <- retained_as_rows.
  fold keep. rewrite (filter_rows_distinct substring_condition).
  split; [cbn [length]; lia|]. split; [|split].
  - apply filter_rows_NoDup. constructor.
  - intros k. unfold keep. rewrite filter_rows_last_value.
    now destruct (last_value _ k).
  - intros k. unfold keep. rewrite filter_rows_keys. cbn. tauto.
Qed.

Lemma scan_lines_observe (lines : list string) :
  forall observations st w,
    statements_of lines = Ok observations ->
    exists st' w',
      for_each lines (Common.scan_line substring_condition) st w
      = (Ok st', w')
      /\ (Common.flagged_keys st', Common.total_warnings st')
         = fold_left (observe substring_condition) observations
                     (Common.flagged_keys st, Common.total_warnings st)
      /\ same_but_log w w'.
Proof.
  induction lines as [|l lines IH]; intros observations st w Hobs.
  - inversion Hobs. exists st, w. repeat split.
  - cbn [statements_of] in Hobs. cbn [for_each]. unfold bind at 1.
    destruct (Common.is_statement_line l) eqn:Hl.
    + destruct (Common.parse_stored_proc_statement l) as [[k v]|e] eqn:Hp;
        [|discriminate].
      destruct (statements_of lines) as [rest|e] eqn:Hrest; [|discriminate].
      inversion Hobs; subst observations. clear Hobs.
      unfold Common.scan_line at 1.
      unfold Common.is_statement_line in Hl. apply negb_true_iff in Hl.
      rewrite Hl, Hp. cbn [fold_left]. unfold observe at 2. cbn [fst snd].
      run.
      destruct (dict_contains k (Common.flagged_keys st));
        destruct (takes_key substring_condition k); run;
        match goal with
        | |- context [for_each lines _ ?st1 ?w1] =>
            destruct (IH rest st1 w1 eq_refl) as (st' & w' & Hrun & Hfold & Hw)
        end;
        exists st', w';
        (split; [exact Hrun|]; split; [exact Hfold|];
         eapply same_but_log_trans; [|exact Hw]; repeat split).
    + rewrite (scan_line_skips _ _ _ _ Hl). now apply IH.
Qed.

Lemma statements_of_app (a b : list string) :
  statements_of (a ++ b)
  = match statements_of a with
    | Raise e => Raise e
    | Ok front =>
        match statements_of b with
        | Ok back => Ok (front ++ back)
        | Raise e => Raise e
        end
    end.
Proof.
  induction a as [|l a IH]; cbn [app statements_of].
  - now destruct (statements_of b).
  - destruct (Common.is_statement_line l); [|exact IH].
    destruct (Common.parse_stored_proc_statement l); [|reflexivity].
    rewrite IH. destruct (statements_of a); [|reflexivity].
    now destruct (statements_of b).
Qed.

Lemma scan_files_observe (files : list ScriptFile) :
  forall observations st w,
    statements_of (concat (map lines files)) = Ok observations ->
    exists st' w',
      for_each files (Common.scan_file substring_condition) st w
      = (Ok st', w')
      /\ (Common.flagged_keys st', Common.total_warnings st')
         = fold_left (observe substring_condition) observations
                     (Common.flagged_keys st, Common.total_warnings st)
      /\ same_but_log w w'.
Proof.
  induction files as [|f files IH]; intros observations st w Hobs.
  - inversion Hobs. exists st, w. repeat split.
  - cbn [map concat] in Hobs. rewrite statements_of_app in Hobs.
    destruct (statements_of (lines f)) as [front|e] eqn:Hfront;
      [|discriminate].
    destruct (statements_of (concat (map lines files))) as [back|e] eqn:Hback;
      [|discriminate].
    inversion Hobs; subst observations. clear Hobs.
    cbn [for_each]. unfold bind at 1. unfold Common.scan_file at 1. run.
    match goal with
    | |- context [for_each (lines f) _ ?st0 ?w0] =>
        destruct (scan_lines_observe (lines f) front st0 w0 Hfront)
          as (st1 & w1 & Hrun1 & Hfold1 & Hw1)
    end.
    rewrite Hrun1. cbn [Common.flagged_keys Common.total_warnings] in Hfold1.
    match goal with
    | |- context [for_each files _ st1 ?w2] =>
        destruct (IH back st1 w2 eq_refl) as (st' & w' & Hrun & Hfold & Hw)
    end.
    exists st', w'. split; [exact Hrun|]. split.
    + rewrite fold_left_app, <- Hfold1. exact Hfold.
    + eapply same_but_log_trans; [|exact Hw].
      destruct Hw1 as (A & B & C). repeat split; assumption.
Qed.

End Observations.

Lemma statements_of_raise (lines : list string) (e : exn) :
  statements_of lines = Raise e ->
  e = OUT_OF_RANGE
  /\ exists line, In line lines /\ Common.is_statement_line line = true /\
                  Common.parse_stored_proc_statement line = Raise OUT_OF_RANGE.
Proof.
  induction lines as [|l lines IH]; cbn [statements_of]; [discriminate|].
  destruct (Common.is_statement_line l) eqn:Hl.
  - destruct (Common.parse_stored_proc_statement l) as [kv|e0] eqn:Hp.
    + destruct (statements_of lines) as [rest|e1]; [discriminate|].
      intros H. inversion H; subst e1.
      destruct (IH eq_refl) as (He & line & Hin & Hs & Hr).
      split; [exact He|]. exists line. simpl. auto.
    + intros H. inversion H; subst e0.
      pose proof (parse_raises_only l e Hp) as He. subst e.
      split; [reflexivity|]. exists l. simpl. auto.
  - intros H. destruct (IH H) as (He & line & Hin & Hs & Hr).
    split; [exact He|]. exists line. simpl. auto.
Qed.

(** The value of a script pass, read off the lines of the files it keeps:
    the fold of its observations, or the parser's exception. *)
Lemma script_pass_value (env : Env) (self : MySQLCompare)
    (scripts_dir substring_condition : string) (w : World) :
  value (Common.analyze_scripts_config env self scripts_dir
                                       substring_condition w)
  = match statements_of
            (lines_read env self
               (rglob env (Common.files_directory_of env scripts_dir))) with
    | Ok observations =>
        Ok (fold_left (observe substring_condition) observations ([], 0%Z))
    | Raise e => Raise e
    end.
Proof.
  unfold Common.analyze_scripts_config, lines_read. run.
  match goal with
  | |- context [for_each ?fs (Common.select_script env self) [] ?w0] =>
      destruct (select_scripts_filter env self fs [] w0) as (w1 & Hsel1);
      rewrite Hsel1
  end.
  cbn [app].
  set (files := filter (is_selected env self)
                       (rglob env (Common.files_directory_of env scripts_dir))).
  destruct (statements_of (concat (map lines files))) as [observations|e]
    eqn:Hobs.
  - match goal with
    | |- context [for_each files _ ?st0 ?w0] =>
        destruct (scan_files_observe substring_condition files observations
                                     st0 w0 Hobs)
          as (st' & w' & Hrun & Hfold & _)
    end.
    rewrite Hrun.
    cbn [Common.flagged_keys Common.total_warnings] in Hfold.
    unfold dict in *. now rewrite <- Hfold.
  - apply statements_of_raise in Hobs as (-> & line & Hin & Hs & Hr).
    apply in_concat in Hin as (ls & Hls & Hin).
    apply in_map_iff in Hls as (file & <- & Hfile).
    match goal with
    | |- context [for_each files _ ?st0 ?w0] =>
        pose proof (scan_files_fatal substring_condition files
                      (ex_intro _ file
                         (ex_intro _ line
                            (conj Hfile (conj Hin (conj Hs Hr)))))
                      st0 w0) as Hbad;
        destruct (for_each files (Common.scan_file substring_condition)
                           st0 w0) as [[st|e] w2]
    end; run in Hbad; [discriminate | now inversion Hbad].
Qed.

(** X4. When every statement line it reads parses, a script pass returns
    a mapping and a count such that: the count is the number of
    observations whose key passes the substring filter minus the number of
    distinct keys among them; the mapping has one entry per such key, with
    the value of its last observation.  Observations are counted across
    all the files of the pass. *)
Theorem script_pass_counts_duplicates :
  forall (env : Env) (self : MySQLCompare)
         (scripts_dir substring_condition : string) (w : World)
         (observations : list (string * string)),
    statements_of
      (lines_read env self
         (rglob env (Common.files_directory_of env scripts_dir)))
    = Ok observations ->
    let kept := retained_pairs substring_condition observations in
    exists mapping count,
      value (Common.analyze_scripts_config env self scripts_dir
                                           substring_condition w)
      = Ok (mapping, count)
      /\ count = (Z.of_nat (length kept) - Z.of_nat (distinct_keys kept))%Z
      /\ NoDup (dict_keys mapping)
      /\ (forall k, dict_get mapping k = last_value kept k)
      /\ (forall k, In k (dict_keys mapping) <-> In k (map fst kept)).
Proof.
  intros env self scripts_dir substring_condition w observations Hobs kept.
  rewrite script_pass_value, Hobs.
  destruct (observe_fold_summary substring_condition observations)
    as (Hcount & Hnodup & Hlast & Hkeys).
  destruct (fold_left (observe substring_condition) observations ([], 0%Z))
    as [mapping count] eqn:Hfold.
  exists mapping, count. cbn [fst snd] in *. auto.
Qed.

Lemma script_pass_counts_duplicates_witness :
  exists mapping count,
    value (Common.analyze_scripts_config
             key_set_twice quiet Common.ALENZA_CONFIG_SCRIPTS_RELATIVE ""
             initial_world)
    = Ok (mapping, count)
    /\ count = (Z.of_nat (length (retained_pairs "" [("A", "1"); ("A", "2")]))
                - Z.of_nat (distinct_keys
                              (retained_pairs "" [("A", "1"); ("A", "2")])))%Z
    /\ NoDup (dict_keys mapping)
    /\ (forall k, dict_get mapping k
                  = last_value (retained_pairs "" [("A", "1"); ("A", "2")]) k)
    /\ (forall k, In k (dict_keys mapping)
                  <-> In k (map fst (retained_pairs ""
                                       [("A", "1"); ("A", "2")]))).
Proof.
  apply (script_pass_counts_duplicates
           key_set_twice quiet Common.ALENZA_CONFIG_SCRIPTS_RELATIVE ""
           initial_world [("A", "1"); ("A", "2")]).
  reflexivity.
Defined.

Lemma lines_read_with_files (env : Env) (self : MySQLCompare)
    (files others : list ScriptFile) :
  lines_read (with_files env others) self files = lines_read env self files.
Proof. reflexivity. Qed.

Lemma script_pass_value_with_files (env : Env) (self : MySQLCompare)
    (files : list ScriptFile) (scripts_dir substring_condition : string)
    (w : World) :
  value (Common.analyze_scripts_config (with_files env files) self scripts_dir
                                       substring_condition w)
  = match statements_of (lines_read env self files) with
    | Ok observations =>
        Ok (fold_left (observe substring_condition) observations ([], 0%Z))
    | Raise e => Raise e
    end.
Proof. now rewrite script_pass_value. Qed.

(** X5. A file that lies under the client-specific directory is left
    unread when no client keyword is given, or when the keyword is not in
    its path: the pass returns what it returns without the file, even if
    the file holds a statement that does not parse. *)
Theorem client_specific_file_is_skipped :
  forall (env : Env) (self : MySQLCompare)
         (before after : list ScriptFile) (file : ScriptFile)
         (scripts_dir substring_condition : string) (w : World),
    str_in (Common.normpath (OPERATING_SYSTEM env)
                            Common.CLIENT_SPECIFIC_DIRECTORY) (path file)
    = true ->
    Common.keyword_given self = false
    \/ Common.keyword_in self (path file) = false ->
    value (Common.analyze_scripts_config
             (with_files env (before ++ file :: after)) self scripts_dir
             substring_condition w)
    = value (Common.analyze_scripts_config
               (with_files env (before ++ after)) self scripts_dir
               substring_condition w).
Proof.
  intros env self before after file scripts_dir substring_condition w
         Hclient Hkeyword.
  rewrite !script_pass_value_with_files.
  assert (Hsel : is_selected env self file = false).
  { unfold is_selected. rewrite Hclient.
    destruct Hkeyword as [-> | ->]; [reflexivity | apply andb_false_r]. }
  unfold lines_read. rewrite !filter_app. cbn [filter]. now rewrite Hsel.
Qed.

Lemma client_specific_file_is_skipped_witness :
  value (Common.analyze_scripts_config
           (with_files key_set_twice
              ([] ++ {| path := "/repo/aicon/config/inserts/client/acme.sql";
                        lines := ["CALL BROKEN"] |}
                  :: rglob key_set_twice ""))
           quiet Common.AICON_CONFIG_SCRIPTS_RELATIVE "" initial_world)
  = value (Common.analyze_scripts_config
             (with_files key_set_twice ([] ++ rglob key_set_twice ""))
             quiet Common.AICON_CONFIG_SCRIPTS_RELATIVE "" initial_world).
Proof.
  apply (client_specific_file_is_skipped key_set_twice quiet []).
  - reflexivity.
  - left. reflexivity.
Defined.

Lemma statements_of_skip (before after : list string) (line : string) :
  Common.is_statement_line line = false ->
  statements_of (before ++ line :: after) = statements_of (before ++ after).
Proof.
  intros Hline. rewrite !statements_of_app. cbn [statements_of].
  now rewrite Hline.
Qed.

(** X6. A line that does not start with [CALL], or that holds [CAST], is
    passed over: taken out of its file, it leaves the result of the pass as
    it was. *)
Theorem other_lines_are_ignored :
  forall (env : Env) (self : MySQLCompare)
         (files_before files_after : list ScriptFile) (name : string)
         (before after : list string) (line : string)
         (scripts_dir substring_condition : string) (w : World),
    startswith line "CALL" = false \/ str_in "CAST" line = true ->
    value (Common.analyze_scripts_config
             (with_files env
                (files_before
                 ++ {| path := name; lines := before ++ line :: after |}
                 :: files_after))
             self scripts_dir substring_condition w)
    = value (Common.analyze_scripts_config
               (with_files env
                  (files_before
                   ++ {| path := name; lines := before ++ after |}
                   :: files_after))
               self scripts_dir substring_condition w).
Proof.
  intros env self files_before files_after name before after line
         scripts_dir substring_condition w Hline.
  assert (Hskip : Common.is_statement_line line = false).
  { unfold Common.is_statement_line. apply negb_false_iff.
    destruct Hline as [-> | ->]; [reflexivity | apply orb_true_r]. }
  rewrite !script_pass_value_with_files.
  unfold lines_read. rewrite !filter_app. cbn [filter].
  change (is_selected env self
            {| path := name; lines := before ++ line :: after |})
    with (is_selected env self {| path := name; lines := before ++ after |}).
  destruct (is_selected env self {| path := name; lines := before ++ after |});
    [|reflexivity].
  rewrite !map_app, !concat_app. cbn [map concat lines].
  set (front := concat (map lines (filter (is_selected env self)
                                           files_before))).
  set (back := concat (map lines (filter (is_selected env self)
                                          files_after))).
  rewrite (statements_of_app front ((before ++ line :: after) ++ back)).
  rewrite (statements_of_app (before ++ line :: after) back).
  rewrite (statements_of_skip before after line Hskip).
  rewrite (statements_of_app front ((before ++ after) ++ back)).
  now rewrite (statements_of_app (before ++ after) back).
Qed.

Lemma other_lines_are_ignored_witness :
  value (Common.analyze_scripts_config
           (with_files key_set_twice
              ([] ++ {| path := "/repo/alenza/config/inserts/002.sql";
                        lines :=
                          ["CALL SP_CREATE_CONFIG_FIELD('B', '1', null);"]
                          ++ "CALL SP_CREATE_CONFIG_FIELD('C', CAST(1 AS CHAR), null);"
                          :: [] |}
                  :: []))
           quiet Common.ALENZA_CONFIG_SCRIPTS_RELATIVE "" initial_world)
  = value (Common.analyze_scripts_config
             (with_files key_set_twice
                ([] ++ {| path := "/repo/alenza/config/inserts/002.sql";
                          lines :=
                            ["CALL SP_CREATE_CONFIG_FIELD('B', '1', null);"]
                            ++ [] |}
                    :: []))
             quiet Common.ALENZA_CONFIG_SCRIPTS_RELATIVE "" initial_world).
Proof.
  apply (other_lines_are_ignored key_set_twice quiet [] []).
  right. reflexivity.
Defined.

(** X7. A script pass only logs: whatever it reads, and whether it returns
    or raises, it leaves the warning total, the standard output and the
    connection as they were.  Its count of duplicates is handed back to
    the caller, not added to the total. *)
Theorem script_pass_only_logs :
  forall (env : Env) (self : MySQLCompare)
         (scripts_dir substring_condition : string) (w : World),
    let after :=
      world (Common.analyze_scripts_config env self scripts_dir
                                           substring_condition w) in
    TOTAL_WARNINGS after = TOTAL_WARNINGS w
    /\ stdout after = stdout w
    /\ cursor after = cursor w.
Proof.
  intros env self scripts_dir substring_condition w after. subst after.
  unfold world. repeat split.
  - apply (script_pass_keeps Z TOTAL_WARNINGS). intros lvl msg w0. reflexivity.
  - apply (script_pass_keeps _ stdout). intros lvl msg w0. reflexivity.
  - apply (script_pass_keeps _ cursor). intros lvl msg w0. reflexivity.
Qed.

(** ** More on the reconciler *)

Section ReconcilerRecords.

Variables database_keys script_keys : dict.

Lemma compare_keys_names (names : list string) :
  forall differences,
    (forall n, In n names -> In n (dict_keys script_keys)) ->
    exists added,
      Common.compare_keys (PyDict database_keys) (PyDict script_keys)
                          names differences
      = (differences ++ added, None)
      /\ map entry_name added
         = filter (differs database_keys script_keys) names.
Proof.
  induction names as [|n names IH]; intros differences Hnames.
  - exists []. cbn [Common.compare_keys]. now rewrite app_nil_r.
  - assert (Hn : In n (dict_keys script_keys)) by (apply Hnames; now left).
    apply dict_contains_In in Hn. unfold dict_contains in Hn.
    destruct (dict_get script_keys n) as [sv|] eqn:Hs; [|discriminate].
    assert (Hrest : forall m, In m names -> In m (dict_keys script_keys))
      by (intros m Hm; apply Hnames; now right).
    cbn [Common.compare_keys filter]. unfold Common.compare_key.
    cbn [contains getitem]. unfold dict_contains. rewrite Hs.
    destruct (dict_get database_keys n) as [dv|] eqn:Hd.
    + assert (Hdif : differs database_keys script_keys n
                     = negb (String.eqb sv dv))
        by (unfold differs; now rewrite Hd, Hs).
      rewrite Hdif.
      destruct (String.eqb sv dv); cbn [negb].
      * apply IH, Hrest.
      * destruct (IH (differences ++ [mkEntry "CHANGE" n dv sv]) Hrest)
          as (added & Hrun & Hnames').
        exists (mkEntry "CHANGE" n dv sv :: added).
        rewrite Hrun, <- app_assoc. cbn [map entry_name].
        now rewrite Hnames'.
    + assert (Hdif : differs database_keys script_keys n = true)
        by (unfold differs; now rewrite Hd).
      rewrite Hdif.
      destruct (IH (differences ++ [mkEntry "MISSING" n "N/A" sv]) Hrest)
        as (added & Hrun & Hnames').
      exists (mkEntry "MISSING" n "N/A" sv :: added).
      rewrite Hrun, <- app_assoc. cbn [map entry_name].
      now rewrite Hnames'.
Qed.

Lemma compare_keys_empty_database (items : dict) :
  forall differences,
    (forall k v, In (k, v) items -> dict_get script_keys k = Some v) ->
    Common.compare_keys (PyDict []) (PyDict script_keys)
                        (dict_keys items) differences
    = (differences
       ++ map (fun kv => mkEntry "MISSING" (fst kv) "N/A" (snd kv)) items,
       None).
Proof.
  induction items as [|[k v] items IH]; intros differences Hitems.
  - cbn. now rewrite app_nil_r.
  - cbn [dict_keys map fst snd Common.compare_keys].
    unfold Common.compare_key. cbn [contains getitem dict_contains dict_get].
    rewrite (Hitems k v) by (now left).
    fold (dict_keys items). rewrite IH by (intros; apply Hitems; now right).
    now rewrite <- app_assoc.
Qed.

End ReconcilerRecords.

Lemma reconciler_value (self : MySQLCompare) (database_keys script_keys : dict)
    (w : World) (differences : list Entry) :
  Common.compare_loop (PyDict database_keys) (PyDict script_keys)
  = (differences, None) ->
  value (Original.compare_database_to_scripts
           self (PyDict database_keys) (PyDict script_keys) w)
  = Ok differences
  /\ value (Refactored.compare_database_to_scripts
              self (PyDict database_keys) (PyDict script_keys) w)
     = Ok differences.
Proof.
  intros Hloop.
  unfold Original.compare_database_to_scripts,
    Refactored.compare_database_to_scripts.
  cbn [is_dict negb orb]. rewrite Hloop.
  split; run; now destruct (is_print_table_diff self).
Qed.

(** X8. The records the reconciler returns are, in the order of the
    scripts mapping, one for each key of the scripts that the database
    misses or holds with another value, and none for any other key. *)
Theorem reconciler_reports_each_difference_once :
  forall (self : MySQLCompare) (database_keys script_keys : dict) (w : World),
    exists differences,
      value (Original.compare_database_to_scripts
               self (PyDict database_keys) (PyDict script_keys) w)
      = Ok differences
      /\ value (Refactored.compare_database_to_scripts
                  self (PyDict database_keys) (PyDict script_keys) w)
         = Ok differences
      /\ map entry_name differences
         = filter (differs database_keys script_keys) (dict_keys script_keys).
Proof.
  intros self database_keys script_keys w.
  destruct (compare_keys_names database_keys script_keys
              (dict_keys script_keys) [] (fun n H => H))
    as (added & Hrun & Hnames).
  exists added.
  destruct (reconciler_value self database_keys script_keys w added)
    as [Ho Hr]; [exact Hrun | auto].
Qed.

(** X9. Every record the reconciler returns is true of the two mappings:
    a CHANGE record carries the value each side holds for the key, and the
    two differ; a MISSING record is for a key the database does not hold,
    carries [N/A] for the database and the value of the scripts. *)
Theorem reconciler_records_are_true :
  forall (self : MySQLCompare) (database_keys script_keys : dict) (w : World),
    exists differences,
      value (Original.compare_database_to_scripts
               self (PyDict database_keys) (PyDict script_keys) w)
      = Ok differences
      /\ value (Refactored.compare_database_to_scripts
                  self (PyDict database_keys) (PyDict script_keys) w)
         = Ok differences
      /\ forall e, In e differences ->
           (difference_type e = "CHANGE"
            /\ dict_get database_keys (entry_name e) = Some (value_database e)
            /\ dict_get script_keys (entry_name e) = Some (value_script e)
            /\ value_script e <> value_database e)
           \/
           (difference_type e = "MISSING"
            /\ dict_get database_keys (entry_name e) = None
            /\ value_database e = "N/A"
            /\ dict_get script_keys (entry_name e) = Some (value_script e)).
Proof.
  intros self database_keys script_keys w.
  destruct (reconciler_on_dicts self database_keys script_keys w)
    as (differences & Ho & Hr & Hin & _).
  exists differences. repeat split; try assumption.
  intros e He. now apply Hin.
Qed.

(** X10. Against an empty database mapping every key of the scripts is
    reported missing, in order, with its script value. *)
Theorem empty_database_reports_all_missing :
  forall (self : MySQLCompare) (script_keys : dict) (w : World),
    NoDup (dict_keys script_keys) ->
    let expected :=
      map (fun kv => mkEntry "MISSING" (fst kv) "N/A" (snd kv)) script_keys in
    value (Original.compare_database_to_scripts
             self (PyDict []) (PyDict script_keys) w)
    = Ok expected
    /\ value (Refactored.compare_database_to_scripts
                self (PyDict []) (PyDict script_keys) w)
       = Ok expected.
Proof.
  intros self script_keys w Hnd expected.
  apply reconciler_value. unfold Common.compare_loop. cbn [iter].
  now rewrite (compare_keys_empty_database script_keys script_keys []
                 (fun k v H => dict_get_In script_keys k v Hnd H)).
Qed.

Lemma empty_database_reports_all_missing_witness :
  value (Original.compare_database_to_scripts
           quiet (PyDict []) (PyDict scenario_scripts) initial_world)
  = Ok [ mkEntry "MISSING" "A" "N/A" "1"; mkEntry "MISSING" "B" "N/A" "3";
         mkEntry "MISSING" "C" "N/A" "4" ]
  /\ value (Refactored.compare_database_to_scripts
              quiet (PyDict []) (PyDict scenario_scripts) initial_world)
     = Ok [ mkEntry "MISSING" "A" "N/A" "1"; mkEntry "MISSING" "B" "N/A" "3";
            mkEntry "MISSING" "C" "N/A" "4" ].
Proof.
  apply (empty_database_reports_all_missing quiet scenario_scripts
                                            initial_world).
  repeat constructor; simpl; intuition discriminate.
Defined.

Lemma reconciler_records_are_true_witness :
  (difference_type (mkEntry "CHANGE" "B" "2" "3") = "CHANGE"
   /\ dict_get scenario_database "B" = Some "2"
   /\ dict_get scenario_scripts "B" = Some "3"
   /\ "3" <> "2")
  \/
  (difference_type (mkEntry "CHANGE" "B" "2" "3") = "MISSING"
   /\ dict_get scenario_database "B" = None
   /\ "2" = "N/A"
   /\ dict_get scenario_scripts "B" = Some "3").
Proof.
  destruct (reconciler_records_are_true
              quiet scenario_database scenario_scripts initial_world)
    as (differences & Horiginal & _ & Htrue).
  apply (Htrue (mkEntry "CHANGE" "B" "2" "3")).
  assert (Heq : Ok differences
                = Ok [ mkEntry "CHANGE" "B" "2" "3";
                       mkEntry "MISSING" "C" "N/A" "4" ])
    by (rewrite <- Horiginal; reflexivity).
  inversion Heq. simpl. auto.
Defined.

(** X11. On two dictionaries the reconciler does three things and no
    more: it returns the records, it logs how many there are, and it
    prints their table when the table is asked for.  The warning total and
    the connection are left as they were, in both variants. *)
Theorem reconciler_effects :
  forall (self : MySQLCompare) (database_keys script_keys : dict) (w : World),
    exists differences,
      let after :=
        {| log := log w ++ [(INFO, ("Differences Detected: "
                                    ++ str_of_nat (length differences))%string)];
           stdout := if is_print_table_diff self
                     then stdout w ++ [Table differences] else stdout w;
           cursor := cursor w;
           TOTAL_WARNINGS := TOTAL_WARNINGS w |} in
      Original.compare_database_to_scripts
        self (PyDict database_keys) (PyDict script_keys) w
      = (Ok differences, after)
      /\ Refactored.compare_database_to_scripts
           self (PyDict database_keys) (PyDict script_keys) w
         = (Ok differences, after).
Proof.
  intros self database_keys script_keys w.
  destruct (compare_loop_dicts database_keys script_keys)
    as (differences & Hloop & _).
  exists differences.
  unfold Original.compare_database_to_scripts,
    Refactored.compare_database_to_scripts.
  cbn [is_dict negb orb]. rewrite Hloop.
  split; run; now destruct (is_print_table_diff self).
Qed.

(** ** More on the database pass *)

Lemma takes_key_spec (substring_condition k : string) :
  takes_key substring_condition k = true
  <-> substring_condition = EmptyString
      \/ str_in substring_condition k = true.
Proof.
  unfold takes_key. destruct substring_condition as [|c s]; cbn [truthy negb
    orb andb].
  - split; auto.
  - split; [now right | intros [H|H]; [discriminate | exact H]].
Qed.

(** X12. The mapping the database pass returns has one entry for each key
    that some row dated in year 9999 carries and that passes the substring
    filter (every key when the filter is empty, else the keys that contain
    it), and no other entry; both variants return it. *)
Theorem database_mapping_keys :
  forall (env : Env) (self : MySQLCompare) (substring_condition : string)
         (rows : list Row) (w : World),
    fetchall env = Ok rows ->
    exists mapping,
      value (Original.analyze_database_config env self substring_condition w)
      = Ok mapping
      /\ value (Refactored.analyze_database_config env self
                                                   substring_condition w)
         = Ok mapping
      /\ NoDup (dict_keys mapping)
      /\ forall k,
           In k (dict_keys mapping)
           <-> exists row,
                 In row rows /\ year (valid_date row) = 9999%N
                 /\ config_name row = k
                 /\ (substring_condition = EmptyString
                     \/ str_in substring_condition k = true).
Proof.
  intros env self substring_condition rows w Hfetch.
  destruct (original_analyze env self substring_condition rows w Hfetch)
    as (w1 & Ho & _).
  destruct (refactored_analyze env self substring_condition rows w Hfetch)
    as (w2 & Hr & _).
  exists (Refactored.filter_data self rows substring_condition).
  rewrite Ho, Hr. split; [reflexivity|]. split; [reflexivity|]. split.
  - apply filter_rows_NoDup. constructor.
  - intros k. unfold Refactored.filter_data. rewrite filter_rows_keys.
    unfold retained. rewrite map_map. cbn [fst dict_keys map In].
    rewrite in_map_iff. split.
    + intros [[]|(row & Hk & Hin)].
      apply filter_In in Hin as (Hin & Hkeep).
      apply andb_true_iff in Hkeep as (Hvalid & Htakes).
      exists row. repeat split; auto.
      * now apply never_expires_year.
      * apply takes_key_spec. now rewrite Hk in Htakes.
    + intros (row & Hin & Hyear & Hk & Hsub). right. exists row.
      split; [exact Hk|]. apply filter_In. split; [exact Hin|].
      apply andb_true_iff. split.
      * now apply never_expires_year.
      * rewrite Hk. now apply takes_key_spec.
Qed.

Lemma database_mapping_keys_witness :
  exists mapping,
    value (Original.analyze_database_config
             (database_of [mkRow "db.host" "h" NEVER; mkRow "ui.theme" "x" NEVER])
             quiet "db." initial_world)
    = Ok mapping
    /\ value (Refactored.analyze_database_config
                (database_of [mkRow "db.host" "h" NEVER;
                              mkRow "ui.theme" "x" NEVER])
                quiet "db." initial_world)
       = Ok mapping
    /\ NoDup (dict_keys mapping)
    /\ forall k,
         In k (dict_keys mapping)
         <-> exists row,
               In row [mkRow "db.host" "h" NEVER; mkRow "ui.theme" "x" NEVER]
               /\ year (valid_date row) = 9999%N
               /\ config_name row = k
               /\ ("db." = EmptyString \/ str_in "db." k = true).
Proof.
  apply (database_mapping_keys
           (database_of [mkRow "db.host" "h" NEVER; mkRow "ui.theme" "x" NEVER])
           quiet "db."
           [mkRow "db.host" "h" NEVER; mkRow "ui.theme" "x" NEVER]
           initial_world).
  reflexivity.
Defined.

(** X13. [check_for_duplicates] is given a dictionary, whose keys are
    distinct: it returns a copy of it, in the same order, with a count of
    zero, and logs nothing. *)
Theorem check_for_duplicates_finds_nothing :
  forall (self : MySQLCompare) (data : dict) (w : World),
    NoDup (dict_keys data) ->
    Refactored.check_for_duplicates self data w = (Ok (data, 0%Z), w).
Proof.
  intros self data w Hnd. now apply check_for_duplicates_copy.
Qed.

Lemma check_for_duplicates_finds_nothing_witness :
  Refactored.check_for_duplicates quiet scenario_scripts initial_world
  = (Ok (scenario_scripts, 0%Z), initial_world).
Proof.
  apply check_for_duplicates_finds_nothing.
  repeat constructor; simpl; intuition discriminate.
Defined.

(** ** The union of the two script mappings *)

Lemma merge_lookup_general (b : dict) :
  forall a k,
    dict_get (fold_left (fun d kv => dict_set d (fst kv) (snd kv)) b a) k
    = match last_value b k with
      | Some v => Some v
      | None => dict_get a k
      end.
Proof.
  induction b as [|[k0 v0] b IH]; intros a k; cbn [fold_left last_value fst snd];
    [reflexivity|].
  rewrite IH. destruct (last_value b k); [reflexivity|].
  destruct (String.eqb_spec k0 k) as [->|Hne].
  - apply dict_get_set_same.
  - now apply dict_get_set_other.
Qed.

Lemma last_value_of_dict (b : dict) (k : string) :
  NoDup (dict_keys b) -> last_value b k = dict_get b k.
Proof.
  induction b as [|[k0 v0] b IH]; cbn [last_value dict_get dict_keys map fst];
    intros Hnd; [reflexivity|].
  inversion Hnd as [|? ? Hnotin Hnd']; subst.
  rewrite (IH Hnd').
  destruct (String.eqb_spec k0 k) as [->|Hne].
  - destruct (dict_get b k) eqn:E; [|reflexivity].
    exfalso. apply Hnotin. apply dict_get_Some_In in E.
    now apply (in_map fst) in E.
  - now destruct (dict_get b k).
Qed.

Lemma merge_keys (b : dict) :
  forall a,
    NoDup (dict_keys b) ->
    dict_keys (fold_left (fun d kv => dict_set d (fst kv) (snd kv)) b a)
    = dict_keys a ++ filter (fun k => negb (dict_contains k a)) (dict_keys b).
Proof.
  induction b as [|[k0 v0] b IH]; intros a Hnd;
    cbn [fold_left dict_keys map fst snd filter].
  - now rewrite app_nil_r.
  - inversion Hnd as [|? ? Hnotin Hnd']; subst.
    fold (dict_keys b) in *. rewrite (IH _ Hnd'), dict_keys_set.
    assert (Hsame : filter (fun k => negb (dict_contains k (dict_set a k0 v0)))
                           (dict_keys b)
                    = filter (fun k => negb (dict_contains k a)) (dict_keys b)).
    { apply filter_ext_in. intros k Hk. f_equal. unfold dict_contains.
      rewrite dict_get_set_other; [reflexivity|].
      intros ->. contradiction. }
    rewrite Hsame.
    destruct (dict_contains k0 a); cbn [negb]; [reflexivity|].
    now rewrite <- app_assoc.
Qed.

(** X14. In the union [{**alenza, **aicon}] that [main] hands to the
    reconciler, a key of both mappings takes the value of the second, a
    key of one takes its value there; the keys of the first come first, in
    their order, followed by the new keys of the second, in theirs. *)
Theorem union_prefers_second_mapping :
  forall (alenza aicon : dict),
    NoDup (dict_keys aicon) ->
    (forall k,
        dict_get (dict_merge alenza aicon) k
        = match dict_get aicon k with
          | Some v => Some v
          | None => dict_get alenza k
          end)
    /\ dict_keys (dict_merge alenza aicon)
       = dict_keys alenza
         ++ filter (fun k => negb (dict_contains k alenza)) (dict_keys aicon).
Proof.
  intros alenza aicon Hnd. unfold dict_merge. split.
  - intros k. rewrite merge_lookup_general.
    now rewrite (last_value_of_dict aicon k Hnd).
  - now apply merge_keys.
Qed.

Lemma union_prefers_second_mapping_witness :
  (forall k,
      dict_get (dict_merge scenario_database scenario_scripts) k
      = match dict_get scenario_scripts k with
        | Some v => Some v
        | None => dict_get scenario_database k
        end)
  /\ dict_keys (dict_merge scenario_database scenario_scripts)
     = dict_keys scenario_database
       ++ filter (fun k => negb (dict_contains k scenario_database))
                 (dict_keys scenario_scripts).
Proof.
  apply union_prefers_second_mapping.
  repeat constructor; simpl; intuition discriminate.
Defined.

(** ** Paths *)

Lemma to_backslashes_no_slash (s : string) :
  has_char (ascii_of_nat 47) (Common.to_backslashes s) = false.
Proof.
  induction s as [|c s IH]; cbn [Common.to_backslashes has_char];
    [reflexivity|].
  rewrite IH, orb_false_r.
  destruct (Ascii.eqb c (ascii_of_nat 47)) eqn:E; [reflexivity | exact E].
Qed.

Lemma to_backslashes_length (s : string) :
  String.length (Common.to_backslashes s) = String.length s.
Proof.
  induction s as [|c s IH]; cbn [Common.to_backslashes String.length];
    [reflexivity | now rewrite IH].
Qed.

Lemma to_backslashes_without_slash (s : string) :
  has_char (ascii_of_nat 47) s = false -> Common.to_backslashes s = s.
Proof.
  induction s as [|c s IH]; cbn [Common.to_backslashes has_char];
    [reflexivity|].
  intros H. apply orb_false_iff in H as [Hc Hs]. now rewrite Hc, IH.
Qed.

(** X15. On Windows ([os.name] is [nt]) the formatted path has the length
    of the path and no forward slash is left in it, so formatting it again
    changes nothing; on any other system the path is returned as it is. *)
Theorem format_windows_path_result :
  forall operating_system path : string,
    (operating_system = "nt" ->
     has_char (ascii_of_nat 47)
              (Common.format_windows_path operating_system path) = false
     /\ String.length (Common.format_windows_path operating_system path)
        = String.length path
     /\ Common.format_windows_path operating_system
          (Common.format_windows_path operating_system path)
        = Common.format_windows_path operating_system path)
    /\
    (operating_system <> "nt" ->
     Common.format_windows_path operating_system path = path).
Proof.
  intros operating_system path. unfold Common.format_windows_path. split.
  - intros ->. cbn [String.eqb Ascii.eqb Bool.eqb]. repeat split.
    + apply to_backslashes_no_slash.
    + apply to_backslashes_length.
    + apply to_backslashes_without_slash, to_backslashes_no_slash.
  - intros Hos. destruct (String.eqb_spec operating_system "nt");
      [contradiction | reflexivity].
Qed.

Lemma format_windows_path_result_witness :
  (has_char (ascii_of_nat 47)
            (Common.format_windows_path "nt" "/repo/alenza/config/inserts")
   = false
   /\ String.length
        (Common.format_windows_path "nt" "/repo/alenza/config/inserts")
      = String.length "/repo/alenza/config/inserts"
   /\ Common.format_windows_path "nt"
        (Common.format_windows_path "nt" "/repo/alenza/config/inserts")
      = Common.format_windows_path "nt" "/repo/alenza/config/inserts")
  /\ Common.format_windows_path "posix" "/repo/alenza/config/inserts"
     = "/repo/alenza/config/inserts".
Proof.
  split.
  - apply (proj1 (format_windows_path_result
                    "nt" "/repo/alenza/config/inserts")).
    reflexivity.
  - apply (proj2 (format_windows_path_result
                    "posix" "/repo/alenza/config/inserts")).
    discriminate.
Defined.

(** ** How a run ends *)

Lemma announce_only_logs (args : Args) (w : World) :
  exists w', Common.announce args w = (Ok tt, w') /\ same_but_log w w'.
Proof.
  unfold Common.announce.
  destruct (String.eqb (arg_comparison_direction args) "scripts");
    [|destruct (String.eqb (arg_comparison_direction args) "server")];
    run; eexists; (split; [reflexivity | repeat split]).
Qed.

(** X16. In the original variant, any exception of the driver while
    connecting ends the run with [sys.exit(1)]: the failure is logged as an
    error, nothing is queried, printed or counted, and no connection is
    held. *)
Theorem original_connection_failure_exits :
  forall (env : Env) (args : Args) (w : World) (e : exn),
    connect_error env = Some e ->
    is_Exception e = true ->
    let run := Original.main env args w in
    value run = Raise (SystemExit 1)
    /\ cursor (world run) = cursor w
    /\ stdout (world run) = stdout w
    /\ TOTAL_WARNINGS (world run) = TOTAL_WARNINGS w
    /\ In (ERROR, ("MySQL Connection Status: Not Connected. "
                   ++ str_of_exn e)%string)
          (log (world run)).
Proof.
  intros env args w e Hconnect He run. subst run.
  destruct (announce_only_logs args w) as (w0 & Hann & Hs & Hc & Ht).
  assert (Hrun :
    Original.main env args w
    = (Raise (SystemExit 1),
       {| log := (log w0
                  ++ [(INFO, "Attempting to connect to MySQL database...")])
                 ++ [(ERROR, ("MySQL Connection Status: Not Connected. "
                              ++ str_of_exn e)%string)];
          stdout := stdout w0;
          cursor := cursor w0;
          TOTAL_WARNINGS := TOTAL_WARNINGS w0 |})).
  { unfold Original.main. unfold bind at 1. rewrite Hann.
    unfold Original.init, Original.connect, Common.driver_connect.
    rewrite Hconnect. run. now rewrite He. }
  rewrite Hrun. cbn [value world fst snd log stdout cursor TOTAL_WARNINGS].
  repeat split; try assumption.
  apply in_or_app. right. now left.
Qed.

Lemma original_connection_failure_exits_witness :
  value (Original.main
           {| connect_error := Some (OtherError "No module named 'pymysql'");
              fetchall := Ok [];
              rglob := fun _ => [];
              PROJECT_ROOT := "/repo";
              OPERATING_SYSTEM := "posix" |}
           sample_args initial_world)
  = Raise (SystemExit 1).
Proof.
  apply (original_connection_failure_exits
           {| connect_error := Some (OtherError "No module named 'pymysql'");
              fetchall := Ok [];
              rglob := fun _ => [];
              PROJECT_ROOT := "/repo";
              OPERATING_SYSTEM := "posix" |}
           sample_args initial_world
           (OtherError "No module named 'pymysql'")); reflexivity.
Defined.






(** X18. In the original variant a query that fails is not handled: the
    exception leaves [main] as it is, after the connection was made, and
    nothing is printed or counted. *)
Theorem original_query_failure_propagates :
  forall (env : Env) (args : Args) (w : World) (e : exn),
    connect_error env = None ->
    fetchall env = Raise e ->
    let run := Original.main env args w in
    value run = Raise e
    /\ cursor (world run) = Connected
    /\ stdout (world run) = stdout w
    /\ TOTAL_WARNINGS (world run) = TOTAL_WARNINGS w.
Proof.
  intros env args w e Hconnect Hfetch run. subst run.
  destruct (announce_only_logs args w) as (w0 & Hann & Hs & Hc & Ht).
  assert (Hrun : exists w1,
             Original.main env args w = (Raise e, w1)
             /\ cursor w1 = Connected /\ stdout w1 = stdout w0
             /\ TOTAL_WARNINGS w1 = TOTAL_WARNINGS w0).
  { unfold Original.main. unfold bind at 1. rewrite Hann.
    unfold Original.init, Original.connect, Common.driver_connect,
      Original.analyze_database_config.
    rewrite Hconnect, Hfetch.
    destruct (truthy (arg_contains args)); run;
      eexists; (split; [reflexivity | repeat split]). }
  destruct Hrun as (w1 & -> & Hc1 & Hs1 & Ht1).
  cbn [value world fst snd]. repeat split; congruence.
Qed.

Lemma original_query_failure_propagates_witness :
  value (Original.main failing_query sample_args initial_world)
  = Raise (OperationalError
             "(2013, 'Lost connection to MySQL server during query')").
Proof.
  apply (original_query_failure_propagates
           failing_query sample_args initial_world); reflexivity.
Defined.

(** ** More on the remediation generator *)

Lemma generate_entries_unbound (self : MySQLCompare) (entries : list Entry) :
  String.eqb (comparison_direction self) "scripts" = false ->
  String.eqb (comparison_direction self) "server" = false ->
  forall st w,
    Common.statement st = None ->
    (exists e, In e entries /\ (is_missing e = true \/ is_change e = true)) ->
    value (for_each entries (Common.generate_entry self) st w)
    = Raise (UnboundLocalError
               "local variable 'statement' referenced before assignment").
Proof.
  intros Hscripts Hserver.
  induction entries as [|e entries IH]; intros st w Hst (bad & Hin & Hbad).
  - destruct Hin.
  - cbn [for_each]. unfold bind at 1, Common.generate_entry at 1.
    rewrite Hscripts, Hserver, Hst.
    fold (is_missing e). fold (is_change e).
    destruct (is_missing e) eqn:Hm; [reflexivity|].
    destruct (is_change e) eqn:Hc; [reflexivity|].
    run. apply IH; [reflexivity|].
    destruct Hin as [->|Hin].
    + destruct Hbad; congruence.
    + exists bad. auto.
Qed.

(** X19. With a direction other than [scripts] and [server] (the command
    line admits no other, the class does), the generator raises
    [UnboundLocalError] as soon as it meets a MISSING or CHANGE record,
    when printing is enabled. *)
Theorem unknown_direction_is_an_error :
  forall (self : MySQLCompare) (entries : list Entry) (w : World),
    is_print_stored_procs self = true ->
    comparison_direction self <> "scripts" ->
    comparison_direction self <> "server" ->
    (exists e, In e entries /\ (is_missing e = true \/ is_change e = true)) ->
    value (Common.generate_missing_stored_proc_statement self entries w)
    = Raise (UnboundLocalError
               "local variable 'statement' referenced before assignment").
Proof.
  intros self entries w Hprint Hscripts Hserver Hbad.
  apply String.eqb_neq in Hscripts, Hserver.
  unfold Common.generate_missing_stored_proc_statement.
  rewrite Hprint.
  replace (0 <? length entries)%nat with true
    by (destruct Hbad as (e & Hin & _); destruct entries;
        [destruct Hin | reflexivity]).
  cbn [andb]. run.
  match goal with
  | |- context [for_each entries _ ?st0 ?w0] =>
      pose proof (generate_entries_unbound self entries Hscripts Hserver
                    st0 w0 eq_refl Hbad) as Hraise;
      destruct (for_each entries (Common.generate_entry self) st0 w0)
        as [[st|e] w1]
  end; run in Hraise; [discriminate | now inversion Hraise].
Qed.

Lemma unknown_direction_is_an_error_witness :
  value (Common.generate_missing_stored_proc_statement
           (printing "both")
           [mkEntry "MISSING" "X" "N/A" "Y"] initial_world)
  = Raise (UnboundLocalError
             "local variable 'statement' referenced before assignment").
Proof.
  apply (unknown_direction_is_an_error (printing "both")).
  - reflexivity.
  - discriminate.
  - discriminate.
  - exists (mkEntry "MISSING" "X" "N/A" "Y"). split; [now left | now left].
Defined.

Lemma generate_keeps (X : Type) (component : World -> X)
    (self : MySQLCompare) (entries : list Entry) :
  (forall lvl msg, preserves component (logger lvl msg)) ->
  (forall o, preserves component (print o)) ->
  preserves component
    (Common.generate_missing_stored_proc_statement self entries).
Proof.
  intros Hlog Hprint.
  assert (Hentry : forall st e,
             preserves component (Common.generate_entry self st e)).
  { intros st e. unfold Common.generate_entry.
    repeat first
      [ progress cbv zeta | apply preserves_bind | apply Hlog
      | apply preserves_ret | apply preserves_raise | progress intros
      | match goal with
        | |- preserves _ (if ?b then _ else _) => destruct b
        | |- preserves _ (match ?x with _ => _ end) => destruct x
        end ]. }
  unfold Common.generate_missing_stored_proc_statement, Common.print_all.
  repeat first
    [ apply preserves_bind | apply Hlog | apply Hprint
    | apply preserves_ret | apply preserves_for_each | apply Hentry
    | progress intros
    | match goal with
      | |- preserves _ (if ?b then _ else _) => destruct b
      end ].
Qed.

Lemma reconciler_keeps (X : Type) (component : World -> X)
    (self : MySQLCompare) (database_keys script_keys : pyval) :
  (forall lvl msg, preserves component (logger lvl msg)) ->
  (forall o, preserves component (print o)) ->
  preserves component
    (Original.compare_database_to_scripts self database_keys script_keys)
  /\ preserves component
       (Refactored.compare_database_to_scripts self database_keys
                                               script_keys).
Proof.
  intros Hlog Hprint.
  unfold Original.compare_database_to_scripts,
    Refactored.compare_database_to_scripts.
  split.
  - destruct (Common.compare_loop database_keys script_keys) as [d [e|]];
      repeat first
        [ apply preserves_bind | apply Hlog | apply Hprint
        | apply preserves_ret | apply preserves_raise | progress intros
        | match goal with
          | |- preserves _ (if ?b then _ else _) => destruct b
          end ].
  - destruct (negb (is_dict database_keys) || negb (is_dict script_keys));
      [|destruct (Common.compare_loop database_keys script_keys) as [d [e|]]];
      repeat first
        [ apply preserves_bind | apply Hlog | apply Hprint
        | apply preserves_ret | apply preserves_raise | progress intros
        | match goal with
          | |- preserves _ (if ?b then _ else _) => destruct b
          end ].
Qed.

(** X20. Neither the reconciler (either variant, on any two arguments)
    nor the remediation generator ever changes the warning total or the
    state of the connection, whether they return or raise. *)
Theorem reconciler_and_generator_count_nothing :
  forall (self : MySQLCompare) (database_keys script_keys : pyval)
         (entries : list Entry) (w : World),
    let original :=
      world (Original.compare_database_to_scripts self database_keys
                                                  script_keys w) in
    let refactored :=
      world (Refactored.compare_database_to_scripts self database_keys
                                                    script_keys w) in
    let generated :=
      world (Common.generate_missing_stored_proc_statement self entries w) in
    (TOTAL_WARNINGS original = TOTAL_WARNINGS w
     /\ cursor original = cursor w)
    /\ (TOTAL_WARNINGS refactored = TOTAL_WARNINGS w
        /\ cursor refactored = cursor w)
    /\ (TOTAL_WARNINGS generated = TOTAL_WARNINGS w
        /\ cursor generated = cursor w).
Proof.
  intros self database_keys script_keys entries w original refactored
         generated.
  subst original refactored generated. unfold world.
  assert (Ht : forall lvl msg, preserves TOTAL_WARNINGS (logger lvl msg))
    by (intros lvl msg w0; reflexivity).
  assert (Hc : forall lvl msg, preserves cursor (logger lvl msg))
    by (intros lvl msg w0; reflexivity).
  assert (Htp : forall o, preserves TOTAL_WARNINGS (print o))
    by (intros o w0; reflexivity).
  assert (Hcp : forall o, preserves cursor (print o))
    by (intros o w0; reflexivity).
  destruct (reconciler_keeps Z TOTAL_WARNINGS self database_keys script_keys
                             Ht Htp) as [Hto Htr].
  destruct (reconciler_keeps _ cursor self database_keys script_keys Hc Hcp)
    as [Hco Hcr].
  repeat split;
    first [ apply Hto | apply Htr | apply Hco | apply Hcr
          | apply (generate_keeps Z TOTAL_WARNINGS self entries Ht Htp)
          | apply (generate_keeps _ cursor self entries Hc Hcp) ].
Qed.

(** ** The warning total of a whole run *)

Lemma script_pass_run (env : Env) (self : MySQLCompare)
    (scripts_dir substring_condition : string) (w : World)
    (observations : list (string * string)) :
  statements_of
    (lines_read env self
       (rglob env (Common.files_directory_of env scripts_dir)))
  = Ok observations ->
  exists w',
    Common.analyze_scripts_config env self scripts_dir substring_condition w
    = (Ok (fold_left (observe substring_condition) observations ([], 0%Z)),
       w')
    /\ TOTAL_WARNINGS w' = TOTAL_WARNINGS w.
Proof.
  intros Hobs.
  pose proof (script_pass_value env self scripts_dir substring_condition w)
    as Hv.
  assert (Ht : TOTAL_WARNINGS
                 (snd (Common.analyze_scripts_config
                         env self scripts_dir substring_condition w))
               = TOTAL_WARNINGS w).
  { apply (script_pass_keeps Z TOTAL_WARNINGS).
    intros lvl msg w0. reflexivity. }
  rewrite Hobs in Hv.
  destruct (Common.analyze_scripts_config env self scripts_dir
                                          substring_condition w)
    as [r w'].
  unfold value, world in *. cbn [fst snd] in *. subst r. eauto.
Qed.

Lemma refactored_stages_total (env : Env) (args : Args) (w : World) :
  connect_error env = None ->
  exists w1,
    TOTAL_WARNINGS w1 = TOTAL_WARNINGS w
    /\ Refactored.init env args (snd (Common.announce args w))
       = (Ok (Common.attributes args), w1).
Proof.
  intros Hconnect.
  destruct (announce_only_logs args w) as (w0 & Hann & _ & _ & Ht).
  rewrite Hann. cbn [snd].
  unfold Refactored.init, Refactored.connect, Common.driver_connect.
  rewrite Hconnect. run. eexists. split; [|reflexivity]. exact Ht.
Qed.

Lemma notify_then_close_total (self : MySQLCompare) (additional_warnings : Z)
    (msg : exn -> string) (w : World) :
  exists w',
    try_finally
      (try_except (Refactored.notify_warnings self additional_warnings)
                  (fun e => logger ERROR (msg e)))
      (Refactored.close_connection self) w
    = (Ok tt, w')
    /\ cursor w' = Closed
    /\ TOTAL_WARNINGS w'
       = (TOTAL_WARNINGS w + database_warnings self + additional_warnings)%Z.
Proof.
  unfold Refactored.notify_warnings, Refactored.close_connection. run.
  match goal with
  | |- context [if ?b then _ else _] => destruct b
  end; eexists; repeat split.
Qed.

Lemma guarded_comparison_total (mysql : MySQLCompare) (db sc : dict)
    (msg : exn -> string) (w : World) :
  exists w',
    try_except (Refactored.compare_and_generate mysql db sc)
               (fun e => logger ERROR (msg e)) w
    = (Ok tt, w')
    /\ TOTAL_WARNINGS w' = TOTAL_WARNINGS w.
Proof.
  destruct (guarded_stage_returns
              (Refactored.compare_and_generate mysql db sc) msg w
              (raises_compare_and_generate _ _ _)) as (w' & Hrun).
  exists w'. split; [exact Hrun|].
  assert (Hkeep : preserves TOTAL_WARNINGS
                    (try_except (Refactored.compare_and_generate mysql db sc)
                                (fun e => logger ERROR (msg e)))).
  { assert (Ht : forall lvl m, preserves TOTAL_WARNINGS (logger lvl m))
      by (intros lvl m w0; reflexivity).
    assert (Htp : forall o, preserves TOTAL_WARNINGS (print o))
      by (intros o w0; reflexivity).
    unfold try_except. apply preserves_try_except_when; [|intros; apply Ht].
    unfold Refactored.compare_and_generate. apply preserves_bind.
    - apply (reconciler_keeps Z TOTAL_WARNINGS mysql (PyDict db) (PyDict sc)
                              Ht Htp).
    - intros [|d differences];
        [apply Ht | now apply generate_keeps]. }
  specialize (Hkeep w). now rewrite Hrun in Hkeep.
Qed.

(** X21. A refactored run that connects, gets its rows and parses every
    statement line it reads returns with the connection closed, and has
    added to the warning total: one for every distinct key the database
    pass kept, and, for each of the two script directories on its own, the
    observations beyond the first of each key.  A key that both
    directories set is not counted; the comparison and the remediation
    stage add nothing. *)
Theorem refactored_run_total :
  forall (env : Env) (args : Args) (w : World) (rows : list Row)
         (alenza aicon : list (string * string)),
    connect_error env = None ->
    fetchall env = Ok rows ->
    statements_of
      (lines_read env (Common.attributes args)
         (rglob env (Common.files_directory_of
                       env Common.ALENZA_CONFIG_SCRIPTS_RELATIVE)))
    = Ok alenza ->
    statements_of
      (lines_read env (Common.attributes args)
         (rglob env (Common.files_directory_of
                       env Common.AICON_CONFIG_SCRIPTS_RELATIVE)))
    = Ok aicon ->
    let duplicates := fun observations =>
      (Z.of_nat (length (retained_pairs (arg_contains args) observations))
       - Z.of_nat (distinct_keys
                     (retained_pairs (arg_contains args) observations)))%Z in
    let run := Refactored.main env args w in
    value run = Ok tt
    /\ cursor (world run) = Closed
    /\ TOTAL_WARNINGS (world run)
       = (TOTAL_WARNINGS w
          + Z.of_nat (distinct_keys (retained (arg_contains args) rows))
          + duplicates alenza + duplicates aicon)%Z.
Proof.
  intros env args w rows alenza aicon Hconnect Hfetch Halenza Haicon
         duplicates run.
  subst run.
  set (self := Common.attributes args) in *.
  set (sub := arg_contains args) in *.
  destruct (announce_only_logs args w) as (w0 & Hann & _).
  destruct (refactored_stages_total env args w Hconnect) as (w1 & Ht1 & Hinit).
  rewrite Hann in Hinit. cbn [snd] in Hinit.
  destruct (refactored_analyze env self sub rows w1 Hfetch)
    as (w2 & Hdb & _ & _ & Ht2).
  destruct (observe_fold_summary sub alenza) as (Ha & _).
  destruct (observe_fold_summary sub aicon) as (Hi & _).
  cbv zeta in Ha, Hi.
  pose (wa := {| log := log w2 ++ [(INFO, "")]; stdout := stdout w2;
                 cursor := cursor w2;
                 TOTAL_WARNINGS := TOTAL_WARNINGS w2 |}).
  destruct (script_pass_run env self Common.ALENZA_CONFIG_SCRIPTS_RELATIVE
                            sub wa alenza Halenza) as (w3 & Hpa & Ht3).
  pose (wi := {| log := log w3 ++ [(INFO, "")]; stdout := stdout w3;
                 cursor := cursor w3;
                 TOTAL_WARNINGS := TOTAL_WARNINGS w3 |}).
  destruct (script_pass_run env self Common.AICON_CONFIG_SCRIPTS_RELATIVE
                            sub wi aicon Haicon) as (w4 & Hpi & Ht4).
  unfold dict in *.
  destruct (fold_left (observe sub) alenza ([], 0%Z)) as [ma ca] eqn:Ea.
  destruct (fold_left (observe sub) aicon ([], 0%Z)) as [mi ci] eqn:Ei.
  unfold dict in *. rewrite Ea in Ha, Hpa. rewrite Ei in Hi, Hpi.
  cbn [fst snd] in Ha, Hi.
  assert (Hall :
    Refactored.analyze_all env self args w1
    = (Ok (Refactored.filter_data self rows sub, dict_merge ma mi, ca, ci),
       w4)).
  { unfold Refactored.analyze_all.
    cbv beta iota delta [bind ret logger Common.logging_line_break].
    fold sub. unfold dict in *. rewrite Hdb. cbv beta iota.
    unfold wa in Hpa. rewrite Hpa. cbv beta iota.
    unfold wi in Hpi. rewrite Hpi. reflexivity. }
  destruct (guarded_comparison_total
              self (Refactored.filter_data self rows sub) (dict_merge ma mi)
              (fun e => ("Error comparing database to scripts: "
                         ++ str_of_exn e)%string) w4)
    as (w5 & Hcmp & Ht5).
  destruct (notify_then_close_total
              self (ca + ci)%Z
              (fun e => ("Error notifying warnings: " ++ str_of_exn e)%string)
              w5)
    as (w6 & Hfin & Hc6 & Ht6).
  assert (Hrun : Refactored.main env args w = (Ok tt, w6)).
  { unfold Refactored.main. unfold bind at 1.
    rewrite (try_except_ok _ _ w w0 true)
      by (unfold bind; now rewrite Hann).
    cbn [negb]. unfold bind at 1.
    rewrite (try_except_ok _ _ w0 w1 (Some self))
      by (unfold bind; now rewrite Hinit).
    unfold bind at 1.
    rewrite (try_except_ok _ _ w1 w4
               (Some (Refactored.filter_data self rows sub,
                      dict_merge ma mi, ca, ci)))
      by (unfold bind; fold self; now rewrite Hall).
    unfold bind at 1. fold self. rewrite Hcmp. exact Hfin. }
  rewrite Hrun. cbn [value world fst snd].
  split; [reflexivity|]. split; [exact Hc6|].
  unfold wa in Ht3. unfold wi in Ht4. cbn [TOTAL_WARNINGS] in Ht3, Ht4.
  rewrite Ht6, Ht5, Ht4, Ht3, Ht2, Ht1.
  subst duplicates self.
  cbn [database_warnings Common.attributes]. rewrite Ha, Hi. lia.
Qed.

Lemma refactored_run_total_witness :
  value (Refactored.main key_set_twice sample_args initial_world) = Ok tt
  /\ cursor (world (Refactored.main key_set_twice sample_args initial_world))
     = Closed
  /\ TOTAL_WARNINGS
       (world (Refactored.main key_set_twice sample_args initial_world))
     = 2%Z.
Proof.
  apply (refactored_run_total
           key_set_twice sample_args initial_world []
           [("A", "1"); ("A", "2")] [("A", "1"); ("A", "2")]);
    reflexivity.
Defined.

(** ** The warning total of an original run *)

Lemma bind_run {A B : Type} (m : M A) (k : A -> M B) (w w' : World) (a : A) :
  m w = (Ok a, w') -> bind m k w = k a w'.
Proof. unfold bind. now intros ->. Qed.

Lemma generator_returns (self : MySQLCompare) (entries : list Entry)
    (w : World) :
  comparison_direction self = "scripts"
  \/ comparison_direction self = "server" ->
  value (Common.generate_missing_stored_proc_statement self entries w)
  = Ok tt.
Proof.
  intros Hdir.
  unfold Common.generate_missing_stored_proc_statement.
  destruct ((0 <? length entries)%nat && is_print_stored_procs self);
    [|reflexivity].
  run.
  match goal with
  | |- context [for_each entries _ ?st1 ?w1] =>
      destruct (generate_entries_lists self entries Hdir st1 w1)
        as (last & w' & Hrun & _)
  end.
  rewrite Hrun.
  destruct Hdir as [Hdir|Hdir]; rewrite Hdir;
    cbn [String.eqb Ascii.eqb Bool.eqb];
    run; rewrite ?print_all_lines; run; rewrite ?print_all_lines;
    reflexivity.
Qed.

Lemma original_stages_total (env : Env) (args : Args) (w : World) :
  connect_error env = None ->
  exists w1,
    Original.init env args w = (Ok (Common.attributes args), w1)
    /\ cursor w1 = Connected
    /\ TOTAL_WARNINGS w1 = TOTAL_WARNINGS w.
Proof.
  intros Hconnect.
  unfold Original.init, Original.connect, Common.driver_connect.
  rewrite Hconnect. run. eexists. repeat split.
Qed.

Lemma script_pass_keeps_cursor (env : Env) (self : MySQLCompare)
    (scripts_dir substring_condition : string) (w : World) :
  cursor (snd (Common.analyze_scripts_config env self scripts_dir
                                             substring_condition w))
  = cursor w.
Proof.
  apply (script_pass_keeps _ cursor). intros lvl msg w0. reflexivity.
Qed.

(** X22. An original run that connects, gets its rows, parses every
    statement line it reads and has one of the two directions of the command
    line returns with the connection still open, and has added to the warning
    total: for the database, the rows it kept beyond the first of each key;
    for each of the two script directories on its own, the observations
    beyond the first of each key. *)
Theorem original_run_total :
  forall (env : Env) (args : Args) (w : World) (rows : list Row)
         (alenza aicon : list (string * string)),
    connect_error env = None ->
    fetchall env = Ok rows ->
    statements_of
      (lines_read env (Common.attributes args)
         (rglob env (Common.files_directory_of
                       env Common.ALENZA_CONFIG_SCRIPTS_RELATIVE)))
    = Ok alenza ->
    statements_of
      (lines_read env (Common.attributes args)
         (rglob env (Common.files_directory_of
                       env Common.AICON_CONFIG_SCRIPTS_RELATIVE)))
    = Ok aicon ->
    arg_comparison_direction args = "scripts"
    \/ arg_comparison_direction args = "server" ->
    let duplicates := fun observations =>
      (Z.of_nat (length (retained_pairs (arg_contains args) observations))
       - Z.of_nat (distinct_keys
                     (retained_pairs (arg_contains args) observations)))%Z in
    let run := Original.main env args w in
    value run = Ok tt
    /\ cursor (world run) = Connected
    /\ TOTAL_WARNINGS (world run)
       = (TOTAL_WARNINGS w
          + (Z.of_nat (length (retained (arg_contains args) rows))
             - Z.of_nat (distinct_keys (retained (arg_contains args) rows)))
          + duplicates alenza + duplicates aicon)%Z.
Proof.
  intros env args w rows alenza aicon Hconnect Hfetch Halenza Haicon Hdir
         duplicates run.
  subst run.
  set (self := Common.attributes args) in *.
  set (sub := arg_contains args) in *.
  destruct (announce_only_logs args w) as (w0 & Hann & _ & _ & Ht0).
  destruct (original_stages_total env args w0 Hconnect)
    as (w1 & Hinit & Hc1 & Ht1).
  fold self in Hinit.
  destruct (original_analyze env self sub rows w1 Hfetch)
    as (w2 & Hdb & _ & Hc2 & Ht2).
  destruct (observe_fold_summary sub alenza) as (Ha & _).
  destruct (observe_fold_summary sub aicon) as (Hi & _).
  cbv zeta in Ha, Hi.
  pose (wa := {| log := log w2 ++ [(INFO, "")]; stdout := stdout w2;
                 cursor := cursor w2;
                 TOTAL_WARNINGS := TOTAL_WARNINGS w2 |}).
  destruct (script_pass_run env self Common.ALENZA_CONFIG_SCRIPTS_RELATIVE
                            sub wa alenza Halenza) as (w3 & Hpa & Ht3).
  pose proof (script_pass_keeps_cursor
                env self Common.ALENZA_CONFIG_SCRIPTS_RELATIVE sub wa) as Hc3.
  rewrite Hpa in Hc3. cbn [snd] in Hc3.
  pose (wi := {| log := log w3 ++ [(INFO, "")]; stdout := stdout w3;
                 cursor := cursor w3;
                 TOTAL_WARNINGS := TOTAL_WARNINGS w3 |}).
  destruct (script_pass_run env self Common.AICON_CONFIG_SCRIPTS_RELATIVE
                            sub wi aicon Haicon) as (w4 & Hpi & Ht4).
  pose proof (script_pass_keeps_cursor
                env self Common.AICON_CONFIG_SCRIPTS_RELATIVE sub wi) as Hc4.
  rewrite Hpi in Hc4. cbn [snd] in Hc4.
  unfold dict in *.
  destruct (fold_left (observe sub) alenza ([], 0%Z)) as [ma ca] eqn:Ea.
  destruct (fold_left (observe sub) aicon ([], 0%Z)) as [mi ci] eqn:Ei.
  unfold dict in *. rewrite Ea in Ha, Hpa. rewrite Ei in Hi, Hpi.
  cbn [fst snd] in Ha, Hi.
  set (db := Refactored.filter_data self rows sub) in *.
  assert (Ht : forall lvl m, preserves TOTAL_WARNINGS (logger lvl m))
    by (intros lvl m w'; reflexivity).
  assert (Htp : forall o, preserves TOTAL_WARNINGS (print o))
    by (intros o w'; reflexivity).
  assert (Hc : forall lvl m, preserves cursor (logger lvl m))
    by (intros lvl m w'; reflexivity).
  assert (Hcp : forall o, preserves cursor (print o))
    by (intros o w'; reflexivity).
  destruct (reconciler_on_dicts self db (dict_merge ma mi) w4)
    as (differences & Hvalue & _).
  pose proof (proj1 (reconciler_keeps Z TOTAL_WARNINGS self (PyDict db)
                       (PyDict (dict_merge ma mi)) Ht Htp) w4) as Ht5.
  pose proof (proj1 (reconciler_keeps _ cursor self (PyDict db)
                       (PyDict (dict_merge ma mi)) Hc Hcp) w4) as Hc5.
  destruct (Original.compare_database_to_scripts
              self (PyDict db) (PyDict (dict_merge ma mi)) w4)
    as [r5 w5] eqn:Hcmp.
  unfold value in Hvalue. cbn [fst snd] in Hvalue, Ht5, Hc5. subst r5.
  set (stage := match differences with
                | _ :: _ =>
                    Common.generate_missing_stored_proc_statement
                      self differences
                | [] => logger INFO "No flagged keys were detected!"
                end).
  assert (Hstage : exists w6,
             stage w5 = (Ok tt, w6)
             /\ cursor w6 = cursor w5
             /\ TOTAL_WARNINGS w6 = TOTAL_WARNINGS w5).
  { subst stage. destruct differences as [|d differences].
    - eexists. split; [reflexivity|]. split; reflexivity.
    - pose proof (generator_returns self (d :: differences) w5 Hdir) as Hv.
      pose proof (generate_keeps Z TOTAL_WARNINGS self (d :: differences)
                                 Ht Htp w5) as Hgt.
      pose proof (generate_keeps _ cursor self (d :: differences)
                                 Hc Hcp w5) as Hgc.
      destruct (Common.generate_missing_stored_proc_statement
                  self (d :: differences) w5) as [r6 w6].
      unfold value in Hv. cbn [fst snd] in Hv, Hgt, Hgc. subst r6.
      exists w6. auto. }
  destruct Hstage as (w6 & Hgen & Hc6 & Ht6).
  assert (Hrun : exists w7,
             Original.main env args w = (Ok tt, w7)
             /\ cursor w7 = cursor w6
             /\ TOTAL_WARNINGS w7
                = (TOTAL_WARNINGS w6 + database_warnings self
                   + (ca + ci))%Z).
  { unfold Original.main.
    rewrite (bind_run _ _ w w0 tt Hann).
    rewrite (bind_run _ _ w0 w1 self Hinit).
    fold sub. rewrite (bind_run _ _ w1 w2 db Hdb).
    rewrite (bind_run Common.logging_line_break _ w2 wa tt eq_refl).
    unfold dict in *.
    rewrite (bind_run _ _ wa w3 (ma, ca) Hpa). cbv beta iota.
    rewrite (bind_run Common.logging_line_break _ w3 wi tt eq_refl).
    rewrite (bind_run _ _ wi w4 (mi, ci) Hpi). cbv beta iota zeta.
    rewrite (bind_run _ _ w4 w5 differences Hcmp).
    fold stage. rewrite (bind_run stage _ w5 w6 tt Hgen).
    unfold Original.notify_warnings. run.
    match goal with
    | |- context [if ?b then _ else _] => destruct b
    end; eexists; repeat split. }
  destruct Hrun as (w7 & Hrun & Hc7 & Ht7).
  rewrite Hrun. unfold value, world. cbn [fst snd].
  split; [reflexivity|]. split.
  - rewrite Hc7, Hc6, Hc5, Hc4. unfold wi. cbn [cursor].
    rewrite Hc3. unfold wa. cbn [cursor]. now rewrite Hc2.
  - unfold wa in Ht3. unfold wi in Ht4. cbn [TOTAL_WARNINGS] in Ht3, Ht4.
    rewrite Ht7, Ht6, Ht5, Ht4, Ht3, Ht2, Ht1, Ht0.
    subst duplicates self.
    cbn [database_warnings Common.attributes]. rewrite Ha, Hi. lia.
Qed.

Lemma original_run_total_witness :
  value (Original.main key_set_twice sample_args initial_world) = Ok tt
  /\ cursor (world (Original.main key_set_twice sample_args initial_world))
     = Connected
  /\ TOTAL_WARNINGS
       (world (Original.main key_set_twice sample_args initial_world))
     = 2%Z.
Proof.
  apply (original_run_total
           key_set_twice sample_args initial_world []
           [("A", "1"); ("A", "2")] [("A", "1"); ("A", "2")]);
    try reflexivity.
  left. reflexivity.
Defined.
